(** * Event-Dashboard: schedule control, messaging and countdown

    A shallow embedding of the parts of the Event-Dashboard repository that
    carry state-machine semantics:

    - the express backend (the server file that follows [AdminPeople.jsx] in
      the source tree): schedule CRUD, the control routes
      next / previous / set-current / clear-current / pause, and the
      message routes get / post / ack / clear;
    - the React pages: the polling functions [fetchData] / [fetchSettings],
      the countdown effect [calculateCountdown] of the four pages that have
      one, the drag-and-drop handler [handleDragEnd] and [handleSetCurrent].

    Conventions of the embedding.
    - A JavaScript array is a [list]; an array index is a [Z] where the code
      compares it with [-1] or [0], a [nat] where it only subscripts.
    - A JavaScript string is a [string], the bytes of its UTF-8 encoding;
      ids are strings because every comparison in the backend goes through
      [String(x.id) === sid].
    - [is_current] is a [bool]: the code only ever tests the field for
      truthiness and writes booleans (or a merged falsy value) to it.
    - The module-level variables [schedule], [settings] and [message] of the
      backend are threaded explicitly; [save] writes a file and is not part
      of the state that a request can observe.
    - [Date.now()] and [new Date()] are inputs of the functions that read
      them, and so is the time zone of the host, with whatever daylight
      saving rules it has.
    - The request [PUT /api/schedule/reorder] of the schedule page is
      served as the backend serves it, by its route [/api/schedule/:id]. *)

From Stdlib Require Import ZArith Lia Ascii String.
From stdpp Require Import base tactics option list strings pretty gmap.

Local Open Scope Z_scope.

(** ** JavaScript library functions used by the code *)

Module Js.

(** [Array.prototype.findIndex]: the first index whose element satisfies
    the callback, [-1] when there is none. *)
Definition findIndex {A} (p : A → bool) (l : list A) : Z :=
  match list_find (λ x, Is_true (p x)) l with
  | Some (i, _) => Z.of_nat i
  | None => -1
  end.

(** [Array.prototype.find]: the first element that satisfies the callback,
    [undefined] ([None]) when there is none. *)
Definition find {A} (p : A → bool) (l : list A) : option A :=
  snd <$> list_find (λ x, Is_true (p x)) l.

(** [Array.prototype.some]. *)
Definition some {A} (p : A → bool) (l : list A) : bool := existsb p l.

(** [Array.prototype.includes] on an array of strings. *)
Definition includes (l : list string) (x : string) : bool :=
  existsb (String.eqb x) l.

(** A JavaScript string is held as its UTF-8 encoding, a [string] of
    bytes; a string literal of this file is the bytes it is written with.
    (A string with an unpaired surrogate has no encoding; no JSON body or
    stored value of the program is one.) *)

(** The white space of [String.prototype.trim] and of [Number]
    ([WhiteSpace] and [LineTerminator] of the language): TAB, LF, VT, FF,
    CR and SPACE, which are one byte each ([Ascii.is_space]), and the
    code points beyond ASCII, given by the bytes of their encoding. *)

(** U+00A0, the bytes [C2 A0]. *)
Definition isSpace2 (a b : ascii) : bool :=
  ((N_of_ascii a =? 194) && (N_of_ascii b =? 160))%N.

(** U+1680 ([E1 9A 80]), U+2000 to U+200A ([E2 80 80] to [E2 80 8A]),
    U+2028 and U+2029 ([E2 80 A8], [E2 80 A9]), U+202F ([E2 80 AF]),
    U+205F ([E2 81 9F]), U+3000 ([E3 80 80]) and U+FEFF ([EF BB BF]). *)
Definition isSpace3 (a b c : ascii) : bool :=
  let a := N_of_ascii a in
  let b := N_of_ascii b in
  let c := N_of_ascii c in
  ((a =? 225) && (b =? 154) && (c =? 128)
   || (a =? 226) && (b =? 128)
      && ((128 <=? c) && (c <=? 138) || (c =? 168) || (c =? 169)
          || (c =? 175))
   || (a =? 226) && (b =? 129) && (c =? 159)
   || (a =? 227) && (b =? 128) && (c =? 128)
   || (a =? 239) && (b =? 187) && (c =? 191))%N.

(** The string after its first character, when that is white space.
    With [fromEnd] the string is read backwards, last byte first, as
    [trim] does at the end of a string. *)
Definition afterSpace (fromEnd : bool) (s : string) : option string :=
  match s with
  | String a s1 =>
      if Ascii.is_space a then Some s1
      else
        match s1 with
        | String b s2 =>
            if (if fromEnd then isSpace2 b a else isSpace2 a b) then Some s2
            else
              match s2 with
              | String c s3 =>
                  if (if fromEnd then isSpace3 c b a else isSpace3 a b c)
                  then Some s3
                  else None
              | EmptyString => None
              end
        | EmptyString => None
        end
  | EmptyString => None
  end.

(** White space is dropped from the front, at most [fuel] characters. *)
Fixpoint strip (fuel : nat) (fromEnd : bool) (s : string) : string :=
  match fuel with
  | O => s
  | S fuel' =>
      match afterSpace fromEnd s with
      | Some s' => strip fuel' fromEnd s'
      | None => s
      end
  end.

(** [String.prototype.trimStart], [trimEnd] and [trim]. *)
Definition trimStart (s : string) : string :=
  strip (String.length s) false s.

Definition trimEnd (s : string) : string :=
  String.rev (strip (String.length s) true (String.rev s)).

Definition trim (s : string) : string := trimEnd (trimStart s).

(** Truthiness of a string: only the empty string is falsy. *)
Definition truthy (s : string) : bool :=
  match s with EmptyString => false | _ => true end.

(** [a || b] on strings. *)
Definition or_else (a b : string) : string := if truthy a then a else b.

(** [s.split(':')]: the pieces of [s] between colons, at least one. *)
Fixpoint split_go (cur : string) (s : string) : list string :=
  match s with
  | EmptyString => [String.rev cur]
  | String a s' =>
      if Ascii.eqb a ":"%char then String.rev cur :: split_go EmptyString s'
      else split_go (String a cur) s'
  end.

Definition split_colon (s : string) : list string := split_go EmptyString s.

(** A JavaScript number, as far as the countdown needs one: [NaN] or an
    integer. *)
Inductive number : Type := NaN | Num (z : Z).

(** The value of a string of decimal digits, most significant first;
    [None] when a character is not a digit. *)
Fixpoint digits_go (acc : Z) (s : string) : option Z :=
  match s with
  | EmptyString => Some acc
  | String a s' =>
      match Ascii.is_nat a with
      | Some d => digits_go (10 * acc + Z.of_nat d) s'
      | None => None
      end
  end.

(** [Number(s)] for the strings a clock time is made of: white space
    around the text is dropped, the empty text is [0], a run of decimal
    digits is its value, and text that is no numeric literal is [NaN].
    Signs, fractions, exponents, radix prefixes and [Infinity] are outside
    this fragment of the numeric literals and read as [NaN] here. The
    value of a digit string is kept exact: the rounding of a double only
    sets in above [2^53], where [setHours] below yields an invalid date
    for the rounded and for the exact value alike. *)
Definition Number (s : string) : number :=
  match digits_go 0 (trim s) with
  | Some z => Num z
  | None => NaN
  end.

(** [x || 0] on a number, or on [undefined] ([None]). *)
Definition or_zero (x : option number) : Z :=
  match x with
  | Some (Num z) => z
  | Some NaN | None => 0
  end.

(** Time values are milliseconds since the epoch. A [Date] holds a time
    value of magnitude at most [maxTime], or is invalid. *)
Definition msPerDay : Z := 86400000.
Definition msPerHour : Z := 3600000.
Definition msPerMinute : Z := 60000.
Definition maxTime : Z := 8640000000000000.

(** The time zone of the host, as [Date] uses it: [offsetAt t] is the
    offset of local time from UTC, in milliseconds, at the instant [t]
    ([LocalTZA(t, true)] of the language specification), and [offsetFor l]
    is the offset by which the local time value [l] is read as an instant
    ([LocalTZA(l, false)]: where a zone skips or repeats local times, the
    host picks the offset). A zone with daylight saving time has offsets
    that change with the argument. *)
Record Zone : Type := { offsetAt : Z → Z; offsetFor : Z → Z }.

(** A zone that keeps one offset. *)
Definition fixedZone (offset : Z) : Zone :=
  {| offsetAt := λ _, offset; offsetFor := λ _, offset |}.

(** [LocalTime(t)], [UTC(l)] and [Day(t)] of the language specification. *)
Definition LocalTime (tz : Zone) (t : Z) : Z := t + offsetAt tz t.
Definition UTC (tz : Zone) (l : Z) : Z := l - offsetFor tz l.
Definition Day (t : Z) : Z := t `div` msPerDay.

(** [d.setHours(h, m, 0, 0); d.getTime()] for a date [d] holding [t]:
    [TimeClip(UTC(MakeDate(Day(LocalTime(t)), MakeTime(h, m, 0, 0))))],
    the instant, or [None] for an invalid date ([NaN]). *)
Definition setHours (tz : Zone) (t h m : Z) : option Z :=
  let date :=
    Day (LocalTime tz t) * msPerDay + (h * msPerHour + m * msPerMinute) in
  let u := UTC tz date in
  if Z.abs u <=? maxTime then Some u else None.

(** [Array.prototype.splice]: the position a [start] argument denotes in
    an array of length [len]. *)
Definition spliceStart (len : nat) (start : Z) : nat :=
  Z.to_nat (if start <? 0 then Z.max (Z.of_nat len + start) 0
            else Z.min start (Z.of_nat len)).

(** [arr.splice(start, 1)]: the removed elements and the array left. *)
Definition splice_remove {A} (arr : list A) (start : Z) : list A * list A :=
  let k := spliceStart (length arr) start in
  (take 1 (drop k arr), take k arr ++ drop (S k) arr).

(** [arr.splice(start, 0, x)]: the array after the insertion. *)
Definition splice_insert {A} (arr : list A) (start : Z) (x : A) : list A :=
  let k := spliceStart (length arr) start in
  take k arr ++ x :: drop k arr.

(** [s.padStart(n, c)] with a filler [c] of one character: [c] is put in
    front of [s] until the length is [n]. *)
Fixpoint fill (k : nat) (c : ascii) (s : string) : string :=
  match k with
  | O => s
  | S k' => String c (fill k' c s)
  end.

Definition padStart (n : nat) (c : ascii) (s : string) : string :=
  fill (n - String.length s) c s.

(** [arr.join(sep)] *)
Fixpoint join (sep : string) (arr : list string) : string :=
  match arr with
  | [] => EmptyString
  | [x] => x
  | x :: arr' => x +:+ sep +:+ join sep arr'
  end.

(** [Array.from(new Set(arr))]: the elements of [arr] in the order of their
    first occurrence; [seen] holds the elements the set has already. *)
Fixpoint setFrom (seen : list string) (arr : list string) : list string :=
  match arr with
  | [] => []
  | x :: arr' =>
      if includes seen x then setFrom seen arr'
      else x :: setFrom (x :: seen) arr'
  end.

End Js.

(** ** The backend *)

Module Backend.

(** Replies of a route: [res.json(body)], or
    [res.status(code).json({ error })]. *)
Inductive Reply (A : Type) : Type :=
| Json (body : A)
| Status (code : Z) (error : string).
Global Arguments Json {A} body.
Global Arguments Status {A} code error.

(** [res.status(404).json({ error: "Not found" })] *)
Definition NotFound {A} : Reply A := Status 404 "Not found".

(** An entry of [schedule]. *)
Record ScheduleItem : Type := {
  id : string;
  title : string;
  description : string;
  start_time : string;
  end_time : string;
  phase_id : string;
  notes : string;
  is_current : bool;
  people : list string;
  groups : list string
}.

(** [{ ...x, is_current: b }] *)
Definition with_is_current (x : ScheduleItem) (b : bool) : ScheduleItem :=
  {| id := id x; title := title x; description := description x;
     start_time := start_time x; end_time := end_time x;
     phase_id := phase_id x; notes := notes x; is_current := b;
     people := people x; groups := groups x |}.

(** A JSON request body for the schedule routes: every key may be absent.
    A present text key holds a string and a present [people] or [groups]
    an array of strings, as in every request of the pages; a body with a
    value of another JSON type under these keys is not modelled. A present
    [is_current] is recorded by its truthiness. *)
Record ItemBody : Type := {
  body_id : option string;
  body_title : option string;
  body_description : option string;
  body_start_time : option string;
  body_end_time : option string;
  body_phase_id : option string;
  body_notes : option string;
  body_is_current : option bool;
  body_people : option (list string);
  body_groups : option (list string)
}.

(** The body [{}]. *)
Definition empty_body : ItemBody :=
  {| body_id := None; body_title := None; body_description := None;
     body_start_time := None; body_end_time := None; body_phase_id := None;
     body_notes := None; body_is_current := None; body_people := None;
     body_groups := None |}.

(** [function id() { return String(Date.now()); }] *)
Definition new_id (now : N) : string := pretty now.

(** [String(body.key || fallback)], for a key that is absent or holds a
    string. *)
Definition str_or (v : option string) (fallback : string) : string :=
  Js.or_else (default EmptyString v) fallback.

(** [{ ...x, ...body }] *)
Definition merge (x : ScheduleItem) (body : ItemBody) : ScheduleItem :=
  {| id := default (id x) (body_id body);
     title := default (title x) (body_title body);
     description := default (description x) (body_description body);
     start_time := default (start_time x) (body_start_time body);
     end_time := default (end_time x) (body_end_time body);
     phase_id := default (phase_id x) (body_phase_id body);
     notes := default (notes x) (body_notes body);
     is_current := default (is_current x) (body_is_current body);
     people := default (people x) (body_people body);
     groups := default (groups x) (body_groups body) |}.

(** [String(x.id) === sid] *)
Definition has_id (sid : string) (x : ScheduleItem) : bool :=
  String.eqb (id x) sid.

(** *** Schedule CRUD *)

(** [app.post("/api/schedule", ...)] *)
Definition schedule_post (now : N) (body : ItemBody)
    (schedule : list ScheduleItem) : list ScheduleItem * Reply ScheduleItem :=
  let item :=
    {| id := new_id now;
       title := str_or (body_title body) "Eintrag";
       description := str_or (body_description body) "";
       start_time := str_or (body_start_time body) "00:00";
       end_time := str_or (body_end_time body) "00:00";
       phase_id := str_or (body_phase_id body) "";
       notes := str_or (body_notes body) "";
       is_current := default false (body_is_current body);
       people := default [] (body_people body);
       groups := default [] (body_groups body) |} in
  let schedule :=
    if is_current item
    then (λ x, with_is_current x false) <$> schedule
    else schedule in
  (schedule ++ [item], Json item).

(** [app.put("/api/schedule/:id", ...)] *)
Definition schedule_put (sid : string) (body : ItemBody)
    (schedule : list ScheduleItem)
    : list ScheduleItem * Reply (option ScheduleItem) :=
  (* [list_find] gives the index [i] of [findIndex] together with
     [schedule[i]]; [None] is [i === -1]. *)
  match list_find (λ s, Is_true (has_id sid s)) schedule with
  | None => (schedule, NotFound)
  | Some (i, cur) =>
      let next := merge cur body in
      if is_current next then
        let schedule :=
          (λ x, with_is_current x (has_id sid x)) <$> schedule in
        (schedule, Json (Js.find (has_id sid) schedule))
      else
        let schedule := <[i := next]> schedule in
        (schedule, Json (schedule !! i))
  end.

(** [app.delete("/api/schedule/:id", ...)] *)
Definition schedule_delete (sid : string)
    (schedule : list ScheduleItem) : list ScheduleItem * Reply bool :=
  (filter (λ s, ¬ Is_true (has_id sid s)) schedule, Json true).

(** *** Control *)

(** [function getCurrentIndex()] *)
Definition getCurrentIndex (schedule : list ScheduleItem) : Z :=
  Js.findIndex is_current schedule.

(** [app.post("/api/control/clear-current", ...)] *)
Definition control_clear_current
    (schedule : list ScheduleItem) : list ScheduleItem * Reply bool :=
  ((λ s, with_is_current s false) <$> schedule, Json true).

(** [app.post("/api/control/set-current/:id", ...)] *)
Definition control_set_current (sid : string)
    (schedule : list ScheduleItem) : list ScheduleItem * Reply bool :=
  let exists_ := Js.some (has_id sid) schedule in
  if negb exists_ then (schedule, NotFound)
  else ((λ s, with_is_current s (has_id sid s)) <$> schedule, Json true).

(** [app.post("/api/control/next", ...)] *)
Definition control_next
    (schedule : list ScheduleItem) : list ScheduleItem * Reply bool :=
  let idx := getCurrentIndex schedule in
  let nextIdx :=
    if idx <? 0 then 0
    else Z.min (Z.of_nat (length schedule) - 1) (idx + 1) in
  (imap (λ i s, with_is_current s (Z.of_nat i =? nextIdx)) schedule,
   Json true).

(** [app.post("/api/control/previous", ...)] *)
Definition control_previous
    (schedule : list ScheduleItem) : list ScheduleItem * Reply bool :=
  let idx := getCurrentIndex schedule in
  let prevIdx := if idx <=? 0 then 0 else idx - 1 in
  (imap (λ i s, with_is_current s (Z.of_nat i =? prevIdx)) schedule,
   Json true).

(** *** Settings *)

(** The settings document, with the keys of [defaultSettings]. *)
Record Settings : Type := {
  event_name : string;
  event_date : string;
  background_color : string;
  surface_color : string;
  text_color : string;
  primary_color : string;
  accent_color : string;
  is_paused : bool;
  auto_advance : bool;
  auto_scroll : bool;
  show_countdown : bool
}.

Definition defaultSettings : Settings :=
  {| event_name := "Event"; event_date := "";
     background_color := "#0b0b0f"; surface_color := "#12121a";
     text_color := "#ffffff"; primary_color := "#7c3aed";
     accent_color := "#22c55e"; is_paused := false; auto_advance := false;
     auto_scroll := true; show_countdown := true |}.

(** [app.post("/api/control/pause", ...)]; the reply carries the new
    flag. *)
Definition control_pause (settings : Settings) : Settings * Reply bool :=
  let settings :=
    {| event_name := event_name settings;
       event_date := event_date settings;
       background_color := background_color settings;
       surface_color := surface_color settings;
       text_color := text_color settings;
       primary_color := primary_color settings;
       accent_color := accent_color settings;
       is_paused := negb (is_paused settings);
       auto_advance := auto_advance settings;
       auto_scroll := auto_scroll settings;
       show_countdown := show_countdown settings |} in
  (settings, Json (is_paused settings)).

(** *** Message (admin to clients) *)

(** The message document. [message_id] is its key [id] ([null] or a
    [Date.now()] reading); [created] is [null] or the instant whose ISO
    rendering the code stores. *)
Record Message : Type := {
  message_id : option N;
  text : string;
  active : bool;
  created : option N;
  acked_by : list string
}.

Definition defaultMessage : Message :=
  {| message_id := None; text := ""; active := false; created := None;
     acked_by := [] |}.

(** [{ ...message, active: b }] *)
Definition with_active (m : Message) (b : bool) : Message :=
  {| message_id := message_id m; text := text m; active := b;
     created := created m; acked_by := acked_by m |}.

(** [app.get("/api/message", ...)]; [client_id] is the query parameter,
    the empty string when it is missing. The route changes nothing. *)
Definition message_get (client_id : string) (message : Message)
    : Reply Message :=
  let clientId := Js.or_else client_id "" in
  if negb (active message) then Json message
  else if Js.truthy clientId && Js.includes (acked_by message) clientId
  then Json (with_active message false)
  else Json message.

(** [app.post("/api/message", ...)]; [now] is the reading of [Date.now()],
    [at_] the one of [nowIso()], [text] the key of the body. *)
Definition message_post (now at_ : N) (text : option string)
    (message : Message) : Message * Reply Message :=
  let text := default EmptyString text in
  if negb (Js.truthy text) || negb (Js.truthy (Js.trim text))
  then (message, Status 400 "Text fehlt")
  else
    let message :=
      {| message_id := Some now; text := Js.trim text; active := true;
         created := Some at_; acked_by := [] |} in
    (message, Json message).

(** [app.post("/api/message/ack", ...)] *)
Definition message_ack (client_id : option string) (message : Message)
    : Message * Reply bool :=
  let cid := Js.trim (Js.or_else (default EmptyString client_id) "") in
  if negb (Js.truthy cid) then (message, Status 400 "client_id fehlt")
  else
    let message :=
      if negb (Js.includes (acked_by message) cid)
      then {| message_id := message_id message; text := text message;
              active := active message; created := created message;
              acked_by := acked_by message ++ [cid] |}
      else message in
    (message, Json true).

(** [app.post("/api/message/clear", ...)] *)
Definition message_clear (message : Message) : Message * Reply bool :=
  (with_active message false, Json true).

(** What a client sees of the message: the [active] key of the reply to
    its [GET /api/message]. *)
Definition observed_active (client_id : string) (message : Message) : bool :=
  match message_get client_id message with
  | Json m => active m
  | Status _ _ => false
  end.

(** *** Reorder *)

(** [PUT /api/schedule/reorder] with the body [{ order }], the request of
    [handleDragEnd]. The backend declares no route of that path: express
    hands the request to [app.put("/api/schedule/:id", ...)], the only
    [PUT] route that matches, with [req.params.id = "reorder"]. The body
    has none of the keys of an entry; the key [order] it has is merged
    into the entry of id [reorder], should there be one, and is no key of
    [ScheduleItem]. *)
Definition put_schedule_reorder (order : list string)
    (schedule : list ScheduleItem)
    : list ScheduleItem * Reply (option ScheduleItem) :=
  schedule_put "reorder" empty_body schedule.

(** *** The schedule as a state machine *)

(** The requests that change [schedule]: the routes above, and the
    reorder request as the backend serves it. *)
Inductive Mutation : Type :=
| Next
| Previous
| SetCurrent (sid : string)
| ClearCurrent
| Reorder (order : list string)
| Create (now : N) (body : ItemBody)
| Edit (sid : string) (body : ItemBody)
| Delete (sid : string).

Definition apply (m : Mutation) (schedule : list ScheduleItem)
    : list ScheduleItem :=
  match m with
  | Next => fst (control_next schedule)
  | Previous => fst (control_previous schedule)
  | SetCurrent sid => fst (control_set_current sid schedule)
  | ClearCurrent => fst (control_clear_current schedule)
  | Reorder order => fst (put_schedule_reorder order schedule)
  | Create now body => fst (schedule_post now body schedule)
  | Edit sid body => fst (schedule_put sid body schedule)
  | Delete sid => fst (schedule_delete sid schedule)
  end.

(** The requests of [ms], served one after the other, first one first. *)
Definition run (ms : list Mutation) (schedule : list ScheduleItem)
    : list ScheduleItem :=
  foldl (λ s m, apply m s) schedule ms.

(** The states of [schedule] a server started without [schedule.json]
    can reach. *)
Inductive reachable : list ScheduleItem → Prop :=
| reachable_init : reachable []
| reachable_step m s : reachable s → reachable (apply m s).

(** How many entries are current. *)
Definition count_current (schedule : list ScheduleItem) : nat :=
  length (filter (λ s, Is_true (is_current s)) schedule).

(** *** Settings (continued) *)

(** A JSON body for the settings route: every key may be absent. *)
Record SettingsBody : Type := {
  body_event_name : option string;
  body_event_date : option string;
  body_background_color : option string;
  body_surface_color : option string;
  body_text_color : option string;
  body_primary_color : option string;
  body_accent_color : option string;
  body_is_paused : option bool;
  body_auto_advance : option bool;
  body_auto_scroll : option bool;
  body_show_countdown : option bool
}.

(** [app.post("/api/settings", ...)]: [{ ...settings, ...(req.body || {}) }] *)
Definition settings_post (body : SettingsBody) (settings : Settings)
    : Settings * Reply Settings :=
  let settings :=
    {| event_name := default (event_name settings) (body_event_name body);
       event_date := default (event_date settings) (body_event_date body);
       background_color :=
         default (background_color settings) (body_background_color body);
       surface_color :=
         default (surface_color settings) (body_surface_color body);
       text_color := default (text_color settings) (body_text_color body);
       primary_color :=
         default (primary_color settings) (body_primary_color body);
       accent_color :=
         default (accent_color settings) (body_accent_color body);
       is_paused := default (is_paused settings) (body_is_paused body);
       auto_advance :=
         default (auto_advance settings) (body_auto_advance body);
       auto_scroll := default (auto_scroll settings) (body_auto_scroll body);
       show_countdown :=
         default (show_countdown settings) (body_show_countdown body) |} in
  (settings, Json settings).

End Backend.

(** ** The pages *)

(** The other collections the pages fetch. *)
Module Phase.
Record t : Type := { id : string; name : string; color : string }.
End Phase.

Module Person.
Record t : Type :=
  { id : string; name : string; role : string; color : string }.
End Person.

Module Group.
Record t : Type := { id : string; name : string; color : string }.
End Group.

Module Client.

(** The outcome of an awaited request: the [data] of the response, or a
    rejection (network error or a status outside 2xx). *)
Inductive Settled (A : Type) : Type :=
| fulfilled (data : A)
| rejected.
Global Arguments fulfilled {A} data.
Global Arguments rejected {A}.

(** The [data] of a collection route: an array, or [None] for an empty
    body ([null]). The routes of the backend reply arrays; a body of
    another shape is not modelled. *)
Definition Payload (A : Type) : Type := option (list A).

(** The [countdown] state of a page. *)
Record Countdown : Type := { hours : Z; minutes : Z; seconds : Z }.

(** [{ hours: 0, minutes: 0, seconds: 0 }] *)
Definition zero : Countdown := {| hours := 0; minutes := 0; seconds := 0 |}.

Inductive Toast : Type :=
| toast_success (text : string)
| toast_error (text : string).

(** [window.localStorage]: string keys to string values. [getItem] is
    the lookup ([null] is [None]), [setItem] the insertion and
    [removeItem] the deletion. *)
Abbreviation Storage := (gmap string string).

End Client.

Module ViewerDashboard.
Import Backend Client.

Record State : Type := {
  schedule : list ScheduleItem;
  phases : list Phase.t;
  countdown : Countdown;
  currentTime : Z;
  message : option Message;
  showPopup : bool
}.

(** [fetchData]: [Promise.all] rejects as soon as one request does, and
    the [catch] only logs. *)
Definition fetchData (scheduleRes : Settled (Payload ScheduleItem))
    (phasesRes : Settled (Payload Phase.t)) (st : State) : State :=
  match scheduleRes, phasesRes with
  | fulfilled scheduleData, fulfilled phasesData =>
      {| schedule := default [] scheduleData;
         phases := default [] phasesData;
         countdown := countdown st; currentTime := currentTime st;
         message := message st; showPopup := showPopup st |}
  | _, _ => st
  end.

(** [calculateCountdown]: the value handed to [setCountdown]. [now] and
    [now'] are the readings of the two [new Date()], [tz] is the time
    zone of the browser. *)
Definition calculateCountdown (tz : Js.Zone) (now now' : Z)
    (schedule : list ScheduleItem) (is_paused : bool) : Countdown :=
  match Js.find is_current schedule with
  | None => zero
  | Some currentItem =>
      if is_paused then zero
      else
        let parts :=
          Js.Number <$>
            Js.split_colon (Js.or_else (end_time currentItem) "00:00") in
        let endHours := parts !! 0%nat in
        let endMinutes := parts !! 1%nat in
        match Js.setHours tz now' (Js.or_zero endHours)
                (Js.or_zero endMinutes) with
        | None => zero
        | Some endTime =>
            let diff := endTime - now in
            if 0 <? diff then
              {| hours := diff `div` (1000 * 60 * 60);
                 minutes := (diff `mod` (1000 * 60 * 60)) `div` (1000 * 60);
                 seconds := (diff `mod` (1000 * 60)) `div` 1000 |}
            else zero
        end
  end.

(** [function getClientId()]: [rnd] is
    [Math.random().toString(16).slice(2)], [now] the reading of
    [Date.now()]. The id and the storage afterwards. *)
Definition getClientId (rnd : string) (now : N) (storage : Storage)
    : string * Storage :=
  let key := "viewer_client_id" in
  let v := storage !! key in
  if Js.truthy (default EmptyString v) then (default EmptyString v, storage)
  else
    let v := "client_" +:+ rnd +:+ "_" +:+ pretty now in
    (v, <[key := v]> storage).

(** [fetchMessage]: [res] is the answer to [GET /message], its [data] a
    message or [null]. *)
Definition fetchMessage (res : Settled (option Message)) (st : State)
    : State :=
  match res with
  | fulfilled data =>
      {| schedule := schedule st; phases := phases st;
         countdown := countdown st; currentTime := currentTime st;
         message := data;
         showPopup :=
           match data with
           | Some m => active m && Js.truthy (text m)
           | None => false
           end |}
  | rejected => st
  end.

(** [handleAck]: [reply] is the answer to [POST /message/ack]. *)
Definition handleAck (reply : Settled (Reply bool)) (st : State) : State :=
  match reply with
  | fulfilled (Json _) =>
      {| schedule := schedule st; phases := phases st;
         countdown := countdown st; currentTime := currentTime st;
         message := message st; showPopup := false |}
  | fulfilled (Status _ _) | rejected => st
  end.

(** [formatTime]: [String(num).padStart(2, '0')] *)
Definition formatTime (num : Z) : string :=
  Js.padStart 2 "0"%char (pretty num).

End ViewerDashboard.

Module CrewDashboard.
Import Backend Client.

Record State : Type := {
  schedule : list ScheduleItem;
  phases : list Phase.t;
  people : list Person.t;
  groups : list Group.t;
  countdown : Countdown;
  currentTime : Z;
  message : option Message;
  showPopup : bool
}.

(** [fetchData]: [Promise.allSettled] never rejects; each fulfilled
    request sets its own collection. *)
Definition fetchData (scheduleRes : Settled (Payload ScheduleItem))
    (phasesRes : Settled (Payload Phase.t))
    (peopleRes : Settled (Payload Person.t))
    (groupsRes : Settled (Payload Group.t)) (st : State) : State :=
  let schedule :=
    match scheduleRes with
    | fulfilled data => default [] data
    | rejected => schedule st
    end in
  let phases :=
    match phasesRes with
    | fulfilled data => default [] data
    | rejected => phases st
    end in
  let people :=
    match peopleRes with
    | fulfilled data => default [] data
    | rejected => people st
    end in
  let groups :=
    match groupsRes with
    | fulfilled data => default [] data
    | rejected => groups st
    end in
  {| schedule := schedule; phases := phases; people := people;
     groups := groups; countdown := countdown st;
     currentTime := currentTime st; message := message st;
     showPopup := showPopup st |}.

(** [calculateCountdown] *)
Definition calculateCountdown (tz : Js.Zone) (now now' : Z)
    (schedule : list ScheduleItem) (is_paused : bool) : Countdown :=
  match Js.find is_current schedule with
  | None => zero
  | Some currentItem =>
      if is_paused then zero
      else
        let parts :=
          Js.Number <$>
            Js.split_colon (Js.or_else (end_time currentItem) "00:00") in
        let endHours := parts !! 0%nat in
        let endMinutes := parts !! 1%nat in
        match Js.setHours tz now' (Js.or_zero endHours)
                (Js.or_zero endMinutes) with
        | None => zero
        | Some endTime =>
            let diff := endTime - now in
            if 0 <? diff then
              let hours := diff `div` (1000 * 60 * 60) in
              let minutes :=
                (diff `mod` (1000 * 60 * 60)) `div` (1000 * 60) in
              let seconds := (diff `mod` (1000 * 60)) `div` 1000 in
              {| hours := hours; minutes := minutes; seconds := seconds |}
            else zero
        end
  end.

(** [function getClientId()], with a key and a prefix of the crew page's
    own. *)
Definition getClientId (rnd : string) (now : N) (storage : Storage)
    : string * Storage :=
  let key := "crew_client_id" in
  let v := storage !! key in
  if Js.truthy (default EmptyString v) then (default EmptyString v, storage)
  else
    let v := "crew_" +:+ rnd +:+ "_" +:+ pretty now in
    (v, <[key := v]> storage).

(** [function getDismissKey(msg)]; [iso] renders an instant as the string
    the backend stores in [created]. *)
Definition getDismissKey (iso : N → string) (msg : option Message) : string :=
  let created :=
    match msg with
    | Some m =>
        match created m with
        | Some t => Js.or_else (iso t) ""
        | None => EmptyString
        end
    | None => EmptyString
    end in
  let text :=
    match msg with
    | Some m => Js.or_else (text m) ""
    | None => EmptyString
    end in
  created +:+ "__" +:+ text.

(** [function getDismissStoreKey(clientId)] *)
Definition getDismissStoreKey (clientId : string) : string :=
  "crew_dismissed_msg_" +:+ clientId.

(** [uniq]: [Array.from(new Set((arr || []).filter(Boolean)))] *)
Definition uniq (arr : list string) : list string :=
  Js.setFrom [] (filter (λ x, Is_true (Js.truthy x)) arr).

(** [joinNice]: [uniq(arr).join(', ')] *)
Definition joinNice (arr : list string) : string := Js.join ", " (uniq arr).

(** [fetchMessage]; the storage is only read. *)
Definition fetchMessage (iso : N → string) (clientId : string)
    (res : Settled (option Message)) (storage : Storage) (st : State)
    : State :=
  match res with
  | fulfilled msg =>
      let dismissedKey := storage !! getDismissStoreKey clientId in
      let currentKey := getDismissKey iso msg in
      let shouldShow :=
        match msg with
        | Some m => active m && Js.truthy (text m)
        | None => false
        end
        && Js.truthy currentKey
        && match dismissedKey with
           | Some d => negb (String.eqb currentKey d)
           | None => true
           end in
      {| schedule := schedule st; phases := phases st; people := people st;
         groups := groups st; countdown := countdown st;
         currentTime := currentTime st; message := msg;
         showPopup := shouldShow |}
  | rejected => st
  end.

(** [handleAck]: the dismissal is stored and the popup closed before the
    [POST /message/ack] is awaited, whose outcome changes nothing. *)
Definition handleAck (iso : N → string) (clientId : string)
    (storage : Storage) (st : State) : State * Storage :=
  let key := getDismissKey iso (message st) in
  ({| schedule := schedule st; phases := phases st; people := people st;
      groups := groups st; countdown := countdown st;
      currentTime := currentTime st;
      message := (λ prev, with_active prev false) <$> message st;
      showPopup := false |},
   <[getDismissStoreKey clientId := key]> storage).

(** [resolvePeopleNames]: the names of the people whose id is in [ids], in
    the order of [people]; the ids themselves when no name is found. A
    person has the keys the backend gives it ([id], [name], [role],
    [color]), so [p.name || p.display_name || p.username || p.title] is
    [p.name] or [undefined], which [filter(Boolean)] drops like the empty
    name. *)
Definition resolvePeopleNames (people : list Person.t) (ids : list string)
    : list string :=
  let names :=
    filter (λ n, Is_true (Js.truthy n))
      (Person.name <$>
         filter (λ p, Is_true (Js.includes ids (Person.id p))) people) in
  if bool_decide (names = []) && negb (bool_decide (ids = [])) then ids
  else names.

(** [resolveGroupNames]: likewise, with [g.name || g.title] for a group
    of the keys [id], [name], [color]. *)
Definition resolveGroupNames (groups : list Group.t) (ids : list string)
    : list string :=
  let names :=
    filter (λ n, Is_true (Js.truthy n))
      (Group.name <$>
         filter (λ g, Is_true (Js.includes ids (Group.id g))) groups) in
  if bool_decide (names = []) && negb (bool_decide (ids = [])) then ids
  else names.

(** [formatTime] *)
Definition formatTime (num : Z) : string :=
  Js.padStart 2 "0"%char (pretty num).

End CrewDashboard.

Module CurrentOnlyDashboard.
Import Backend Client.

(** [calculateCountdown] *)
Definition calculateCountdown (tz : Js.Zone) (now now' : Z)
    (schedule : list ScheduleItem) (is_paused : bool) : Countdown :=
  match Js.find is_current schedule with
  | None => zero
  | Some currentItem =>
      if is_paused then zero
      else
        let parts :=
          Js.Number <$>
            Js.split_colon (Js.or_else (end_time currentItem) "00:00") in
        match Js.setHours tz now' (Js.or_zero (parts !! 0%nat))
                (Js.or_zero (parts !! 1%nat)) with
        | None => zero
        | Some endTime =>
            let diff := endTime - now in
            if 0 <? diff then
              {| hours := diff `div` (1000 * 60 * 60);
                 minutes := (diff `mod` (1000 * 60 * 60)) `div` (1000 * 60);
                 seconds := (diff `mod` (1000 * 60)) `div` 1000 |}
            else zero
        end
  end.

Record State : Type := {
  schedule : list ScheduleItem;
  phases : list Phase.t;
  countdown : Countdown;
  currentTime : Z;
  message : option Message;
  showPopup : bool
}.

(** [fetchData] *)
Definition fetchData (scheduleRes : Settled (Payload ScheduleItem))
    (phasesRes : Settled (Payload Phase.t)) (st : State) : State :=
  match scheduleRes, phasesRes with
  | fulfilled scheduleData, fulfilled phasesData =>
      {| schedule := default [] scheduleData;
         phases := default [] phasesData;
         countdown := countdown st; currentTime := currentTime st;
         message := message st; showPopup := showPopup st |}
  | _, _ => st
  end.

(** [function getClientId()]: the key and the prefix are those of the
    viewer page. *)
Definition getClientId (rnd : string) (now : N) (storage : Storage)
    : string * Storage :=
  let key := "viewer_client_id" in
  let v := storage !! key in
  if Js.truthy (default EmptyString v) then (default EmptyString v, storage)
  else
    let v := "client_" +:+ rnd +:+ "_" +:+ pretty now in
    (v, <[key := v]> storage).

(** [fetchMessage] *)
Definition fetchMessage (res : Settled (option Message)) (st : State)
    : State :=
  match res with
  | fulfilled data =>
      {| schedule := schedule st; phases := phases st;
         countdown := countdown st; currentTime := currentTime st;
         message := data;
         showPopup :=
           match data with
           | Some m => active m && Js.truthy (text m)
           | None => false
           end |}
  | rejected => st
  end.

(** [handleAck] *)
Definition handleAck (reply : Settled (Reply bool)) (st : State) : State :=
  match reply with
  | fulfilled (Json _) =>
      {| schedule := schedule st; phases := phases st;
         countdown := countdown st; currentTime := currentTime st;
         message := message st; showPopup := false |}
  | fulfilled (Status _ _) | rejected => st
  end.

(** [formatTime] *)
Definition formatTime (num : Z) : string :=
  Js.padStart 2 "0"%char (pretty num).

End CurrentOnlyDashboard.

Module ThemeContext.
Import Backend Client.

Record State : Type := { settings : Settings; loading : bool }.

(** [fetchSettings]: the [catch] only logs; the [finally] runs on both
    paths. *)
Definition fetchSettings (response : Settled Settings) (st : State) : State :=
  let settings :=
    match response with
    | fulfilled data => data
    | rejected => settings st
    end in
  {| settings := settings; loading := false |}.

End ThemeContext.

Module AdminOverview.
Import Backend Client.

Record State : Type := {
  schedule : list ScheduleItem;
  phases : list Phase.t;
  countdown : Countdown
}.

(** [fetchData] *)
Definition fetchData (scheduleRes : Settled (Payload ScheduleItem))
    (phasesRes : Settled (Payload Phase.t)) (st : State) : State :=
  match scheduleRes, phasesRes with
  | fulfilled scheduleData, fulfilled phasesData =>
      {| schedule := default [] scheduleData;
         phases := default [] phasesData;
         countdown := countdown st |}
  | _, _ => st
  end.

(** [calculateCountdown] *)
Definition calculateCountdown (tz : Js.Zone) (now now' : Z)
    (schedule : list ScheduleItem) (is_paused : bool) : Countdown :=
  match Js.find is_current schedule with
  | None => zero
  | Some currentItem =>
      if is_paused then zero
      else
        let parts :=
          Js.Number <$>
            Js.split_colon (Js.or_else (end_time currentItem) "00:00") in
        let endHours := parts !! 0%nat in
        let endMinutes := parts !! 1%nat in
        match Js.setHours tz now' (Js.or_zero endHours)
                (Js.or_zero endMinutes) with
        | None => zero
        | Some endTime =>
            let diff := endTime - now in
            if 0 <? diff then
              {| hours := diff `div` (1000 * 60 * 60);
                 minutes := (diff `mod` (1000 * 60 * 60)) `div` (1000 * 60);
                 seconds := (diff `mod` (1000 * 60)) `div` 1000 |}
            else zero
        end
  end.

(** [handleSetCurrent]: [reply] is the answer to the
    [POST /control/set-current/:id]; axios throws on a status outside
    2xx, which skips the two fetches. The page state, the theme state and
    the toast shown. *)
Definition handleSetCurrent (reply : Settled (Reply bool))
    (scheduleRes : Settled (Payload ScheduleItem))
    (phasesRes : Settled (Payload Phase.t))
    (settingsRes : Settled Settings)
    (st : State) (theme : ThemeContext.State)
    : State * ThemeContext.State * Toast :=
  match reply with
  | fulfilled (Json _) =>
      (fetchData scheduleRes phasesRes st,
       ThemeContext.fetchSettings settingsRes theme,
       toast_success "Aktueller Eintrag gesetzt")
  | fulfilled (Status _ _) | rejected =>
      (st, theme, toast_error "Fehler beim Setzen")
  end.

(** [handleControl]: [reply] is the answer to the [POST /control/:action]. *)
Definition handleControl (reply : Settled (Reply bool))
    (scheduleRes : Settled (Payload ScheduleItem))
    (phasesRes : Settled (Payload Phase.t))
    (settingsRes : Settled Settings)
    (st : State) (theme : ThemeContext.State)
    : State * ThemeContext.State * Toast :=
  match reply with
  | fulfilled (Json _) =>
      (fetchData scheduleRes phasesRes st,
       ThemeContext.fetchSettings settingsRes theme,
       toast_success "Steuerung aktualisiert")
  | fulfilled (Status _ _) | rejected =>
      (st, theme, toast_error "Fehler bei der Steuerung")
  end.

(** [formatTime] *)
Definition formatTime (num : Z) : string :=
  Js.padStart 2 "0"%char (pretty num).

End AdminOverview.

Module AdminSchedule.
Import Backend Client.

(** [arrayMove] of the drag-and-drop library, on an array without holes:
    [array.slice()], then
    [newArray.splice(to < 0 ? newArray.length + to : to, 0,
                     newArray.splice(from, 1)[0])].
    The first argument of the outer [splice] is evaluated before the
    inner one runs. An element of the result is [None] where the
    JavaScript array holds [undefined]. *)
Definition arrayMove {A} (array : list A) (from to : Z) : list (option A) :=
  let newArray := Some <$> array in
  let start := if to <? 0 then Z.of_nat (length newArray) + to else to in
  let '(removed, newArray) := Js.splice_remove newArray from in
  Js.splice_insert newArray start (mjoin (head removed)).

(** [handleDragEnd]: [active] is [event.active.id], [over] is
    [event.over?.id]. [None] is the early return; otherwise the array
    handed to [setSchedule], and the [order] of the request, which is
    [None] when [newOrder.map(i => i.id)] throws inside the [try]. *)
Definition handleDragEnd (active : string) (over : option string)
    (schedule : list ScheduleItem)
    : option (list (option ScheduleItem) * option (list string)) :=
  match over with
  | None => None
  | Some over =>
      if String.eqb active over then None
      else
        let oldIndex := Js.findIndex (λ i, String.eqb (id i) active) schedule in
        let newIndex := Js.findIndex (λ i, String.eqb (id i) over) schedule in
        let newOrder := arrayMove schedule oldIndex newIndex in
        Some (newOrder, mapM (fmap id) newOrder)
  end.

(** The [formData] state of the dialog. *)
Module Form.
Record t : Type := {
  title : string;
  description : string;
  start_time : string;
  end_time : string;
  phase_id : string;
  notes : string
}.
End Form.

(** The form [resetForm] sets. *)
Definition emptyForm : Form.t :=
  {| Form.title := ""; Form.description := ""; Form.start_time := "";
     Form.end_time := ""; Form.phase_id := ""; Form.notes := "" |}.

Record State : Type := {
  schedule : list ScheduleItem;
  phases : list Phase.t;
  isDialogOpen : bool;
  editingItem : option ScheduleItem;
  formData : Form.t
}.

(** [fetchData]: no [catch]; a rejection leaves the state as it is. *)
Definition fetchData (s : Settled (list ScheduleItem))
    (p : Settled (list Phase.t)) (st : State) : State :=
  match s, p with
  | fulfilled sData, fulfilled pData =>
      {| schedule := sData; phases := pData;
         isDialogOpen := isDialogOpen st; editingItem := editingItem st;
         formData := formData st |}
  | _, _ => st
  end.

(** [resetForm] *)
Definition resetForm (st : State) : State :=
  {| schedule := schedule st; phases := phases st;
     isDialogOpen := isDialogOpen st; editingItem := None;
     formData := emptyForm |}.

(** [handleEdit] *)
Definition handleEdit (item : ScheduleItem) (st : State) : State :=
  {| schedule := schedule st; phases := phases st; isDialogOpen := true;
     editingItem := Some item;
     formData :=
       {| Form.title := Backend.title item;
          Form.description := Js.or_else (Backend.description item) "";
          Form.start_time := Backend.start_time item;
          Form.end_time := Backend.end_time item;
          Form.phase_id := Js.or_else (Backend.phase_id item) "";
          Form.notes := Js.or_else (Backend.notes item) "" |} |}.

(** The JSON body axios sends for a [formData]. *)
Definition body_of_form (f : Form.t) : ItemBody :=
  {| body_id := None; body_title := Some (Form.title f);
     body_description := Some (Form.description f);
     body_start_time := Some (Form.start_time f);
     body_end_time := Some (Form.end_time f);
     body_phase_id := Some (Form.phase_id f);
     body_notes := Some (Form.notes f); body_is_current := None;
     body_people := None; body_groups := None |}.

(** The request of [handleSubmit]: a [PUT /schedule/:id] for the entry
    being edited, a [POST /schedule] otherwise. *)
Inductive Request : Type :=
| PUT (sid : string) (body : ItemBody)
| POST (body : ItemBody).

Definition submitRequest (st : State) : Request :=
  match editingItem st with
  | Some item => PUT (id item) (body_of_form (formData st))
  | None => POST (body_of_form (formData st))
  end.

(** [handleSubmit]: [ok] tells whether the request was answered with
    success; when it was not, the [await] throws and the rest is skipped.
    The state before the final [fetchData], and the toast. *)
Definition handleSubmit (ok : bool) (st : State) : State * option Toast :=
  if ok then
    (resetForm
       {| schedule := schedule st; phases := phases st;
          isDialogOpen := false; editingItem := editingItem st;
          formData := formData st |},
     Some (toast_success
             match editingItem st with
             | Some _ => "Aktualisiert"
             | None => "Erstellt"
             end))
  else (st, None).

(** How the backend serves the request; [now] is its reading of the clock
    for a creation. *)
Definition serve (now : N) (req : Request) (schedule : list ScheduleItem)
    : list ScheduleItem :=
  match req with
  | PUT sid body => (schedule_put sid body schedule).1
  | POST body => (schedule_post now body schedule).1
  end.

End AdminSchedule.

Module AuthContext.
Import Backend Client.

Record State : Type := {
  token : option string;
  isAuthenticated : bool;
  loading : bool
}.

(** The state [useState] sets up. *)
Definition initial : State :=
  {| token := None; isAuthenticated := false; loading := true |}.

(** The effect run on mount. *)
Definition mount (storage : Storage) (st : State) : State :=
  let stored := default EmptyString (storage !! "token") in
  if Js.truthy stored then
    {| token := Some stored; isAuthenticated := true; loading := false |}
  else
    {| token := token st; isAuthenticated := isAuthenticated st;
       loading := false |}.

(** [login]: [res] is the answer to [POST /auth/login], its [data] the
    [token] key of the body ([None] when there is none). The state, the
    storage, and whether the call returned ([true]) or threw. *)
Definition login (res : Settled (option string)) (storage : Storage)
    (st : State) : State * Storage * bool :=
  match res with
  | fulfilled newToken =>
      let newToken := default EmptyString newToken in
      if negb (Js.truthy newToken) then (st, storage, false)
      else
        ({| token := Some newToken; isAuthenticated := true;
            loading := loading st |},
         <["token" := newToken]> storage, true)
  | rejected => (st, storage, false)
  end.

(** [logout] *)
Definition logout (storage : Storage) (st : State) : State * Storage :=
  ({| token := None; isAuthenticated := false; loading := loading st |},
   delete "token" storage).

(** [getAuthHeader]: the value of the [Authorization] header. *)
Definition getAuthHeader (st : State) : string :=
  "Bearer " +:+ default "null" (token st).

(** What happens to a mounted provider. *)
Inductive Event : Type :=
| Login (res : Settled (option string))
| Logout.

Definition step (e : Event) (c : State * Storage) : State * Storage :=
  match e with
  | Login res => (login res c.2 c.1).1
  | Logout => logout c.2 c.1
  end.

End AuthContext.

Module AdminGroups.

(** [togglePerson]: the [member_ids] of the group sent to the backend. *)
Definition togglePerson (member_ids : list string) (personId : string)
    : list string :=
  let exists_ := Js.includes member_ids personId in
  if exists_
  then filter (λ id, id ≠ personId) member_ids
  else member_ids ++ [personId].

End AdminGroups.

Module AdminPeople.

(** [toggleExpanded]: the set of expanded groups. *)
Definition toggleExpanded (groupId : string) (prev : gset string)
    : gset string :=
  if bool_decide (groupId ∈ prev) then prev ∖ {[groupId]}
  else prev ∪ {[groupId]}.

(** [toggleMember]: the member ids of the group form. *)
Definition toggleMember (personId : string) (prev : list string)
    : list string :=
  if Js.includes prev personId
  then filter (λ x, x ≠ personId) prev
  else prev ++ [personId].

End AdminPeople.

(** ** Notions of the specification *)

Module Spec.
Import Backend Client.

(** The current index of the specification after one control step, on a
    list of [n] entries: [next] goes to [0] from no current entry and to
    [min (n - 1) (i + 1)] otherwise, [previous] to [0] from no current
    entry and to [max 0 (i - 1)] otherwise. *)
Definition index_step (n : Z) (i : Z) (m : Mutation) : Z :=
  match m with
  | Next => if i <? 0 then 0 else Z.min (n - 1) (i + 1)
  | Previous => if i <? 0 then 0 else Z.max 0 (i - 1)
  | _ => i
  end.

(** A request is a control step. *)
Definition is_step (m : Mutation) : Prop := m = Next ∨ m = Previous.

(** A clock time [HH:MM]. *)
Definition pad2 (n : N) : string :=
  if (n <? 10)%N then "0" +:+ pretty n else pretty n.

Definition hhmm (h m : N) : string := pad2 h +:+ ":" +:+ pad2 m.

(** The local time value of [h]:[m] on the local day of the instant
    [now], and the instant the zone gives it: the end time of today. *)
Definition local_hhmm (tz : Js.Zone) (now : Z) (h m : N) : Z :=
  Js.Day (Js.LocalTime tz now) * 86400000
  + (Z.of_N h * 3600000 + Z.of_N m * 60000).

Definition end_of_today (tz : Js.Zone) (now : Z) (h m : N) : Z :=
  Js.UTC tz (local_hhmm tz now h m).

(** The whole seconds a countdown displays. *)
Definition seconds_shown (c : Countdown) : Z :=
  hours c * 3600 + minutes c * 60 + seconds c.

(** The states of [message] a server started without [message.json] can
    reach. *)
Inductive message_reachable : Message → Prop :=
| message_init : message_reachable defaultMessage
| message_posted now at_ text m :
    message_reachable m → message_reachable (message_post now at_ text m).1
| message_acked client_id m :
    message_reachable m → message_reachable (message_ack client_id m).1
| message_cleared m :
    message_reachable m → message_reachable (message_clear m).1.

(** A request that gives no entry an id in use: a creation whose clock
    reading renders to the id of no stored entry, an edit whose body has
    no [id] key, and any other request. *)
Definition keeps_ids_distinct (m : Mutation) (schedule : list ScheduleItem)
    : Prop :=
  match m with
  | Create now _ => new_id now ∉ id <$> schedule
  | Edit _ body => body_id body = None
  | _ => True
  end.

(** Every request of [ms], served in turn from [schedule], is such a
    request. *)
Fixpoint disciplined (ms : list Mutation) (schedule : list ScheduleItem)
    : Prop :=
  match ms with
  | [] => True
  | m :: ms' =>
      keeps_ids_distinct m schedule ∧ disciplined ms' (apply m schedule)
  end.

(** An entry with its [is_current] flag erased: what the control routes
    leave alone. *)
Definition unflagged (schedule : list ScheduleItem) : list ScheduleItem :=
  (λ x, with_is_current x false) <$> schedule.

(** The states of a mounted [AuthProvider]: the one after the mount effect
    on any storage, and those the events lead to. *)
Inductive auth_reachable : AuthContext.State * Storage → Prop :=
| auth_mounted storage :
    auth_reachable (AuthContext.mount storage AuthContext.initial, storage)
| auth_step e c : auth_reachable c → auth_reachable (AuthContext.step e c).

End Spec.

(** ** Sample data *)

Module Sample.
Import Backend Client.

(** An entry with the given id (also its title), end time and flag. *)
Definition entry (i e : string) (c : bool) : ScheduleItem :=
  {| id := i; title := i; description := ""; start_time := "00:00";
     end_time := e; phase_id := ""; notes := ""; is_current := c;
     people := []; groups := [] |}.

(** The schedule [A, B, C] of the specification's example, none current. *)
Definition abc : list ScheduleItem :=
  [entry "A" "10:00" false; entry "B" "11:30" false; entry "C" "12:45" false].

(** The same schedule while [B] is live. *)
Definition abc_live : list ScheduleItem :=
  [entry "A" "10:00" false; entry "B" "11:30" true; entry "C" "12:45" false].

(** The body [{ id: i }]. *)
Definition id_body (i : string) : ItemBody :=
  {| body_id := Some i; body_title := None; body_description := None;
     body_start_time := None; body_end_time := None; body_phase_id := None;
     body_notes := None; body_is_current := None; body_people := None;
     body_groups := None |}.

(** Two entries are created at the readings [1] and [2] of the clock, a
    [PUT /api/schedule/2] with the body [{ id: "1" }] follows, then a
    [POST /api/control/set-current/1]. *)
Definition renamed_then_set : list Mutation :=
  [Create 1 empty_body; Create 2 empty_body; Edit "2" (id_body "1");
   SetCurrent "1"].

(** Two entries are created within the same millisecond [1000], then a
    [POST /api/control/set-current/1000] follows. *)
Definition same_tick_then_set : list Mutation :=
  [Create 1000 empty_body; Create 1000 empty_body; SetCurrent "1000"].

(** A zone one hour ahead of UTC, and the instant at which its clocks read
    10:00:30.250 on day 20000 after the epoch. *)
Definition tz : Js.Zone := Js.fixedZone 3600000.

Definition now : Z :=
  20000 * 86400000 + 10 * 3600000 + 30 * 1000 + 250 - 3600000.

(** Central European time around the night of 29 March 2026: one hour
    ahead of UTC until 01:00 UTC of that day (day 20541 after the epoch),
    two hours from then on. The local times from 02:00 to 03:00 of that
    day do not occur; they are read with the offset before the change. *)
Definition berlin : Js.Zone :=
  {| Js.offsetAt := λ t,
       if t <? 20541 * 86400000 + 3600000 then 3600000 else 7200000;
     Js.offsetFor := λ l,
       if l <? 20541 * 86400000 + 3 * 3600000 then 3600000 else 7200000 |}.

(** The instant at which the clocks of that zone read 00:30 on 29 March
    2026. *)
Definition berlin_night : Z := 20541 * 86400000 + 30 * 60000 - 3600000.



(** A crew page that shows [A, B, C] with [B] live and knows no phase. *)
Definition crew_page : CrewDashboard.State :=
  {| CrewDashboard.schedule := abc_live; CrewDashboard.phases := [];
     CrewDashboard.people := []; CrewDashboard.groups := [];
     CrewDashboard.countdown := zero; CrewDashboard.currentTime := 0;
     CrewDashboard.message := None; CrewDashboard.showPopup := false |}.

(** A viewer page that shows the same. *)
Definition viewer_page : ViewerDashboard.State :=
  {| ViewerDashboard.schedule := abc_live; ViewerDashboard.phases := [];
     ViewerDashboard.countdown := zero; ViewerDashboard.currentTime := 0;
     ViewerDashboard.message := None; ViewerDashboard.showPopup := false |}.

(** The body [{ title: t }]. *)
Definition title_body (t : string) : ItemBody :=
  {| body_id := None; body_title := Some t; body_description := None;
     body_start_time := None; body_end_time := None; body_phase_id := None;
     body_notes := None; body_is_current := None; body_people := None;
     body_groups := None |}.

(** Requests that give no entry an id in use. *)
Definition orderly : list Mutation :=
  [Create 1 empty_body; Create 2 empty_body; Next; SetCurrent "2";
   Edit "1" (title_body "Einlass"); Delete "2"; Create 3 empty_body].

(** The dialog of the schedule page, closed. *)
Definition schedule_page : AdminSchedule.State :=
  {| AdminSchedule.schedule := abc_live; AdminSchedule.phases := [];
     AdminSchedule.isDialogOpen := false; AdminSchedule.editingItem := None;
     AdminSchedule.formData := AdminSchedule.emptyForm |}.

(** A form with a new title and end time. *)
Definition new_form : AdminSchedule.Form.t :=
  {| AdminSchedule.Form.title := "Finale";
     AdminSchedule.Form.description := "";
     AdminSchedule.Form.start_time := "00:00";
     AdminSchedule.Form.end_time := "13:00";
     AdminSchedule.Form.phase_id := ""; AdminSchedule.Form.notes := "" |}.

(** The page while the entry [item] is edited with the form [f]. *)
Definition editing (item : ScheduleItem) (f : AdminSchedule.Form.t)
    : AdminSchedule.State :=
  {| AdminSchedule.schedule := abc_live; AdminSchedule.phases := [];
     AdminSchedule.isDialogOpen := true;
     AdminSchedule.editingItem := Some item;
     AdminSchedule.formData := f |}.

(** The no-break space U+00A0, by the bytes of its encoding. *)
Definition nbsp : string := String "194" (String "160" EmptyString).

(** Three entries created by the schedule page, at the clock readings 1,
    2 and 3, which give them the ids [1], [2] and [3]. *)
Definition created : list ScheduleItem :=
  run [Create 1 empty_body; Create 2 empty_body; Create 3 empty_body] [].

End Sample.

(** ** Properties *)

Import Backend Client.

(** Proves that the requests of a concrete list are control steps. *)
Ltac solve_steps :=
  repeat (apply Forall_cons_2; [first [by left | by right]|]);
  apply Forall_nil_2.

(** Decides a closed proposition by evaluation. *)
Ltac decide_by_computation :=
  match goal with
  | |- ?P => apply (bool_decide_unpack P); vm_compute; exact I
  end.

(** *** Arrays *)

Section arrays.
Context {A : Type}.
Implicit Types (p : A → bool) (l : list A).

Lemma findIndex_bounds p l :
  -1 ≤ Js.findIndex p l < Z.of_nat (length l).
Proof.
  unfold Js.findIndex.
  destruct (list_find _ l) as [[i x]|] eqn:E; [|lia].
  apply list_find_Some in E as (Hi%lookup_lt_Some & _). lia.
Qed.

Lemma findIndex_Some p l i :
  (i < length l)%nat →
  (∀ x, l !! i = Some x → p x = true) →
  (∀ j y, (j < i)%nat → l !! j = Some y → p y = false) →
  Js.findIndex p l = Z.of_nat i.
Proof.
  intros Hi Hp Hlt. unfold Js.findIndex.
  destruct (lookup_lt_is_Some_2 l i Hi) as [x Hx].
  assert (list_find (λ x, Is_true (p x)) l = Some (i, x)) as ->; [|done].
  apply list_find_Some. split_and!; [done|by rewrite (Hp x Hx)|].
  intros j y Hy Hj. rewrite (Hlt j y Hj Hy). by intros [].
Qed.

Lemma findIndex_None p l :
  Js.findIndex p l = -1 ↔ Forall (λ x, p x = false) l.
Proof.
  unfold Js.findIndex.
  destruct (list_find _ l) as [[i x]|] eqn:E.
  - split; [lia|]. intros Hall.
    apply list_find_Some in E as (Hx & Hp & _).
    apply (Forall_lookup_1 _ _ _ _ Hall) in Hx. simpl in Hx.
    rewrite Hx in Hp. destruct Hp.
  - split; [|done]. intros _. apply list_find_None in E.
    eapply Forall_impl; [done|]. intros x; simpl.
    destruct (p x); simpl; [intros H; by destruct H|done].
Qed.

Lemma find_Some_inv p l x : Js.find p l = Some x → x ∈ l ∧ p x = true.
Proof.
  unfold Js.find. destruct (list_find _ l) as [[i y]|] eqn:E; [|done].
  intros [= ->]. apply list_find_Some in E as (Hy & Hp & _).
  split; [by eapply list_elem_of_lookup_2|by destruct (p x)].
Qed.

Lemma some_elem_of p l : Js.some p l = true ↔ ∃ x, x ∈ l ∧ p x = true.
Proof.
  unfold Js.some. rewrite existsb_exists.
  by setoid_rewrite list_elem_of_In.
Qed.

End arrays.

Lemma includes_elem_of (l : list string) (x : string) :
  Js.includes l x = true ↔ x ∈ l.
Proof.
  unfold Js.includes. rewrite existsb_exists. split.
  - intros (y & Hy%list_elem_of_In & ->%String.eqb_eq). done.
  - intros Hx. exists x. by rewrite <-list_elem_of_In, String.eqb_refl.
Qed.

Lemma has_id_true sid x : has_id sid x = true ↔ id x = sid.
Proof. apply String.eqb_eq. Qed.

Lemma has_id_false sid x : has_id sid x = false ↔ id x ≠ sid.
Proof. apply String.eqb_neq. Qed.

(** *** The current entry *)

(** [schedule.map((s, i) => ({ ...s, is_current: i === k }))] *)
Local Abbreviation mark k schedule :=
  (imap (λ (i : nat) s, with_is_current s (Z.of_nat i =? k)) schedule).

Lemma lookup_mark (k : Z) (schedule : list ScheduleItem) (i : nat) :
  mark k schedule !! i
  = (λ s, with_is_current s (Z.of_nat i =? k)) <$> schedule !! i.
Proof. apply list_lookup_imap. Qed.

Lemma getCurrentIndex_mark (k : Z) (schedule : list ScheduleItem) :
  0 ≤ k < Z.of_nat (length schedule) →
  getCurrentIndex (mark k schedule) = k.
Proof.
  intros Hk. unfold getCurrentIndex.
  rewrite (findIndex_Some _ _ (Z.to_nat k)); [lia| | |].
  - rewrite length_imap. lia.
  - intros x. rewrite lookup_mark. destruct (schedule !! _); [|done].
    intros [= <-]. simpl. apply Z.eqb_eq. lia.
  - intros j y Hj. rewrite lookup_mark. destruct (schedule !! _); [|done].
    intros [= <-]. simpl. apply Z.eqb_neq. lia.
Qed.

Lemma getCurrentIndex_bounds (schedule : list ScheduleItem) :
  -1 ≤ getCurrentIndex schedule < Z.of_nat (length schedule).
Proof. apply findIndex_bounds. Qed.

Lemma length_apply_step (m : Mutation) (schedule : list ScheduleItem) :
  Spec.is_step m → length (apply m schedule) = length schedule.
Proof. intros [-> | ->]; simpl; apply length_imap. Qed.

Lemma getCurrentIndex_apply_step (m : Mutation) (schedule : list ScheduleItem) :
  (0 < length schedule)%nat →
  Spec.is_step m →
  getCurrentIndex (apply m schedule)
  = Spec.index_step (Z.of_nat (length schedule)) (getCurrentIndex schedule) m.
Proof.
  intros Hlen Hm. pose proof (getCurrentIndex_bounds schedule) as Hidx.
  destruct Hm as [-> | ->]; simpl.
  - rewrite getCurrentIndex_mark; [done|].
    destruct (Z.ltb_spec (getCurrentIndex schedule) 0); lia.
  - destruct (Z.leb_spec (getCurrentIndex schedule) 0) as [Hle|Hgt].
    + rewrite getCurrentIndex_mark by lia.
      destruct (Z.ltb_spec (getCurrentIndex schedule) 0); lia.
    + rewrite getCurrentIndex_mark by lia.
      destruct (Z.ltb_spec (getCurrentIndex schedule) 0); lia.
Qed.

Lemma index_step_bounds (n i : Z) (m : Mutation) :
  0 < n → -1 ≤ i < n → Spec.is_step m → 0 ≤ Spec.index_step n i m ≤ n - 1.
Proof.
  intros Hn Hi [-> | ->]; unfold Spec.index_step;
    destruct (Z.ltb_spec i 0); lia.
Qed.

Lemma run_snoc (ms : list Mutation) (m : Mutation) (schedule : list ScheduleItem) :
  run (ms ++ [m]) schedule = apply m (run ms schedule).
Proof. unfold run. by rewrite foldl_app. Qed.

Lemma length_run_steps (ms : list Mutation) (schedule : list ScheduleItem) :
  Forall Spec.is_step ms → length (run ms schedule) = length schedule.
Proof.
  induction ms as [|m ms IH] using rev_ind; [done|].
  intros [Hms Hm%Forall_inv]%Forall_app.
  rewrite run_snoc, length_apply_step by done. auto.
Qed.

Lemma getCurrentIndex_run_steps (ms : list Mutation) (schedule : list ScheduleItem) :
  (0 < length schedule)%nat →
  Forall Spec.is_step ms →
  getCurrentIndex (run ms schedule)
  = foldl (Spec.index_step (Z.of_nat (length schedule)))
      (getCurrentIndex schedule) ms.
Proof.
  intros Hlen. induction ms as [|m ms IH] using rev_ind; [done|].
  intros [Hms Hm%Forall_inv]%Forall_app.
  rewrite run_snoc, foldl_app. simpl. rewrite <-IH by done.
  rewrite getCurrentIndex_apply_step; [|by rewrite length_run_steps|done].
  by rewrite length_run_steps.
Qed.

(** C2. On a non-empty schedule of [N] entries, [next] puts the current
    index at [0] when no entry is current and at [min (N - 1) (idx + 1)]
    otherwise, [previous] at [0] resp. [max 0 (idx - 1)]; at the last entry
    [next] stays there and at the first [previous] stays there, and both
    routes reply success, never an error; and after
    any sequence of [next] / [previous] requests the list has its length,
    the index is the one the clamped counter of the specification computes,
    and after at least one request it lies in [[0, N - 1]]. *)
Theorem next_previous_keep_index_in_range (schedule : list ScheduleItem) :
  (0 < length schedule)%nat →
  let N := Z.of_nat (length schedule) in
  let idx := getCurrentIndex schedule in
  getCurrentIndex (apply Next schedule)
    = (if idx <? 0 then 0 else Z.min (N - 1) (idx + 1)) ∧
  getCurrentIndex (apply Previous schedule)
    = (if idx <? 0 then 0 else Z.max 0 (idx - 1)) ∧
  (idx = N - 1 → getCurrentIndex (apply Next schedule) = N - 1) ∧
  (idx = 0 → getCurrentIndex (apply Previous schedule) = 0) ∧
  (control_next schedule).2 = Json true ∧
  (control_previous schedule).2 = Json true ∧
  ∀ ms, Forall Spec.is_step ms →
    length (run ms schedule) = length schedule ∧
    getCurrentIndex (run ms schedule) = foldl (Spec.index_step N) idx ms ∧
    (ms ≠ [] → 0 ≤ getCurrentIndex (run ms schedule) ≤ N - 1).
Proof.
  intros Hlen N idx.
  pose proof (getCurrentIndex_apply_step Next schedule Hlen (or_introl eq_refl))
    as Hnext.
  pose proof (getCurrentIndex_apply_step Previous schedule Hlen
                (or_intror eq_refl)) as Hprev.
  unfold Spec.index_step in Hnext, Hprev. fold N idx in Hnext, Hprev.
  split_and!; [done|done| | |done|done|].
  - intros Hlast. rewrite Hnext. destruct (Z.ltb_spec idx 0); lia.
  - intros Hfirst. rewrite Hprev. destruct (Z.ltb_spec idx 0); lia.
  - intros ms Hms. split_and!.
    + by apply length_run_steps.
    + by apply getCurrentIndex_run_steps.
    + destruct ms as [|m ms _] using rev_ind; [done|]. intros _.
      apply Forall_app in Hms as [Hms Hm%Forall_inv].
      rewrite run_snoc, getCurrentIndex_apply_step;
        [|by rewrite length_run_steps|done].
      pose proof (getCurrentIndex_bounds (run ms schedule)) as Hb.
      rewrite length_run_steps in * by done.
      apply index_step_bounds; [lia|done|done].
Qed.

(** The example of the specification: on [A, B, C] with none current,
    [next] makes [A] current, [next] makes [B] current, [previous] makes
    [A] current and [previous] leaves [A] current. *)
Lemma next_previous_keep_index_in_range_witness :
  getCurrentIndex Sample.abc = -1 ∧
  getCurrentIndex (run [Next] Sample.abc) = 0 ∧
  getCurrentIndex (run [Next; Next] Sample.abc) = 1 ∧
  getCurrentIndex (run [Next; Next; Previous] Sample.abc) = 0 ∧
  getCurrentIndex (run [Next; Next; Previous; Previous] Sample.abc) = 0 ∧
  0 ≤ getCurrentIndex (run [Next; Next; Next; Next] Sample.abc) ≤ 2.
Proof.
  assert (0 < length Sample.abc)%nat as Hlen by (simpl; lia).
  pose proof (next_previous_keep_index_in_range Sample.abc Hlen)
    as (_ & _ & _ & _ & _ & _ & Hrun).
  assert (∀ ms, Forall Spec.is_step ms →
            getCurrentIndex (run ms Sample.abc)
            = foldl (Spec.index_step 3) (-1) ms) as Hfold
    by (intros ms Hms; apply (Hrun ms Hms)).
  assert (∀ ms, Forall Spec.is_step ms → ms ≠ [] →
            0 ≤ getCurrentIndex (run ms Sample.abc) ≤ 2) as Hrange
    by (intros ms Hms; apply (Hrun ms Hms)).
  split; [reflexivity|].
  do 4 (split; [rewrite Hfold; [reflexivity|solve_steps]|]).
  apply Hrange; [solve_steps|discriminate].
Defined.

(** *** How many entries are current *)

Lemma count_current_cons (x : ScheduleItem) (schedule : list ScheduleItem) :
  count_current (x :: schedule)
  = ((if is_current x then 1 else 0) + count_current schedule)%nat.
Proof.
  unfold count_current. rewrite filter_cons.
  destruct (is_current x); by case_decide.
Qed.

Lemma count_current_app (l k : list ScheduleItem) :
  count_current (l ++ k) = (count_current l + count_current k)%nat.
Proof. unfold count_current. by rewrite filter_app, length_app. Qed.

Lemma count_current_zero (schedule : list ScheduleItem) :
  count_current schedule = 0%nat ↔ Forall (λ x, is_current x = false) schedule.
Proof.
  induction schedule as [|x l IH]; [by split; [constructor|]|].
  rewrite count_current_cons, Forall_cons, <-IH.
  destruct (is_current x); split; try lia; intros []; try done; lia.
Qed.

Lemma count_current_cleared (schedule : list ScheduleItem) :
  count_current ((λ x, with_is_current x false) <$> schedule) = 0%nat.
Proof. apply count_current_zero, Forall_fmap, Forall_true. done. Qed.

(** At most one entry is current when no two positions hold a current
    entry. *)
Lemma count_current_le_1 (schedule : list ScheduleItem) :
  (∀ i j x y, schedule !! i = Some x → schedule !! j = Some y →
     is_current x = true → is_current y = true → i = j) →
  (count_current schedule ≤ 1)%nat.
Proof.
  induction schedule as [|x l IH]; intros Huniq; [simpl; unfold count_current; simpl; lia|].
  rewrite count_current_cons. destruct (is_current x) eqn:Hx.
  - assert (count_current l = 0%nat) as ->; [|lia].
    apply count_current_zero, Forall_lookup. intros j y Hy.
    destruct (is_current y) eqn:Hcy; [|done].
    by specialize (Huniq 0%nat (S j) x y eq_refl Hy Hx Hcy).
  - apply IH. intros i j a b Ha Hb Hca Hcb.
    by specialize (Huniq (S i) (S j) a b Ha Hb Hca Hcb) as [= ->].
Qed.

Lemma count_current_mark (k : Z) (schedule : list ScheduleItem) :
  (count_current (mark k schedule) ≤ 1)%nat.
Proof.
  apply count_current_le_1. intros i j x y.
  rewrite !lookup_mark.
  destruct (schedule !! i), (schedule !! j); try done.
  intros [= <-] [= <-]; simpl. intros Hi%Z.eqb_eq Hj%Z.eqb_eq. lia.
Qed.

Lemma count_current_set_current (sid : string) (schedule : list ScheduleItem) :
  NoDup (id <$> schedule) →
  (count_current ((λ s, with_is_current s (has_id sid s)) <$> schedule) ≤ 1)%nat.
Proof.
  intros Hnd. apply count_current_le_1. intros i j x y.
  rewrite !list_lookup_fmap.
  destruct (schedule !! i) as [a|] eqn:Ha, (schedule !! j) as [b|] eqn:Hb;
    try done.
  intros [= <-] [= <-]; simpl. intros Hi%has_id_true Hj%has_id_true.
  apply (NoDup_lookup _ i j sid Hnd); rewrite list_lookup_fmap.
  - by rewrite Ha, <-Hi.
  - by rewrite Hb, <-Hj.
Qed.

Lemma count_current_insert (i : nat) (y : ScheduleItem)
    (schedule : list ScheduleItem) :
  is_current y = false →
  (count_current (<[i := y]> schedule) ≤ count_current schedule)%nat.
Proof.
  intros Hy. revert i. induction schedule as [|x l IH]; intros [|i]; simpl;
    rewrite ?count_current_cons, ?Hy; try lia.
  specialize (IH i). lia.
Qed.

Lemma count_current_filter (P : ScheduleItem → Prop) `{∀ x, Decision (P x)}
    (schedule : list ScheduleItem) :
  (count_current (filter P schedule) ≤ count_current schedule)%nat.
Proof.
  induction schedule as [|x l IH]; [done|].
  rewrite filter_cons. case_decide; rewrite ?count_current_cons; lia.
Qed.

(** *** The schedule as a state machine *)

Lemma reachable_run (ms : list Mutation) (schedule : list ScheduleItem) :
  reachable schedule → reachable (run ms schedule).
Proof.
  induction ms as [|m ms IH] using rev_ind; [done|].
  intros Hs. rewrite run_snoc. by apply reachable_step, IH.
Qed.

(** On a schedule whose ids are pairwise distinct, every request leaves at
    most one entry current. [next], [previous], [clear-current], the
    creation and the deletion of entries do so on any schedule with at
    most one current entry; [set-current] and the edit that makes an entry
    current (the reorder request is served as such an edit) select by id
    and rely on the ids being distinct. *)
Lemma apply_keeps_at_most_one_current (m : Mutation)
    (schedule : list ScheduleItem) :
  NoDup (id <$> schedule) →
  (count_current schedule ≤ 1)%nat →
  (count_current (apply m schedule) ≤ 1)%nat.
Proof.
  intros Hnd Hle.
  assert (∀ sid body,
            (count_current (schedule_put sid body schedule).1 ≤ 1)%nat)
    as Hput.
  { intros sid body. unfold schedule_put.
    destruct (list_find _ schedule) as [[i cur]|]; [|done].
    destruct (is_current (merge cur body)) eqn:Hcur; cbn [fst].
    + by apply count_current_set_current.
    + etrans; [by apply count_current_insert|done]. }
  destruct m as [| |sid| |order|now body|sid body|sid]; cbn [apply].
  - apply count_current_mark.
  - apply count_current_mark.
  - unfold control_set_current. destruct (negb _); simpl; [done|].
    by apply count_current_set_current.
  - simpl. rewrite count_current_cleared. lia.
  - apply Hput.
  - unfold schedule_post. cbn [fst is_current].
    rewrite count_current_app, count_current_cons. cbn [is_current].
    destruct (default false (body_is_current body)); simpl.
    + rewrite count_current_cleared. unfold count_current; simpl; lia.
    + unfold count_current at 2; simpl; lia.
  - apply Hput.
  - unfold schedule_delete. cbn [fst].
    etrans; [apply count_current_filter|done].
Qed.

(** C1. The backend does not keep the invariant "at most one entry is
    current" in every reachable state: entries are selected by id in
    [set-current], and ids are not kept distinct. After two creations, an
    edit that gives the second entry the id of the first, and a
    [set-current] of that id, two entries are current; likewise after two
    creations within one millisecond, which get the same id, and a
    [set-current] of it. Both states are reachable. *)
Theorem duplicated_id_leaves_two_current :
  reachable (run Sample.renamed_then_set []) ∧
  id <$> run Sample.renamed_then_set [] = ["1"; "1"] ∧
  count_current (run Sample.renamed_then_set []) = 2%nat ∧
  reachable (run Sample.same_tick_then_set []) ∧
  id <$> run Sample.same_tick_then_set [] = ["1000"; "1000"] ∧
  count_current (run Sample.same_tick_then_set []) = 2%nat.
Proof.
  split_and!; try (apply reachable_run, reachable_init);
    by vm_compute.
Qed.

(** *** Set-current *)

Lemma some_has_id (sid : string) (schedule : list ScheduleItem) :
  Js.some (has_id sid) schedule = true ↔ sid ∈ id <$> schedule.
Proof.
  rewrite some_elem_of, list_elem_of_fmap. split.
  - intros (x & Hx & Hid%has_id_true). eauto.
  - intros (x & -> & Hx). exists x. split; [done|by apply has_id_true].
Qed.

Lemma control_set_current_absent (sid : string) (schedule : list ScheduleItem) :
  sid ∉ id <$> schedule →
  control_set_current sid schedule = (schedule, NotFound).
Proof.
  intros Habs. unfold control_set_current.
  destruct (Js.some (has_id sid) schedule) eqn:Hsome; [|done].
  by apply some_has_id in Hsome.
Qed.

Lemma control_set_current_present (sid : string) (schedule : list ScheduleItem) :
  sid ∈ id <$> schedule →
  control_set_current sid schedule
  = ((λ s, with_is_current s (has_id sid s)) <$> schedule, Json true).
Proof.
  intros Hin%some_has_id. unfold control_set_current. by rewrite Hin.
Qed.

(** C8. [set-current] with an id that no entry has replies 404 "Not found"
    and leaves the schedule as it was, and [handleSetCurrent] then changes
    neither the page nor the theme state and shows the error toast. With an
    id that an entry has, it replies success; the schedule keeps its length
    and order, every entry keeps all its fields but [is_current], and an
    entry is current afterwards exactly when its id is the requested one,
    whatever flags were set before: at least one entry is current, exactly
    one when the ids are pairwise distinct. The outcome does not depend on
    the position of the entry: serving the request on a permutation of the
    schedule gives the same permutation of the result. *)
Theorem set_current_selects_by_id (sid : string)
    (schedule : list ScheduleItem) :
  (sid ∉ id <$> schedule →
     control_set_current sid schedule = (schedule, NotFound) ∧
     ∀ scheduleRes phasesRes settingsRes st theme,
       AdminOverview.handleSetCurrent
         (fulfilled (control_set_current sid schedule).2)
         scheduleRes phasesRes settingsRes st theme
       = (st, theme, toast_error "Fehler beim Setzen")) ∧
  (sid ∈ id <$> schedule →
     let schedule' := (control_set_current sid schedule).1 in
     (control_set_current sid schedule).2 = Json true ∧
     length schedule' = length schedule ∧
     (∀ i x', schedule' !! i = Some x' →
        ∃ x, schedule !! i = Some x ∧
             x' = with_is_current x (is_current x') ∧
             (is_current x' = true ↔ id x' = sid)) ∧
     (1 ≤ count_current schedule')%nat ∧
     (NoDup (id <$> schedule) → count_current schedule' = 1%nat) ∧
     ∀ schedule2, schedule2 ≡ₚ schedule →
       (control_set_current sid schedule2).1 ≡ₚ schedule').
Proof.
  split.
  - intros Habs. rewrite control_set_current_absent by done. done.
  - intros Hin schedule'. subst schedule'.
    rewrite control_set_current_present by done. cbn [fst snd].
    assert (1 ≤ count_current
                  ((λ s, with_is_current s (has_id sid s)) <$> schedule))%nat
      as Hone.
    { destruct (count_current _) eqn:Hc; [|lia].
      apply count_current_zero in Hc.
      apply list_elem_of_fmap in Hin as (x & -> & Hx).
      apply (Forall_fmap _ _ schedule) in Hc.
      apply (proj1 (Forall_forall _ _) Hc) in Hx. simpl in Hx.
      by rewrite (proj2 (has_id_true _ _) eq_refl) in Hx. }
    split_and!; [done|by rewrite length_fmap| |done| |].
    + intros i x'. rewrite list_lookup_fmap.
      destruct (schedule !! i) as [x|]; [|done]. intros [= <-].
      exists x. split_and!; [done|done|]. simpl. apply has_id_true.
    + intros Hnd. pose proof (count_current_set_current sid _ Hnd). lia.
    + intros schedule2 Hperm.
      rewrite control_set_current_present by by rewrite Hperm.
      cbn [fst]. by rewrite Hperm.
Qed.

Lemma set_current_selects_by_id_witness :
  control_set_current "Z" Sample.abc = (Sample.abc, NotFound) ∧
  (control_set_current "B" Sample.abc).2 = Json true ∧
  count_current (control_set_current "B" Sample.abc).1 = 1%nat.
Proof.
  destruct (set_current_selects_by_id "Z" Sample.abc) as [Habsent _].
  destruct (set_current_selects_by_id "B" Sample.abc) as [_ Hpresent].
  assert ("Z" ∉ id <$> Sample.abc) as HZ
    by decide_by_computation.
  assert ("B" ∈ id <$> Sample.abc) as HB
    by decide_by_computation.
  assert (NoDup (id <$> Sample.abc)) as Hnd
    by decide_by_computation.
  destruct (Hpresent HB) as (Hreply & _ & _ & _ & Hone & _).
  split_and!; [apply (Habsent HZ)|exact Hreply|exact (Hone Hnd)].
Defined.

(** *** Messages *)

Lemma truthy_true (s : string) : Js.truthy s = true ↔ s ≠ "".
Proof. by destruct s. Qed.

Lemma or_else_empty (s : string) : Js.or_else s "" = s.
Proof. by destruct s. Qed.

Lemma includes_snoc (l : list string) (x : string) :
  Js.includes (l ++ [x]) x = true.
Proof. apply includes_elem_of, elem_of_app. right. apply list_elem_of_here. Qed.

Lemma includes_false (l : list string) (x : string) :
  Js.includes l x = false ↔ x ∉ l.
Proof.
  rewrite <-includes_elem_of. by destruct (Js.includes l x).
Qed.

(** No acknowledgement is the empty string: [ack] refuses an id that is
    empty after trimming. *)
Lemma message_reachable_acked_by (m : Message) :
  Spec.message_reachable m → "" ∉ acked_by m.
Proof.
  induction 1 as [|now at_ text m _ IH|client_id m _ IH|m _ IH].
  - apply not_elem_of_nil.
  - unfold message_post. destruct (_ || _); simpl; [done|apply not_elem_of_nil].
  - unfold message_ack.
    destruct (Js.truthy (Js.trim _)) eqn:Hcid; simpl; [|done].
    destruct (Js.includes _ _); simpl; [done|].
    apply truthy_true in Hcid.
    rewrite elem_of_app, list_elem_of_singleton. intros [?|?]; done.
  - done.
Qed.

(** What a client observes, in any state of the message: a client without
    an id observes the global flag. *)
Lemma observed_active_spec (client_id : string) (m : Message) :
  observed_active client_id m = true ↔
  active m = true ∧ ¬ (client_id ≠ "" ∧ client_id ∈ acked_by m).
Proof.
  unfold observed_active, message_get. rewrite or_else_empty.
  destruct (active m) eqn:Hact; simpl; [|rewrite Hact; intuition congruence].
  destruct (Js.truthy client_id) eqn:Hid; simpl.
  - apply truthy_true in Hid.
    destruct (Js.includes (acked_by m) client_id) eqn:Hinc; simpl.
    + apply includes_elem_of in Hinc. intuition congruence.
    + apply includes_false in Hinc. rewrite Hact. intuition congruence.
  - rewrite Hact. destruct client_id; [|done]. intuition congruence.
Qed.

(** C4. In every state of the message that the server can reach, a client
    observes the message as active exactly when the message is active and
    the client's id is not in [acked_by]. Posting a text that is not blank
    replaces the message by one with the trimmed text, [active = true] and
    an empty [acked_by], which the reply carries; every client, also one
    whose id was in the [acked_by] of the message before, then observes the
    message as active. *)
Theorem post_resets_acknowledgements (m : Message) :
  Spec.message_reachable m →
  (∀ client_id,
     observed_active client_id m = true ↔
     active m = true ∧ client_id ∉ acked_by m) ∧
  ∀ now at_ text,
    Js.trim text ≠ "" →
    let m' := (message_post now at_ (Some text) m).1 in
    (message_post now at_ (Some text) m).2 = Json m' ∧
    m' = {| message_id := Some now; text := Js.trim text; active := true;
            created := Some at_; acked_by := [] |} ∧
    ∀ client_id, observed_active client_id m' = true.
Proof.
  intros Hreach. split.
  - intros client_id. rewrite observed_active_spec.
    pose proof (message_reachable_acked_by m Hreach) as Hempty.
    split; intros [Hact Hack]; (split; [done|]).
    + intros Hin. apply Hack. split; [|done]. by intros ->.
    + by intros [_ Hin].
  - intros now at_ text Htext m'. subst m'.
    assert (text ≠ "") as Hne by (by intros ->).
    unfold message_post. cbn [from_option Datatypes.id].
    rewrite (proj2 (truthy_true text) Hne).
    rewrite (proj2 (truthy_true (Js.trim text)) Htext). cbn [negb orb fst snd].
    split_and!; [done|done|].
    intros client_id. apply observed_active_spec. simpl.
    split; [done|]. intros [_ Hin]. by apply not_elem_of_nil in Hin.
Qed.

(** The example of the specification: the message "Pause" is posted and
    client [X] acknowledges it; [X] then observes it as inactive and [Y] as
    active. After the next post [X] observes the message as active again. *)
Lemma post_resets_acknowledgements_witness :
  let m := (message_ack (Some "X")
              (message_post 1 1 (Some "Pause") defaultMessage).1).1 in
  observed_active "X" m = false ∧
  observed_active "Y" m = true ∧
  acked_by m = ["X"] ∧
  observed_active "X" (message_post 2 2 (Some " Weiter ") m).1 = true.
Proof.
  intros m.
  assert (Spec.message_reachable m) as Hreach
    by apply Spec.message_acked, Spec.message_posted, Spec.message_init.
  destruct (post_resets_acknowledgements m Hreach) as [_ Hpost].
  assert (Js.trim " Weiter " ≠ "") as Htext by decide_by_computation.
  destruct (Hpost 2%N 2%N " Weiter " Htext) as (_ & _ & Hobs).
  split_and!; [reflexivity|reflexivity|reflexivity|apply Hobs].
Defined.

Lemma message_ack_Some (client_id : string) (m : Message) :
  Js.trim client_id ≠ "" →
  message_ack (Some client_id) m
  = (if Js.includes (acked_by m) (Js.trim client_id) then m
     else {| message_id := message_id m; text := text m; active := active m;
             created := created m;
             acked_by := acked_by m ++ [Js.trim client_id] |},
     Json true).
Proof.
  intros Hcid. unfold message_ack. cbn [from_option Datatypes.id].
  rewrite or_else_empty, (proj2 (truthy_true _) Hcid). cbn [negb].
  by destruct (Js.includes _ _).
Qed.

Lemma message_ack_blank (client_id : option string) (m : Message) :
  Js.trim (default "" client_id) = "" →
  message_ack client_id m = (m, Status 400 "client_id fehlt").
Proof.
  intros Hcid. unfold message_ack. by rewrite or_else_empty, Hcid.
Qed.

Lemma message_ack_fields (client_id : option string) (m : Message) :
  active (message_ack client_id m).1 = active m ∧
  text (message_ack client_id m).1 = text m ∧
  message_id (message_ack client_id m).1 = message_id m ∧
  created (message_ack client_id m).1 = created m.
Proof.
  unfold message_ack. destruct (Js.truthy _); simpl; [|done].
  by destruct (Js.includes _ _).
Qed.

Lemma message_ack_acked_by (client_id : string) (m : Message) (c : string) :
  Js.trim client_id ≠ "" →
  c ∈ acked_by (message_ack (Some client_id) m).1 ↔
  c ∈ acked_by m ∨ c = Js.trim client_id.
Proof.
  intros Hcid. rewrite message_ack_Some by done. cbn [fst].
  destruct (Js.includes _ _) eqn:Hinc; simpl.
  - apply includes_elem_of in Hinc. split; [by left|]. by intros [?| ->].
  - rewrite elem_of_app, list_elem_of_singleton. done.
Qed.

(** C5. A second [ack] by the same client leaves the message, and the
    reply, as the first one did; an [ack] never changes [active], nor does
    any sequence of them. An [ack] with a client id that is not blank is
    answered with success and adds the trimmed id to [acked_by]: the id
    is in [acked_by] afterwards, at the end when it was not there before
    and nowhere else, the ids acknowledged before are kept in their
    order, and no id is held twice when none was. An [ack] with a blank
    id is refused and changes nothing. *)
Theorem ack_is_idempotent (m : Message) (client_id : option string) :
  message_ack client_id (message_ack client_id m).1
    = message_ack client_id m ∧
  active (message_ack client_id m).1 = active m ∧
  (∀ client_ids,
     active (foldl (λ m c, (message_ack c m).1) m client_ids) = active m) ∧
  (Js.trim (default "" client_id) ≠ "" →
     let cid := Js.trim (default "" client_id) in
     let m' := (message_ack client_id m).1 in
     (message_ack client_id m).2 = Json true ∧
     cid ∈ acked_by m' ∧
     (∀ c, c ∈ acked_by m' ↔ c ∈ acked_by m ∨ c = cid) ∧
     (cid ∈ acked_by m → acked_by m' = acked_by m) ∧
     (cid ∉ acked_by m → acked_by m' = acked_by m ++ [cid]) ∧
     (NoDup (acked_by m) → NoDup (acked_by m')) ∧
     acked_by (message_ack client_id m').1 = acked_by m') ∧
  (Js.trim (default "" client_id) = "" →
     message_ack client_id m = (m, Status 400 "client_id fehlt")).
Proof.
  assert (∀ m c, active (message_ack c m).1 = active m) as Hactive.
  { intros m0 c. unfold message_ack.
    destruct (Js.truthy _); simpl; [|done]. by destruct (Js.includes _ _). }
  assert (message_ack client_id (message_ack client_id m).1
          = message_ack client_id m) as Htwice.
  { unfold message_ack.
    set (cid := Js.trim (Js.or_else (default EmptyString client_id) "")).
    destruct (Js.truthy cid) eqn:Hcid; cbn [negb fst]; [|done].
    destruct (Js.includes (acked_by m) cid) eqn:Hinc; cbn [negb acked_by].
    + by rewrite Hinc.
    + by rewrite includes_snoc. }
  split_and!; [done|done| | |].
  - intros client_ids. clear Htwice. revert m.
    induction client_ids as [|c cs IH]; intros m0; simpl; [done|].
    by rewrite IH, Hactive.
  - intros Hcid cid m'. subst cid m'.
    destruct client_id as [client_id|]; [|done].
    cbn [from_option Datatypes.id] in *.
    pose proof (λ c, message_ack_acked_by client_id m c Hcid) as Hin.
    split_and!.
    + by rewrite message_ack_Some.
    + apply Hin. by right.
    + done.
    + intros Hold%includes_elem_of. rewrite message_ack_Some by done.
      cbn [fst]. by rewrite Hold.
    + intros Hnew%includes_false. rewrite message_ack_Some by done.
      cbn [fst]. by rewrite Hnew.
    + intros Hnd. rewrite message_ack_Some by done. cbn [fst].
      destruct (Js.includes _ _) eqn:Hinc; [done|]. simpl.
      apply includes_false in Hinc. apply NoDup_app. split_and!; [done| |].
      * intros x Hx ->%list_elem_of_singleton. done.
      * apply NoDup_singleton.
    + by rewrite Htwice.
  - apply message_ack_blank.
Qed.

(** The message "Pause" is posted and client [X] acknowledges it, once
    and a second time with white space around its id: [acked_by] is [X]
    after the first and after the second acknowledgement, and the message
    stays active. *)
Lemma ack_is_idempotent_witness :
  let m := (message_post 1 1 (Some "Pause") defaultMessage).1 in
  let m' := (message_ack (Some "X") m).1 in
  acked_by m = [] ∧
  acked_by m' = ["X"] ∧
  message_ack (Some "X") m' = (m', Json true) ∧
  acked_by (message_ack (Some " X ") m').1 = ["X"] ∧
  active m' = true.
Proof.
  intros m m'.
  assert (Js.trim (default "" (Some "X")) ≠ "") as Hcid
    by decide_by_computation.
  destruct (ack_is_idempotent m (Some "X"))
    as (Htwice & Hactive & _ & Hadd & _).
  destruct (Hadd Hcid) as (Hreply & _ & _ & _ & Hnew & _).
  split_and!; [reflexivity| | |reflexivity|].
  - apply (Hnew (not_elem_of_nil _)).
  - unfold m'. rewrite Htwice. apply injective_projections; [done|].
    exact Hreply.
  - unfold m'. rewrite Hactive. reflexivity.
Defined.

(** *** Reorder and drag-and-drop *)

Lemma mapM_fmap_Some_all {A B} (f : A → B) (l : list A) :
  mapM (fmap f) (Some <$> l) = Some (f <$> l).
Proof.
  induction l as [|x l IH]; [done|].
  rewrite !fmap_cons. cbn [mapM]. rewrite IH. done.
Qed.

Lemma mapM_fmap_Some_inv_all {A B} (f : A → B) (l : list (option A)) k :
  mapM (fmap f) l = Some k → ∃ l', l = Some <$> l' ∧ k = f <$> l'.
Proof.
  revert k. induction l as [|[x|] l IH]; intros k.
  - intros [= <-]. by exists [].
  - cbn [mapM fmap option_fmap option_map mbind option_bind].
    destruct (mapM (fmap f) l) as [k'|]; [|done].
    intros [= <-]. destruct (IH k' eq_refl) as (l' & -> & ->).
    by exists (x :: l').
  - done.
Qed.

(** [arrayMove] permutes an array from which it can take an element. *)
Lemma arrayMove_Permutation {A} (array : list A) (from to : Z) :
  -1 ≤ from < Z.of_nat (length array) →
  array ≠ [] →
  ∃ l, AdminSchedule.arrayMove array from to = Some <$> l ∧ l ≡ₚ array.
Proof.
  intros Hfrom Hne. unfold AdminSchedule.arrayMove, Js.splice_remove.
  rewrite length_fmap.
  set (k := Js.spliceStart (length array) from).
  assert (k < length array)%nat as Hk.
  { assert (0 < length array)%nat by (destruct array; [done|simpl; lia]).
    subst k. unfold Js.spliceStart. destruct (Z.ltb_spec from 0); lia. }
  destruct (lookup_lt_is_Some_2 array k Hk) as [x Hx].
  rewrite <-fmap_drop, <-fmap_take, <-fmap_drop, <-fmap_app.
  rewrite (drop_S array x k Hx), fmap_cons. cbn [take head mjoin option_join
    mbind option_bind Datatypes.id].
  unfold Js.splice_insert. rewrite length_fmap.
  set (r := take k array ++ drop (S k) array).
  set (j := Js.spliceStart (length r) _).
  exists (take j r ++ x :: drop j r). split.
  - by rewrite fmap_app, fmap_cons, fmap_take, fmap_drop.
  - rewrite <-Permutation_middle, take_drop. subst r.
    by rewrite Permutation_middle, take_drop_middle.
Qed.

(** What the express backend does with the request of [handleDragEnd]: the
    route [/api/schedule/:id] serves it with [sid = "reorder"], which is
    the id of no entry the backend created, and replies 404. *)
Lemma schedule_put_reorder (body : ItemBody) (schedule : list ScheduleItem) :
  "reorder" ∉ id <$> schedule →
  schedule_put "reorder" body schedule = (schedule, NotFound).
Proof.
  intros Hnone. unfold schedule_put.
  destruct (list_find _ schedule) as [[i x]|] eqn:Hfind; [|done].
  apply list_find_Some in Hfind as (Hx & Hid & _). destruct Hnone.
  apply Is_true_true, has_id_true in Hid. rewrite <-Hid.
  by eapply list_elem_of_fmap_2, list_elem_of_lookup_2.
Qed.

(** The drag-and-drop handler submits a permutation of the ids of the
    schedule the page holds. *)
Lemma handleDragEnd_Permutation (active : string) (over : option string)
    (schedule : list ScheduleItem) newOrder order :
  AdminSchedule.handleDragEnd active over schedule
    = Some (newOrder, Some order) →
  ∃ l, newOrder = Some <$> l ∧ l ≡ₚ schedule ∧ order = id <$> l.
Proof.
  unfold AdminSchedule.handleDragEnd.
  destruct over as [over|]; [|done].
  destruct (String.eqb active over); [done|].
  intros [= <- Hmap].
  apply mapM_fmap_Some_inv_all in Hmap as (l & Hl & ->).
  exists l. split_and!; [done| |done].
  destruct schedule as [|x schedule]; [by destruct l|].
  destruct (arrayMove_Permutation (x :: schedule)
              (Js.findIndex (λ i, String.eqb (id i) active) (x :: schedule))
              (Js.findIndex (λ i, String.eqb (id i) over) (x :: schedule)))
    as (l' & Hl' & Hperm); [apply findIndex_bounds|done|].
  rewrite Hl' in Hl. by apply (inj (fmap Some)) in Hl as <-.
Qed.

(** *** Polling *)




(** *** Countdown *)

(** The hours and minutes the code reads from a clock time [HH:MM], checked
    on each of the 24 * 60 clock times. *)
Lemma hhmm_parse_all :
  forallb (λ h, forallb (λ m,
      let parts :=
        Js.Number <$>
          Js.split_colon
            (Js.or_else (Spec.hhmm (N.of_nat h) (N.of_nat m)) "00:00") in
      (Js.or_zero (parts !! 0%nat) =? Z.of_nat h)
      && (Js.or_zero (parts !! 1%nat) =? Z.of_nat m))
    (seq 0 60)) (seq 0 24) = true.
Proof. by vm_compute. Qed.

Lemma hhmm_parse (h m : N) :
  (h < 24)%N → (m < 60)%N →
  let parts :=
    Js.Number <$> Js.split_colon (Js.or_else (Spec.hhmm h m) "00:00") in
  Js.or_zero (parts !! 0%nat) = Z.of_N h ∧
  Js.or_zero (parts !! 1%nat) = Z.of_N m.
Proof.
  intros Hh Hm. pose proof hhmm_parse_all as Hall.
  rewrite forallb_forall in Hall.
  specialize (Hall (N.to_nat h)). rewrite forallb_forall in Hall.
  specialize (Hall ltac:(apply in_seq; lia) (N.to_nat m)
                ltac:(apply in_seq; lia)).
  rewrite !N2Nat.id in Hall. cbv zeta in Hall.
  apply andb_true_iff in Hall as [H0%Z.eqb_eq H1%Z.eqb_eq].
  rewrite N_nat_Z in H0, H1. done.
Qed.

Lemma find_None_not_current (schedule : list ScheduleItem) :
  Js.find is_current schedule = None ↔
  Forall (λ x, is_current x = false) schedule.
Proof.
  rewrite <-findIndex_None. unfold Js.find, Js.findIndex.
  destruct (list_find _ schedule) as [[i x]|]; simpl; [|done].
  split; [done|lia].
Qed.

(** The countdown of the viewer page. *)
Lemma viewer_countdown_zero (tz : Js.Zone) (now now' : Z)
    (schedule : list ScheduleItem) (is_paused : bool) :
  Js.find is_current schedule = None ∨ is_paused = true →
  ViewerDashboard.calculateCountdown tz now now' schedule is_paused = zero.
Proof.
  unfold ViewerDashboard.calculateCountdown. intros [-> | ->]; [done|].
  by destruct (Js.find _ _).
Qed.

(** The local time value of [h]:[m] today lies on the local day of [now]
    and reads [h]:[m]; where the zone reads it with the offset that holds
    at the instant it gives, the local clock at the end of today shows
    that value. *)
Lemma local_hhmm_reads (tz : Js.Zone) (now : Z) (h m : N) :
  (h < 24)%N → (m < 60)%N →
  let l := Spec.local_hhmm tz now h m in
  Js.Day l = Js.Day (Js.LocalTime tz now) ∧
  l `mod` 86400000 = Z.of_N h * 3600000 + Z.of_N m * 60000 ∧
  (Js.offsetAt tz (Spec.end_of_today tz now h m) = Js.offsetFor tz l →
   Js.LocalTime tz (Spec.end_of_today tz now h m) = l).
Proof.
  intros Hh Hm l. subst l. unfold Spec.end_of_today, Spec.local_hhmm.
  set (d := Js.Day (Js.LocalTime tz now)).
  set (r := Z.of_N h * 3600000 + Z.of_N m * 60000).
  assert (0 ≤ r < 86400000) as Hr by (subst r; lia).
  split_and!.
  - unfold Js.Day at 1, Js.msPerDay.
    rewrite Z.add_comm, Z.div_add by done. rewrite Z.div_small by done. lia.
  - rewrite Z.add_comm, Z.mod_add by done. by apply Z.mod_small.
  - intros Hoff. unfold Js.LocalTime. rewrite Hoff. unfold Js.UTC. lia.
Qed.

Lemma viewer_countdown_running (tz : Js.Zone) (now now' : Z)
    (schedule : list ScheduleItem) (item : ScheduleItem) (h m : N) :
  Js.find is_current schedule = Some item →
  end_time item = Spec.hhmm h m →
  (h < 24)%N → (m < 60)%N →
  Js.Day (Js.LocalTime tz now') = Js.Day (Js.LocalTime tz now) →
  Z.abs (Spec.end_of_today tz now h m) ≤ Js.maxTime →
  let c := ViewerDashboard.calculateCountdown tz now now' schedule false in
  Spec.seconds_shown c
    = Z.max 0 (Spec.end_of_today tz now h m - now) `div` 1000 ∧
  0 ≤ hours c ∧ 0 ≤ minutes c < 60 ∧ 0 ≤ seconds c < 60.
Proof.
  intros Hfind Hend Hh Hm Hday Hvalid c. subst c.
  unfold ViewerDashboard.calculateCountdown. rewrite Hfind, Hend.
  destruct (hhmm_parse h m Hh Hm) as [-> ->].
  unfold Js.setHours. rewrite Hday.
  change (Js.UTC tz _) with (Spec.end_of_today tz now h m).
  set (e := Spec.end_of_today tz now h m) in *.
  destruct (Z.leb_spec (Z.abs e) Js.maxTime) as [_|Hbad]; [|lia].
  cbv zeta. destruct (Z.ltb_spec 0 (e - now)) as [Hpos|Hneg].
  - unfold Spec.seconds_shown; cbn [hours minutes seconds].
    rewrite Z.max_r by lia.
    change (1000 * 60 * 60) with 3600000. change (1000 * 60) with 60000.
    revert Hpos. generalize (e - now). intros d Hpos.
    Z.div_mod_to_equations. lia.
  - unfold Spec.seconds_shown, zero; cbn [hours minutes seconds].
    rewrite Z.max_l by lia. done.
Qed.

(** C3. For the countdown of the viewer page, of the crew page and of the
    admin overview, in every time zone, with or without daylight saving
    time: when no entry is current, or [is_paused] is set, the countdown
    shown is zero. Otherwise, with [HH:MM] the end time of the current
    entry (the first one flagged), both clock readings on the same local
    day and the end of today an instant a [Date] can hold, the countdown
    shows, as hours, minutes below 60 and seconds below 60, the whole
    seconds from now to the end of today, floored at zero. The end of
    today is the instant the zone gives to the local time that lies on
    the local day of now and reads [HH:MM]; where the zone reads that
    local time with the offset in force at that instant, the local clock
    shows it then. *)
Theorem countdown_is_time_to_end
    (calc : Js.Zone → Z → Z → list ScheduleItem → bool → Countdown) :
  calc ∈ [ViewerDashboard.calculateCountdown;
          CrewDashboard.calculateCountdown;
          AdminOverview.calculateCountdown] →
  ∀ tz now now' schedule is_paused,
    (Forall (λ x, is_current x = false) schedule ∨ is_paused = true →
     calc tz now now' schedule is_paused = zero) ∧
    ∀ item h m,
      Js.find is_current schedule = Some item →
      is_paused = false →
      end_time item = Spec.hhmm h m →
      (h < 24)%N → (m < 60)%N →
      Js.Day (Js.LocalTime tz now') = Js.Day (Js.LocalTime tz now) →
      Z.abs (Spec.end_of_today tz now h m) ≤ Js.maxTime →
      let c := calc tz now now' schedule is_paused in
      let l := Spec.local_hhmm tz now h m in
      Spec.seconds_shown c
        = Z.max 0 (Spec.end_of_today tz now h m - now) `div` 1000 ∧
      (0 ≤ hours c ∧ 0 ≤ minutes c < 60 ∧ 0 ≤ seconds c < 60) ∧
      Spec.end_of_today tz now h m = l - Js.offsetFor tz l ∧
      Js.Day l = Js.Day (Js.LocalTime tz now) ∧
      l `mod` 86400000 = Z.of_N h * 3600000 + Z.of_N m * 60000 ∧
      (Js.offsetAt tz (Spec.end_of_today tz now h m) = Js.offsetFor tz l →
       Js.LocalTime tz (Spec.end_of_today tz now h m) = l).
Proof.
  intros Hcalc tz now now' schedule is_paused.
  assert (calc tz now now' schedule is_paused
          = ViewerDashboard.calculateCountdown tz now now' schedule is_paused)
    as ->.
  { repeat (apply elem_of_cons in Hcalc as [-> | Hcalc]; [reflexivity|]).
    by apply elem_of_nil in Hcalc. }
  split.
  - intros [Hnone%find_None_not_current | Hpaused];
      apply viewer_countdown_zero; auto.
  - intros item h m Hfind -> Hend Hh Hm Hday Hvalid c l.
    destruct (viewer_countdown_running tz now now' schedule item h m)
      as [Hshown Hbounds]; [done..|].
    destruct (local_hhmm_reads tz now h m Hh Hm) as (Hl & Hr & Hclock).
    subst c l. split; [exact Hshown|]. split; [exact Hbounds|].
    split; [reflexivity|]. split; [exact Hl|]. split; [exact Hr|].
    exact Hclock.
Qed.

(** At 10:00:30.250 in a zone of one offset, with [B] live until 11:30,
    the viewer page shows the 5369 whole seconds that are left; it shows
    zero while paused, and the crew page shows zero when no entry is
    current. At 00:30 of 29 March 2026 in central Europe, the night the
    clocks go forward, with an entry live until 10:00, the overview page
    shows the 8 hours and 30 minutes that are left. *)
Lemma countdown_is_time_to_end_witness :
  Spec.seconds_shown
    (ViewerDashboard.calculateCountdown Sample.tz Sample.now Sample.now
       Sample.abc_live false) = 5369 ∧
  ViewerDashboard.calculateCountdown Sample.tz Sample.now Sample.now
    Sample.abc_live true = zero ∧
  CrewDashboard.calculateCountdown Sample.tz Sample.now Sample.now
    Sample.abc false = zero ∧
  AdminOverview.calculateCountdown Sample.berlin Sample.berlin_night
    Sample.berlin_night [Sample.entry "A" "10:00" true] false
    = {| hours := 8; minutes := 30; seconds := 0 |} ∧
  Spec.seconds_shown
    (AdminOverview.calculateCountdown Sample.berlin Sample.berlin_night
       Sample.berlin_night [Sample.entry "A" "10:00" true] false)
    = 8 * 3600 + 30 * 60.
Proof.
  assert (ViewerDashboard.calculateCountdown
            ∈ [ViewerDashboard.calculateCountdown;
               CrewDashboard.calculateCountdown;
               AdminOverview.calculateCountdown]) as Hviewer
    by apply list_elem_of_here.
  assert (CrewDashboard.calculateCountdown
            ∈ [ViewerDashboard.calculateCountdown;
               CrewDashboard.calculateCountdown;
               AdminOverview.calculateCountdown]) as Hcrew
    by apply list_elem_of_further, list_elem_of_here.
  assert (AdminOverview.calculateCountdown
            ∈ [ViewerDashboard.calculateCountdown;
               CrewDashboard.calculateCountdown;
               AdminOverview.calculateCountdown]) as Hadmin
    by apply list_elem_of_further, list_elem_of_further, list_elem_of_here.
  split_and!.
  - destruct (countdown_is_time_to_end _ Hviewer Sample.tz Sample.now
                Sample.now Sample.abc_live false) as [_ Hrun].
    destruct (Hrun (Sample.entry "B" "11:30" true) 11%N 30%N)
      as [Hshown _]; [reflexivity..|vm_compute; discriminate|].
    rewrite Hshown. reflexivity.
  - apply (countdown_is_time_to_end _ Hviewer). by right.
  - apply (countdown_is_time_to_end _ Hcrew). left.
    repeat constructor.
  - reflexivity.
  - destruct (countdown_is_time_to_end _ Hadmin Sample.berlin
                Sample.berlin_night Sample.berlin_night
                [Sample.entry "A" "10:00" true] false) as [_ Hrun].
    destruct (Hrun (Sample.entry "A" "10:00" true) 10%N 0%N)
      as [Hshown _]; [reflexivity..|vm_compute; discriminate|].
    rewrite Hshown. reflexivity.
Defined.

(** C10. On the same schedule, pause flag and clock readings, the countdown
    functions of the viewer page, of the crew page and of the current-only
    page give the same hours, minutes and seconds. *)
Theorem countdown_views_agree (tz : Js.Zone) (now now' : Z)
    (schedule : list ScheduleItem) (is_paused : bool) :
  ViewerDashboard.calculateCountdown tz now now' schedule is_paused
    = CrewDashboard.calculateCountdown tz now now' schedule is_paused ∧
  CrewDashboard.calculateCountdown tz now now' schedule is_paused
    = CurrentOnlyDashboard.calculateCountdown tz now now' schedule is_paused.
Proof.
  unfold ViewerDashboard.calculateCountdown,
    CrewDashboard.calculateCountdown,
    CurrentOnlyDashboard.calculateCountdown.
  destruct (Js.find is_current schedule) as [currentItem|]; [|done].
  destruct is_paused; [done|].
  destruct (Js.setHours _ _ _ _) as [endTime|]; [|done].
  by destruct (0 <? endTime - now).
Qed.

(** ** Further properties of the backend *)

(** *** What the control routes leave alone *)

Lemma unflagged_fmap_flag (f : ScheduleItem → bool)
    (schedule : list ScheduleItem) :
  Spec.unflagged ((λ x, with_is_current x (f x)) <$> schedule)
  = Spec.unflagged schedule.
Proof. unfold Spec.unflagged. rewrite <-list_fmap_compose. done. Qed.

Lemma unflagged_mark (k : Z) (schedule : list ScheduleItem) :
  Spec.unflagged (mark k schedule) = Spec.unflagged schedule.
Proof.
  unfold Spec.unflagged. apply list_eq. intros i.
  rewrite !list_lookup_fmap, lookup_mark. by destruct (schedule !! i).
Qed.

Lemma ids_unflagged (schedule : list ScheduleItem) :
  id <$> Spec.unflagged schedule = id <$> schedule.
Proof. unfold Spec.unflagged. by rewrite <-list_fmap_compose. Qed.

Lemma unflagged_ids (l k : list ScheduleItem) :
  Spec.unflagged l = Spec.unflagged k → id <$> l = id <$> k.
Proof. intros H. by rewrite <-(ids_unflagged l), H, ids_unflagged. Qed.

(** X1. The control routes next, previous, set-current and clear-current
    change nothing but [is_current] flags: the schedule keeps its length
    and order, and every entry its id, title, description, times, phase,
    notes, people and groups. *)
Theorem control_routes_touch_only_the_flag (sid : string)
    (schedule : list ScheduleItem) :
  Spec.unflagged (control_next schedule).1 = Spec.unflagged schedule ∧
  Spec.unflagged (control_previous schedule).1 = Spec.unflagged schedule ∧
  Spec.unflagged (control_set_current sid schedule).1
    = Spec.unflagged schedule ∧
  Spec.unflagged (control_clear_current schedule).1
    = Spec.unflagged schedule.
Proof.
  split_and!.
  - apply unflagged_mark.
  - apply unflagged_mark.
  - unfold control_set_current. destruct (negb _); [done|].
    apply (unflagged_fmap_flag (has_id sid)).
  - apply (unflagged_fmap_flag (λ _, false)).
Qed.

(** *** Distinct ids *)

Lemma ids_insert_same (i : nat) (x y : ScheduleItem)
    (schedule : list ScheduleItem) :
  schedule !! i = Some x → id y = id x →
  id <$> <[i := y]> schedule = id <$> schedule.
Proof.
  intros Hx Hid. rewrite list_fmap_insert, Hid.
  apply list_insert_id. by rewrite list_lookup_fmap, Hx.
Qed.

Lemma NoDup_ids_filter (P : ScheduleItem → Prop) `{∀ x, Decision (P x)}
    (schedule : list ScheduleItem) :
  NoDup (id <$> schedule) → NoDup (id <$> filter P schedule).
Proof.
  induction schedule as [|x l IH]; [done|].
  rewrite fmap_cons, NoDup_cons. intros [Hx Hl].
  rewrite filter_cons. case_decide; [|by apply IH].
  rewrite fmap_cons, NoDup_cons. split; [|by apply IH].
  intros Hin. apply Hx. apply list_elem_of_fmap in Hin as (y & -> & Hy).
  apply list_elem_of_fmap_2. by apply list_elem_of_filter in Hy as [_ Hy].
Qed.

(** An edit whose body has no [id] key leaves the ids and their order as
    they are. *)
Lemma schedule_put_ids (sid : string) (body : ItemBody)
    (schedule : list ScheduleItem) :
  body_id body = None →
  id <$> (schedule_put sid body schedule).1 = id <$> schedule.
Proof.
  intros Hbody. unfold schedule_put.
  destruct (list_find _ schedule) as [[i cur]|] eqn:Hfind; [|done].
  apply list_find_Some in Hfind as (Hcur & _ & _).
  destruct (is_current (merge cur body)); cbn [fst].
  - by rewrite (unflagged_ids _ schedule (unflagged_fmap_flag _ _)).
  - rewrite (ids_insert_same i cur); [done|done|].
    unfold merge. cbn [id]. by rewrite Hbody.
Qed.

Lemma apply_keeps_ids_distinct (m : Mutation) (schedule : list ScheduleItem) :
  NoDup (id <$> schedule) →
  Spec.keeps_ids_distinct m schedule →
  NoDup (id <$> apply m schedule).
Proof.
  intros Hnd Hm.
  destruct m as [| |sid| |order|now body|sid body|sid]; cbn [apply].
  - unfold control_next. cbn [fst].
    by rewrite (unflagged_ids _ schedule (unflagged_mark _ _)).
  - unfold control_previous. cbn [fst].
    by rewrite (unflagged_ids _ schedule (unflagged_mark _ _)).
  - unfold control_set_current. destruct (negb _); [done|]. cbn [fst].
    by rewrite (unflagged_ids _ schedule (unflagged_fmap_flag _ _)).
  - cbn [control_clear_current fst].
    pose proof (ids_unflagged schedule) as Hids.
    unfold Spec.unflagged in Hids. by rewrite Hids.
  - unfold put_schedule_reorder. by rewrite schedule_put_ids.
  - unfold schedule_post. cbn [fst is_current id].
    rewrite fmap_app, fmap_cons, fmap_nil. cbn [id].
    assert (id <$> (if default false (body_is_current body)
                    then (λ x, with_is_current x false) <$> schedule
                    else schedule) = id <$> schedule) as ->.
    { destruct (default false _); [|done]. apply ids_unflagged. }
    apply NoDup_app. split_and!; [done| |apply NoDup_singleton].
    intros x Hx ->%list_elem_of_singleton. by apply Hm.
  - simpl in Hm. by rewrite schedule_put_ids.
  - cbn [schedule_delete fst]. by apply NoDup_ids_filter.
Qed.

(** X2. As long as no request gives an entry an id that is in use (every
    creation happens at a clock reading of its own, no edit carries an
    [id] key), the ids of the stored entries are pairwise distinct and at
    most one entry is current, in every state the requests lead to from
    the empty schedule, and more generally from any such state. *)
Theorem distinct_ids_keep_single_current (ms : list Mutation)
    (schedule : list ScheduleItem) :
  NoDup (id <$> schedule) →
  (count_current schedule ≤ 1)%nat →
  Spec.disciplined ms schedule →
  NoDup (id <$> run ms schedule) ∧ (count_current (run ms schedule) ≤ 1)%nat.
Proof.
  revert schedule. induction ms as [|m ms IH]; intros schedule Hnd Hle Hms.
  - done.
  - destruct Hms as [Hm Hms]. apply IH; [| |done].
    + by apply apply_keeps_ids_distinct.
    + by apply apply_keeps_at_most_one_current.
Qed.

Lemma distinct_ids_keep_single_current_witness :
  NoDup (id <$> run Sample.orderly []) ∧
  (count_current (run Sample.orderly []) ≤ 1)%nat.
Proof.
  apply (distinct_ids_keep_single_current Sample.orderly []).
  - apply NoDup_nil_2.
  - vm_compute. lia.
  - repeat split; decide_by_computation.
Defined.

(** *** Deleting, editing and creating entries *)

Lemma filter_all {A} (P : A → Prop) `{∀ x, Decision (P x)} (l : list A) :
  Forall P l → filter P l = l.
Proof.
  induction 1 as [|x l Hx _ IH]; [done|].
  by rewrite filter_cons_True, IH.
Qed.

(** X3. [DELETE /api/schedule/:id] always replies success. Afterwards no
    entry has the id; the entries with another id are all still there, in
    their order; when no entry had the id the schedule is the one before;
    and a second deletion changes nothing. *)
Theorem delete_removes_every_entry_with_the_id (sid : string)
    (schedule : list ScheduleItem) :
  let schedule' := (schedule_delete sid schedule).1 in
  (schedule_delete sid schedule).2 = Json true ∧
  (sid ∉ id <$> schedule') ∧
  (∀ x, x ∈ schedule' ↔ x ∈ schedule ∧ id x ≠ sid) ∧
  schedule' `sublist_of` schedule ∧
  (sid ∉ id <$> schedule → schedule' = schedule) ∧
  schedule_delete sid schedule' = (schedule', Json true).
Proof.
  intros schedule'. subst schedule'. unfold schedule_delete. cbn [fst snd].
  assert (∀ x, ¬ Is_true (has_id sid x) ↔ id x ≠ sid) as Hid.
  { intros x. rewrite Is_true_true, has_id_true. done. }
  split_and!.
  - done.
  - intros (x & -> & Hx)%list_elem_of_fmap.
    apply list_elem_of_filter in Hx as [Hx _]. by apply Hid in Hx.
  - intros x. rewrite list_elem_of_filter, Hid. tauto.
  - apply sublist_filter.
  - intros Habs. apply filter_all, Forall_forall. intros x Hx.
    apply Hid. intros <-. apply Habs. by apply list_elem_of_fmap_2.
  - f_equal. apply filter_all, Forall_forall.
    by intros x [Hx _]%list_elem_of_filter.
Qed.

Lemma list_find_has_id (i : nat) (item : ScheduleItem)
    (schedule : list ScheduleItem) :
  NoDup (id <$> schedule) → schedule !! i = Some item →
  list_find (λ s, Is_true (has_id (id item) s)) schedule = Some (i, item).
Proof.
  intros Hnd Hi. apply list_find_Some. split_and!.
  - done.
  - apply Is_true_true, has_id_true. done.
  - intros j y Hj Hlt Hy%Is_true_true%has_id_true.
    assert (i = j); [|lia].
    apply (NoDup_lookup _ i j (id item) Hnd);
      rewrite list_lookup_fmap; [by rewrite Hi|by rewrite Hj; simpl; rewrite Hy].
Qed.

(** With at most one current entry, two positions that hold a current entry
    are the same. *)
Lemma count_current_le_1_inv (schedule : list ScheduleItem) i j x y :
  (count_current schedule ≤ 1)%nat →
  schedule !! i = Some x → schedule !! j = Some y →
  is_current x = true → is_current y = true → i = j.
Proof.
  revert i j. induction schedule as [|z l IH]; intros i j Hle Hi Hj Hx Hy;
    [done|].
  rewrite count_current_cons in Hle.
  assert (∀ k a, l !! k = Some a → is_current a = true →
            (1 ≤ count_current l)%nat) as Hpos.
  { intros k a Ha Hca. destruct (count_current l) eqn:Hc; [|lia].
    apply count_current_zero in Hc.
    apply (Forall_lookup_1 _ _ _ _ Hc) in Ha. simpl in Ha. congruence. }
  destruct i as [|i], j as [|j]; simplify_eq/=.
  - done.
  - rewrite Hx in Hle. specialize (Hpos _ _ Hj Hy). lia.
  - rewrite Hy in Hle. specialize (Hpos _ _ Hi Hx). lia.
  - f_equal. apply IH; [|done..]. destruct (is_current z); lia.
Qed.

(** A live entry, distinct ids and a single current entry: flagging by the
    id of the live entry changes nothing. *)
Lemma flag_by_live_id (i : nat) (item : ScheduleItem)
    (schedule : list ScheduleItem) :
  NoDup (id <$> schedule) → (count_current schedule ≤ 1)%nat →
  schedule !! i = Some item → is_current item = true →
  (λ x, with_is_current x (has_id (id item) x)) <$> schedule = schedule.
Proof.
  intros Hnd Hle Hi Hlive. apply list_eq. intros j.
  rewrite list_lookup_fmap. destruct (schedule !! j) as [x|] eqn:Hj; [|done].
  simpl. f_equal.
  assert (has_id (id item) x = is_current x) as ->; [|by destruct x].
  destruct (has_id (id item) x) eqn:Hid.
  - apply has_id_true in Hid.
    assert (i = j) as <-.
    { apply (NoDup_lookup _ i j (id item) Hnd);
        rewrite list_lookup_fmap;
        [by rewrite Hi|by rewrite Hj; simpl; rewrite Hid]. }
    congruence.
  - destruct (is_current x) eqn:Hx; [|done].
    assert (i = j) as <-
      by (eapply count_current_le_1_inv; [done|exact Hi|exact Hj|done|done]).
    apply has_id_false in Hid. congruence.
Qed.

Lemma schedule_put_absent (sid : string) (body : ItemBody)
    (schedule : list ScheduleItem) :
  sid ∉ id <$> schedule →
  schedule_put sid body schedule = (schedule, NotFound).
Proof.
  intros Hnone. unfold schedule_put.
  destruct (list_find _ schedule) as [[i x]|] eqn:Hfind; [|done].
  apply list_find_Some in Hfind as (Hx & Hid & _). destruct Hnone.
  apply Is_true_true, has_id_true in Hid. rewrite <-Hid.
  by eapply list_elem_of_fmap_2, list_elem_of_lookup_2.
Qed.

Lemma schedule_put_not_live (i : nat) (item : ScheduleItem) (body : ItemBody)
    (schedule : list ScheduleItem) :
  NoDup (id <$> schedule) → schedule !! i = Some item →
  is_current (merge item body) = false →
  (schedule_put (id item) body schedule).1 = <[i := merge item body]> schedule.
Proof.
  intros Hnd Hi Hcur. unfold schedule_put.
  rewrite (list_find_has_id i item) by done. by rewrite Hcur.
Qed.

Lemma schedule_put_live (i : nat) (item : ScheduleItem) (body : ItemBody)
    (schedule : list ScheduleItem) :
  NoDup (id <$> schedule) → (count_current schedule ≤ 1)%nat →
  schedule !! i = Some item → is_current item = true →
  is_current (merge item body) = true →
  (schedule_put (id item) body schedule).1 = schedule.
Proof.
  intros Hnd Hle Hi Hlive Hcur. unfold schedule_put.
  rewrite (list_find_has_id i item) by done. rewrite Hcur. cbn [fst].
  by apply (flag_by_live_id i).
Qed.

(** X4. The dialog of the schedule page saves the form of an entry that is
    not live (ids pairwise distinct): the stored schedule changes at the
    position of that entry only, where title, description, times, phase
    and notes are those of the form and id, flag, people and groups are
    kept. When the entry is no longer stored, the request is answered with
    404 and nothing changes. *)
Theorem form_edit_rewrites_one_entry (now : N) (st : AdminSchedule.State)
    (schedule : list ScheduleItem) (item : ScheduleItem) :
  AdminSchedule.editingItem st = Some item →
  NoDup (id <$> schedule) →
  let f := AdminSchedule.formData st in
  let body := AdminSchedule.body_of_form f in
  (id item ∉ id <$> schedule →
     schedule_put (id item) body schedule = (schedule, NotFound) ∧
     AdminSchedule.serve now (AdminSchedule.submitRequest st) schedule
       = schedule) ∧
  (∀ i, schedule !! i = Some item → is_current item = false →
     AdminSchedule.serve now (AdminSchedule.submitRequest st) schedule
     = <[i := {| id := id item;
                 title := AdminSchedule.Form.title f;
                 description := AdminSchedule.Form.description f;
                 start_time := AdminSchedule.Form.start_time f;
                 end_time := AdminSchedule.Form.end_time f;
                 phase_id := AdminSchedule.Form.phase_id f;
                 notes := AdminSchedule.Form.notes f;
                 is_current := false;
                 people := people item;
                 groups := groups item |}]> schedule).
Proof.
  intros Hedit Hnd f body. subst f body.
  unfold AdminSchedule.submitRequest.
  rewrite Hedit. cbn [AdminSchedule.serve]. split.
  - intros Habs. by rewrite schedule_put_absent.
  - intros i Hi Hcur.
    rewrite (schedule_put_not_live i) by (done || by simpl).
    by rewrite <-Hcur.
Qed.

Lemma form_edit_rewrites_one_entry_witness :
  AdminSchedule.serve 0
    (AdminSchedule.submitRequest
       (Sample.editing (Sample.entry "C" "12:45" false) Sample.new_form))
    Sample.abc_live
  = [Sample.entry "A" "10:00" false; Sample.entry "B" "11:30" true;
     {| id := "C"; title := "Finale"; description := "";
        start_time := "00:00"; end_time := "13:00"; phase_id := "";
        notes := ""; is_current := false; people := []; groups := [] |}].
Proof.
  destruct (form_edit_rewrites_one_entry 0
              (Sample.editing (Sample.entry "C" "12:45" false) Sample.new_form)
              Sample.abc_live (Sample.entry "C" "12:45" false) eq_refl)
    as [_ Hsave]; [decide_by_computation|].
  exact (Hsave 2%nat eq_refl eq_refl).
Defined.

(** X5. An edit of the live entry stores nothing: when the entry of the
    request is current, ids are pairwise distinct and it is the only
    current entry, a [PUT /api/schedule/:id] whose body has no
    [is_current] key, as every request of the dialog, leaves the stored
    schedule exactly as it was, whatever the body or the form holds. *)
Theorem edit_of_the_live_entry_is_dropped (schedule : list ScheduleItem)
    (item : ScheduleItem) :
  item ∈ schedule →
  is_current item = true →
  NoDup (id <$> schedule) →
  (count_current schedule ≤ 1)%nat →
  (∀ body, body_is_current body = None →
     (schedule_put (id item) body schedule).1 = schedule) ∧
  (∀ now st, AdminSchedule.editingItem st = Some item →
     AdminSchedule.serve now (AdminSchedule.submitRequest st) schedule
     = schedule).
Proof.
  intros [i Hi]%list_elem_of_lookup Hlive Hnd Hle.
  assert (∀ body, body_is_current body = None →
            (schedule_put (id item) body schedule).1 = schedule) as Hput.
  { intros body Hbody. apply (schedule_put_live i); try done.
    unfold merge. cbn [is_current]. by rewrite Hbody. }
  split; [done|]. intros now st Hedit.
  unfold AdminSchedule.submitRequest. rewrite Hedit.
  cbn [AdminSchedule.serve]. by apply Hput.
Qed.

Lemma edit_of_the_live_entry_is_dropped_witness :
  AdminSchedule.serve 0
    (AdminSchedule.submitRequest
       (Sample.editing (Sample.entry "B" "11:30" true) Sample.new_form))
    Sample.abc_live
  = Sample.abc_live.
Proof.
  destruct (edit_of_the_live_entry_is_dropped Sample.abc_live
              (Sample.entry "B" "11:30" true)) as [_ Hform].
  - apply list_elem_of_further, list_elem_of_here.
  - reflexivity.
  - decide_by_computation.
  - vm_compute. lia.
  - by apply Hform.
Defined.

(** X6. Opening the dialog on a stored entry and saving the form as it was
    filled in leaves the stored schedule unchanged (ids pairwise distinct,
    at most one entry current). *)
Theorem unchanged_form_saves_nothing (now : N) (st : AdminSchedule.State)
    (schedule : list ScheduleItem) (item : ScheduleItem) :
  item ∈ schedule →
  NoDup (id <$> schedule) →
  (count_current schedule ≤ 1)%nat →
  AdminSchedule.serve now
    (AdminSchedule.submitRequest (AdminSchedule.handleEdit item st)) schedule
  = schedule.
Proof.
  intros [i Hi]%list_elem_of_lookup Hnd Hle.
  unfold AdminSchedule.submitRequest, AdminSchedule.handleEdit.
  cbn [AdminSchedule.editingItem AdminSchedule.formData AdminSchedule.serve].
  destruct (is_current item) eqn:Hlive.
  - by apply (schedule_put_live i).
  - rewrite (schedule_put_not_live i) by done.
    apply list_insert_id. rewrite Hi. f_equal.
    unfold merge, AdminSchedule.body_of_form. simpl.
    rewrite !or_else_empty. by destruct item.
Qed.

Lemma unchanged_form_saves_nothing_witness :
  AdminSchedule.serve 0
    (AdminSchedule.submitRequest
       (AdminSchedule.handleEdit (Sample.entry "A" "10:00" false)
          Sample.schedule_page))
    Sample.abc_live
  = Sample.abc_live.
Proof.
  apply (unchanged_form_saves_nothing 0 Sample.schedule_page Sample.abc_live).
  - apply list_elem_of_here.
  - decide_by_computation.
  - vm_compute. lia.
Defined.




(** *** Pause, settings and clear-current *)

Lemma all_countdowns_zero (tz : Js.Zone) (now now' : Z)
    (schedule : list ScheduleItem) (is_paused : bool) :
  Js.find is_current schedule = None ∨ is_paused = true →
  ViewerDashboard.calculateCountdown tz now now' schedule is_paused = zero ∧
  CrewDashboard.calculateCountdown tz now now' schedule is_paused = zero ∧
  CurrentOnlyDashboard.calculateCountdown tz now now' schedule is_paused
    = zero ∧
  AdminOverview.calculateCountdown tz now now' schedule is_paused = zero.
Proof.
  intros H. split_and!; by apply viewer_countdown_zero.
Qed.

(** X8. The pause route flips [is_paused] and nothing else (it stores
    what a settings request with that one key would store), and replies
    with the new flag; a second request restores the settings exactly.
    While the flag is set, the countdown of all four pages is zero. *)
Theorem pause_twice_restores_settings (settings : Settings) :
  control_pause (control_pause settings).1
    = (settings, Json (is_paused settings)) ∧
  (control_pause settings).2 = Json (negb (is_paused settings)) ∧
  (control_pause settings).1
    = (settings_post
         {| body_event_name := None; body_event_date := None;
            body_background_color := None; body_surface_color := None;
            body_text_color := None; body_primary_color := None;
            body_accent_color := None;
            body_is_paused := Some (negb (is_paused settings));
            body_auto_advance := None; body_auto_scroll := None;
            body_show_countdown := None |} settings).1 ∧
  (∀ tz now now' schedule,
     is_paused settings = false →
     let paused := is_paused (control_pause settings).1 in
     ViewerDashboard.calculateCountdown tz now now' schedule paused = zero ∧
     CrewDashboard.calculateCountdown tz now now' schedule paused = zero ∧
     CurrentOnlyDashboard.calculateCountdown tz now now' schedule paused
       = zero ∧
     AdminOverview.calculateCountdown tz now now' schedule paused = zero).
Proof.
  split_and!.
  - destruct settings as [? ? ? ? ? ? ? p ? ? ?]. unfold control_pause. simpl.
    by rewrite negb_involutive.
  - done.
  - done.
  - intros tz now now' schedule Hrun paused. apply all_countdowns_zero.
    right. subst paused. simpl. by rewrite Hrun.
Qed.



(** X10. After clear-current no entry is current, whatever the schedule
    held: the current index is [-1], the pages find no current entry and
    show a zero countdown; a second clear-current changes nothing; and on
    a schedule that is not empty the next [next] or [previous] makes the
    first entry current. *)
Theorem clear_current_leaves_none_current (schedule : list ScheduleItem) :
  let schedule' := (control_clear_current schedule).1 in
  count_current schedule' = 0%nat ∧
  getCurrentIndex schedule' = -1 ∧
  Js.find is_current schedule' = None ∧
  control_clear_current schedule' = (schedule', Json true) ∧
  (∀ tz now now' is_paused,
     ViewerDashboard.calculateCountdown tz now now' schedule' is_paused
       = zero ∧
     CrewDashboard.calculateCountdown tz now now' schedule' is_paused
       = zero ∧
     CurrentOnlyDashboard.calculateCountdown tz now now' schedule' is_paused
       = zero ∧
     AdminOverview.calculateCountdown tz now now' schedule' is_paused
       = zero) ∧
  ((0 < length schedule)%nat →
     getCurrentIndex (control_next schedule').1 = 0 ∧
     getCurrentIndex (control_previous schedule').1 = 0).
Proof.
  intros schedule'.
  assert (count_current schedule' = 0%nat) as Hzero
    by apply count_current_cleared.
  assert (Forall (λ x, is_current x = false) schedule') as Hall
    by by apply count_current_zero.
  assert (getCurrentIndex schedule' = -1) as Hidx by by apply findIndex_None.
  assert (Js.find is_current schedule' = None) as Hfind
    by by apply find_None_not_current.
  split_and!; [done|done|done| | |].
  - subst schedule'. unfold control_clear_current. cbn [fst]. f_equal.
    rewrite <-list_fmap_compose. done.
  - intros tz now now' is_paused. apply all_countdowns_zero. by left.
  - intros Hlen.
    assert (0 < length schedule')%nat as Hlen'
      by (subst schedule'; unfold control_clear_current; cbn [fst];
          by rewrite length_fmap).
    pose proof (getCurrentIndex_apply_step Next schedule' Hlen'
                  (or_introl eq_refl)) as Hnext.
    pose proof (getCurrentIndex_apply_step Previous schedule' Hlen'
                  (or_intror eq_refl)) as Hprev.
    cbn [apply] in Hnext, Hprev. unfold Spec.index_step in Hnext, Hprev.
    rewrite Hidx in Hnext, Hprev. by rewrite Hnext, Hprev.
Qed.

(** *** Strings: reversal and trimming *)

Lemma append_cons (a : ascii) (s t : string) :
  String a s +:+ t = String a (s +:+ t).
Proof. reflexivity. Qed.

Lemma append_nil_r (s : string) : s +:+ "" = s.
Proof. induction s as [|a s IH]; [done|]. by rewrite append_cons, IH. Qed.

Lemma append_assoc (s1 s2 s3 : string) :
  (s1 +:+ s2) +:+ s3 = s1 +:+ (s2 +:+ s3).
Proof.
  induction s1 as [|a s1 IH]; [done|]. by rewrite !append_cons, IH.
Qed.

Lemma rev_app_append (s1 s2 t : string) :
  String.rev_app (s1 +:+ s2) t = String.rev_app s2 (String.rev_app s1 t).
Proof.
  revert t. induction s1 as [|a s1 IH]; intros t; [done|].
  rewrite append_cons. simpl. apply IH.
Qed.

Lemma rev_app_rev_app (s t u : string) :
  String.rev_app (String.rev_app s t) u = String.rev_app t (s +:+ u).
Proof.
  revert t u. induction s as [|a s IH]; intros t u; [done|].
  simpl. by rewrite IH.
Qed.

Lemma rev_involutive (s : string) : String.rev (String.rev s) = s.
Proof.
  unfold String.rev. rewrite rev_app_rev_app. apply append_nil_r.
Qed.

Lemma rev_app_rev (s t : string) : String.rev_app s t = String.rev s +:+ t.
Proof.
  unfold String.rev. revert t. induction s as [|a s IH]; intros t; [done|].
  simpl. rewrite (IH (String a "")), IH, append_assoc. done.
Qed.

Lemma rev_append (s1 s2 : string) :
  String.rev (s1 +:+ s2) = String.rev s2 +:+ String.rev s1.
Proof.
  unfold String.rev at 1. rewrite rev_app_append. apply rev_app_rev.
Qed.

Lemma rev_snoc (s : string) (b : ascii) :
  String.rev (s +:+ String b "") = String b (String.rev s).
Proof. by rewrite rev_append. Qed.

Lemma length_rev_app (s t : string) :
  String.length (String.rev_app s t)
  = (String.length s + String.length t)%nat.
Proof.
  revert t. induction s as [|a s IH]; intros t; simpl; [done|].
  rewrite IH. simpl. lia.
Qed.

Lemma length_rev (s : string) :
  String.length (String.rev s) = String.length s.
Proof. unfold String.rev. rewrite length_rev_app. simpl. lia. Qed.

(** The white space beyond ASCII is made of bytes from 128 on. *)
Lemma isSpace2_high (a b : ascii) :
  Js.isSpace2 a b = true →
  (128 ≤ N_of_ascii a)%N ∧ (128 ≤ N_of_ascii b)%N.
Proof.
  unfold Js.isSpace2. rewrite andb_true_iff, !N.eqb_eq. lia.
Qed.

Lemma isSpace3_high (a b c : ascii) :
  Js.isSpace3 a b c = true →
  (128 ≤ N_of_ascii a)%N ∧ (128 ≤ N_of_ascii b)%N ∧ (128 ≤ N_of_ascii c)%N.
Proof.
  unfold Js.isSpace3. cbv zeta.
  rewrite !orb_true_iff, !andb_true_iff, !orb_true_iff, !andb_true_iff,
    !N.eqb_eq, !N.leb_le.
  lia.
Qed.

(** A byte below 128 that is no white space begins no white-space
    character and ends none. *)
Lemma afterSpace_plain (fromEnd : bool) (a : ascii) (s : string) :
  Ascii.is_space a = false → (N_of_ascii a < 128)%N →
  Js.afterSpace fromEnd (String a s) = None.
Proof.
  intros Ha Hlow. unfold Js.afterSpace. rewrite Ha.
  destruct s as [|b [|c s]]; [done| |].
  - destruct fromEnd.
    + destruct (Js.isSpace2 b a) eqn:H2; [|done].
      apply isSpace2_high in H2. lia.
    + destruct (Js.isSpace2 a b) eqn:H2; [|done].
      apply isSpace2_high in H2. lia.
  - destruct fromEnd.
    + destruct (Js.isSpace2 b a) eqn:H2; [apply isSpace2_high in H2; lia|].
      destruct (Js.isSpace3 c b a) eqn:H3; [|done].
      apply isSpace3_high in H3. lia.
    + destruct (Js.isSpace2 a b) eqn:H2; [apply isSpace2_high in H2; lia|].
      destruct (Js.isSpace3 a b c) eqn:H3; [|done].
      apply isSpace3_high in H3. lia.
Qed.

(** What [afterSpace] returns is the string without a prefix of one to
    three bytes. *)
Lemma afterSpace_Some (fromEnd : bool) (s s' : string) :
  Js.afterSpace fromEnd s = Some s' →
  ∃ p, s = p +:+ s' ∧ (String.length s' < String.length s)%nat.
Proof.
  unfold Js.afterSpace. destruct s as [|a s]; [done|].
  destruct (Ascii.is_space a).
  { intros [= <-]. exists (String a ""). split; [done|simpl; lia]. }
  destruct s as [|b s]; [done|].
  destruct (if fromEnd then Js.isSpace2 b a else Js.isSpace2 a b).
  { intros [= <-]. exists (String a (String b "")).
    split; [done|simpl; lia]. }
  destruct s as [|c s]; [done|].
  destruct (if fromEnd then Js.isSpace3 c b a else Js.isSpace3 a b c);
    [|done].
  intros [= <-]. exists (String a (String b (String c ""))).
  split; [done|simpl; lia].
Qed.

(** A string that starts with no white space has no prefix that does. *)
Lemma afterSpace_prefix (fromEnd : bool) (x y : string) :
  Js.afterSpace fromEnd (x +:+ y) = None → Js.afterSpace fromEnd x = None.
Proof.
  unfold Js.afterSpace. destruct x as [|a x]; [done|].
  rewrite append_cons. destruct (Ascii.is_space a); [done|].
  destruct x as [|b x]; [done|]. rewrite append_cons.
  destruct (if fromEnd then Js.isSpace2 b a else Js.isSpace2 a b); [done|].
  destruct x as [|c x]; [done|]. rewrite append_cons.
  by destruct (if fromEnd then Js.isSpace3 c b a else Js.isSpace3 a b c).
Qed.

Lemma strip_None (fuel : nat) (fromEnd : bool) (s : string) :
  Js.afterSpace fromEnd s = None → Js.strip fuel fromEnd s = s.
Proof. intros H. destruct fuel; [done|]. simpl. by rewrite H. Qed.

(** With fuel for every byte, what [strip] leaves starts with no white
    space. *)
Lemma strip_done (fuel : nat) (fromEnd : bool) (s : string) :
  (String.length s ≤ fuel)%nat →
  Js.afterSpace fromEnd (Js.strip fuel fromEnd s) = None.
Proof.
  revert s. induction fuel as [|fuel IH]; intros s Hlen.
  - destruct s; [done|simpl in Hlen; lia].
  - simpl. destruct (Js.afterSpace fromEnd s) as [s'|] eqn:Hs; [|done].
    apply IH. apply afterSpace_Some in Hs as (_ & _ & Hlt). lia.
Qed.

Lemma strip_suffix (fuel : nat) (fromEnd : bool) (s : string) :
  ∃ p, s = p +:+ Js.strip fuel fromEnd s.
Proof.
  revert s. induction fuel as [|fuel IH]; intros s; [by exists ""|].
  simpl. destruct (Js.afterSpace fromEnd s) as [s'|] eqn:Hs; [|by exists ""].
  apply afterSpace_Some in Hs as (p & -> & _).
  destruct (IH s') as [q Hq]. exists (p +:+ q).
  by rewrite append_assoc, <-Hq.
Qed.

(** A string that neither starts nor ends with white space is its own
    trimming. *)
Lemma trim_fixed (s : string) :
  Js.afterSpace false s = None →
  Js.afterSpace true (String.rev s) = None →
  Js.trim s = s.
Proof.
  intros Hstart Hend. unfold Js.trim, Js.trimEnd, Js.trimStart.
  rewrite (strip_None _ _ _ Hstart), (strip_None _ _ _ Hend).
  apply rev_involutive.
Qed.

Lemma trim_id (a b : ascii) (s : string) :
  Ascii.is_space a = false → (N_of_ascii a < 128)%N →
  Ascii.is_space b = false → (N_of_ascii b < 128)%N →
  Js.trim (String a s +:+ String b "") = String a s +:+ String b "".
Proof.
  intros Ha Ha' Hb Hb'. apply trim_fixed.
  - rewrite append_cons. by apply afterSpace_plain.
  - rewrite rev_snoc. by apply afterSpace_plain.
Qed.

(** Trimming twice is trimming once. *)
Lemma trim_idemp (s : string) : Js.trim (Js.trim s) = Js.trim s.
Proof.
  unfold Js.trim at 2 3. unfold Js.trimEnd.
  set (t := Js.trimStart s).
  assert (Js.afterSpace false t = None) as Hstart
    by by apply strip_done.
  set (u := Js.strip (String.length t) true (String.rev t)).
  assert (Js.afterSpace true u = None) as Hend
    by (apply strip_done; by rewrite length_rev).
  destruct (strip_suffix (String.length t) true (String.rev t)) as [p Hp].
  fold u in Hp. apply trim_fixed; [|by rewrite rev_involutive].
  apply (afterSpace_prefix false _ (String.rev p)).
  by rewrite <-rev_append, <-Hp, rev_involutive.
Qed.

(** *** Further properties of the message routes *)

(** X11. An [ack] with an id that is not blank is answered with success
    and hides the message from the acknowledging client, under the
    trimmed id, and from nobody else: every other id observes what it
    observed before. Text, [active], id and creation time of the message
    stay, and [acked_by] gains the trimmed id at most once. *)
Theorem ack_hides_message_for_that_client_only (m : Message)
    (client_id : string) :
  Js.trim client_id ≠ "" →
  let m' := (message_ack (Some client_id) m).1 in
  (message_ack (Some client_id) m).2 = Json true ∧
  observed_active (Js.trim client_id) m' = false ∧
  (∀ other, other ≠ Js.trim client_id →
     observed_active other m' = observed_active other m) ∧
  text m' = text m ∧ active m' = active m ∧
  message_id m' = message_id m ∧ created m' = created m ∧
  (∀ c, c ∈ acked_by m' ↔ c ∈ acked_by m ∨ c = Js.trim client_id) ∧
  (NoDup (acked_by m) → NoDup (acked_by m')).
Proof.
  intros Hcid m'.
  pose proof (message_ack_fields (Some client_id) m) as (Ha & Ht & Hi & Hc).
  pose proof (λ c, message_ack_acked_by client_id m c Hcid) as Hin.
  fold m' in Ha, Ht, Hi, Hc, Hin.
  split_and!; [by rewrite message_ack_Some| | |done..| ].
  - destruct (observed_active _ m') eqn:Hobs; [|done].
    apply observed_active_spec in Hobs as [_ Hobs]. destruct Hobs.
    split; [done|]. apply Hin. by right.
  - intros other Hother. apply Bool.eq_iff_eq_true.
    rewrite !observed_active_spec, Ha.
    split; intros [Hact Hack]; (split; [done|]); intros [Hne Hacked];
      apply Hack; (split; [done|]).
    + apply Hin. by left.
    + by apply Hin in Hacked as [Hacked|Hacked].
  - intros Hnd. subst m'. rewrite message_ack_Some by done. cbn [fst].
    destruct (Js.includes _ _) eqn:Hinc; [done|]. simpl.
    apply includes_false in Hinc. apply NoDup_app. split_and!; [done| |].
    + intros x Hx ->%list_elem_of_singleton. done.
    + apply NoDup_singleton.
Qed.

(** The client acknowledges with a no-break space behind its id [X]: the
    server records and hides [X]; under the id as it was sent the message
    still shows. *)
Lemma ack_hides_message_for_that_client_only_witness :
  let m := (message_post 1 1 (Some "Pause") defaultMessage).1 in
  let m' := (message_ack (Some ("X" +:+ Sample.nbsp)) m).1 in
  Js.trim ("X" +:+ Sample.nbsp) = "X" ∧
  observed_active "X" m' = false ∧
  observed_active ("X" +:+ Sample.nbsp) m' = true ∧
  observed_active "Y" m' = true ∧
  acked_by m' = ["X"].
Proof.
  intros m m'.
  assert (Js.trim ("X" +:+ Sample.nbsp) ≠ "") as Hcid
    by decide_by_computation.
  destruct (ack_hides_message_for_that_client_only m ("X" +:+ Sample.nbsp)
              Hcid) as (_ & Hown & _).
  split_and!; [reflexivity|exact Hown|reflexivity..].
Defined.

(** X12. [POST /api/message] answers 400 exactly when the text is
    missing or blank after trimming, and [POST /api/message/ack] answers
    400 exactly when the client id is; a refused request leaves the
    message as it was. *)
Theorem blank_text_and_blank_client_are_refused (now at_ : N)
    (text client_id : option string) (m : Message) :
  ((message_post now at_ text m).2 = Status 400 "Text fehlt" ↔
     Js.trim (default "" text) = "") ∧
  ((message_post now at_ text m).2 = Status 400 "Text fehlt" →
     (message_post now at_ text m).1 = m) ∧
  ((message_ack client_id m).2 = Status 400 "client_id fehlt" ↔
     Js.trim (default "" client_id) = "") ∧
  ((message_ack client_id m).2 = Status 400 "client_id fehlt" →
     (message_ack client_id m).1 = m).
Proof.
  assert (∀ s, negb (Js.truthy s) || negb (Js.truthy (Js.trim s)) = true ↔
               Js.trim s = "") as Hblank.
  { intros s. destruct s as [|a s]; [done|]. cbn [Js.truthy negb orb].
    destruct (Js.trim (String a s)); by simpl. }
  split_and!.
  - unfold message_post. specialize (Hblank (default "" text)).
    destruct (_ || _); simpl.
    + split; [intros _; by apply Hblank|done].
    + split; [done|]. by intros ?%Hblank.
  - unfold message_post. by destruct (_ || _).
  - unfold message_ack. rewrite or_else_empty.
    destruct (Js.trim _) eqn:Hcid; by simpl.
  - unfold message_ack. by destruct (Js.truthy _).
Qed.

(** A text that is a no-break space, the white space of which a text is
    made or not, and an id of a tab and a no-break space are refused. *)
Lemma blank_text_and_blank_client_are_refused_witness :
  let m := (message_post 1 1 (Some "Pause") defaultMessage).1 in
  message_post 2 2 (Some Sample.nbsp) m = (m, Status 400 "Text fehlt") ∧
  message_ack (Some (String "009" Sample.nbsp)) m
    = (m, Status 400 "client_id fehlt") ∧
  (message_post 2 2 (Some ("a" +:+ Sample.nbsp)) m).2
    ≠ Status 400 "Text fehlt".
Proof.
  intros m.
  destruct (blank_text_and_blank_client_are_refused 2 2 (Some Sample.nbsp)
              (Some (String "009" Sample.nbsp)) m)
    as (Htext & Hkeep & Hid & Hkeep').
  destruct (blank_text_and_blank_client_are_refused 2 2
              (Some ("a" +:+ Sample.nbsp)) None m) as (Htext' & _).
  split_and!.
  - apply injective_projections; [apply Hkeep|]; by apply Htext.
  - apply injective_projections; [apply Hkeep'|]; by apply Hid.
  - intros Hrefused%Htext'. vm_compute in Hrefused. discriminate.
Defined.

(** X13. [POST /api/message/clear] hides the message from every client,
    whether it had acknowledged or not, and keeps text and
    acknowledgements; a second clear changes nothing, and no sequence of
    acknowledgements brings the message back. *)
Theorem clear_hides_message_for_everyone (m : Message) :
  let m' := (message_clear m).1 in
  (message_clear m).2 = Json true ∧
  (∀ client_id, observed_active client_id m' = false) ∧
  (∀ client_id, message_get client_id m' = Json m') ∧
  text m' = text m ∧ acked_by m' = acked_by m ∧
  message_clear m' = (m', Json true) ∧
  (∀ client_ids client_id,
     observed_active client_id
       (foldl (λ m c, (message_ack c m).1) m' client_ids) = false).
Proof.
  intros m'.
  assert (∀ m0 c, active m0 = false → observed_active c m0 = false)
    as Hhidden.
  { intros m0 c Hact. unfold observed_active, message_get.
    by rewrite Hact. }
  split_and!; [done|by intros; apply Hhidden|done..|].
  intros client_ids client_id. apply Hhidden.
  assert (active m' = false) as Hact by done. clearbody m'. revert m' Hact.
  induction client_ids as [|c cs IH]; intros m' Hact; simpl; [done|].
  apply IH. by rewrite (proj1 (message_ack_fields c m')).
Qed.

(** X14. Every state of the message that the server can reach is well
    formed: [acked_by] holds no id twice, and only ids that are trimmed
    and not empty; an active message has a text that is trimmed and not
    empty; and the message has an id exactly when it has a creation
    time. *)
Theorem reachable_message_is_well_formed (m : Message) :
  Spec.message_reachable m →
  NoDup (acked_by m) ∧
  (∀ c, c ∈ acked_by m → c ≠ "" ∧ Js.trim c = c) ∧
  (active m = true → text m ≠ "") ∧
  Js.trim (text m) = text m ∧
  (message_id m = None ↔ created m = None).
Proof.
  induction 1 as [|now at_ text0 m _ IH|client_id m _ IH|m _ IH].
  - split_and!; [apply NoDup_nil_2|by intros c ?%not_elem_of_nil|done..].
  - unfold message_post.
    destruct (negb (Js.truthy (default "" text0))
              || negb (Js.truthy (Js.trim (default "" text0)))) eqn:Hb;
      cbn [fst]; [done|].
    apply orb_false_iff in Hb as [_ Hb%negb_false_iff%truthy_true].
    simpl. split_and!;
      [apply NoDup_nil_2|by intros c ?%not_elem_of_nil|done
      |apply trim_idemp|done].
  - destruct IH as (Hnd & Hin & Hact & Htext & Hid).
    pose proof (message_ack_fields client_id m) as (Ha & Ht & Hi & Hc).
    rewrite Ha, Ht, Hi, Hc.
    destruct (decide (Js.trim (default "" client_id) = "")) as [Hcid|Hcid].
    { by rewrite message_ack_blank. }
    destruct client_id as [client_id|]; [|done]. simpl in Hcid.
    split_and!; [|
      |done..].
    + rewrite message_ack_Some by done. cbn [fst].
      destruct (Js.includes _ _) eqn:Hinc; [done|]. simpl.
      apply includes_false in Hinc. apply NoDup_app. split_and!; [done| |].
      * intros x Hx ->%list_elem_of_singleton. done.
      * apply NoDup_singleton.
    + intros c [Hc'| ->]%message_ack_acked_by; [by apply Hin|..|done].
      split; [done|apply trim_idemp].
  - destruct IH as (Hnd & Hin & Hact & Htext & Hid). by split_and!.
Qed.

(** A text and ids with white space around them, no-break spaces among
    it: the text is stored trimmed and the id once. An acknowledgement
    with an id of white space only is refused. *)
Lemma reachable_message_is_well_formed_witness :
  let m := (message_ack (Some Sample.nbsp)
              (message_ack (Some (" X" +:+ Sample.nbsp))
                 (message_ack (Some "X")
                    (message_post 1 2 (Some (Sample.nbsp +:+ "Pause "))
                       defaultMessage).1).1).1).1 in
  acked_by m = ["X"] ∧ text m = "Pause" ∧ NoDup (acked_by m).
Proof.
  intros m.
  assert (Spec.message_reachable m) as Hreach
    by apply Spec.message_acked, Spec.message_acked, Spec.message_acked,
         Spec.message_posted, Spec.message_init.
  destruct (reachable_message_is_well_formed m Hreach) as (Hnd & _).
  split_and!; [reflexivity|reflexivity|exact Hnd].
Defined.

(** *** The message popup of the pages *)

Lemma message_reachable_text (m : Message) :
  Spec.message_reachable m → active m = true → text m ≠ "".
Proof.
  induction 1 as [|now at_ text0 m _ IH|client_id m _ IH|m _ IH].
  - done.
  - unfold message_post.
    destruct (negb (Js.truthy (default "" text0))
              || negb (Js.truthy (Js.trim (default "" text0)))) eqn:Hb;
      cbn [fst]; [done|].
    apply orb_false_iff in Hb as [_ Hb%negb_false_iff%truthy_true]. done.
  - pose proof (message_ack_fields client_id m) as (-> & -> & _). done.
  - done.
Qed.

Lemma message_get_Json (client_id : string) (m : Message) :
  ∃ reply,
    message_get client_id m = Json reply ∧
    text reply = text m ∧
    active reply = observed_active client_id m.
Proof.
  unfold observed_active, message_get.
  destruct (negb (active m)); [by eexists|].
  destruct (_ && _); by eexists.
Qed.

(** X15. The popup of the viewer page and of the current-only page
    follows the server. After a poll the popup is open exactly when the
    server holds an active message the client has not acknowledged; a
    failed poll changes nothing. When the client (whose id is trimmed and
    not empty) acknowledges, the server accepts, the page closes the
    popup, and every later poll keeps it closed until a message is posted;
    when the acknowledgement fails the page is left as it is. *)
Theorem popup_follows_the_server (m : Message) (client_id : string)
    (st : ViewerDashboard.State) (st' : CurrentOnlyDashboard.State) :
  Spec.message_reachable m →
  client_id ≠ "" → Js.trim client_id = client_id →
  (∃ reply,
     message_get client_id m = Json reply ∧
     ViewerDashboard.showPopup
       (ViewerDashboard.fetchMessage (fulfilled (Some reply)) st)
       = observed_active client_id m ∧
     CurrentOnlyDashboard.showPopup
       (CurrentOnlyDashboard.fetchMessage (fulfilled (Some reply)) st')
       = observed_active client_id m) ∧
  ViewerDashboard.fetchMessage rejected st = st ∧
  CurrentOnlyDashboard.fetchMessage rejected st' = st' ∧
  ViewerDashboard.handleAck rejected st = st ∧
  CurrentOnlyDashboard.handleAck rejected st' = st' ∧
  let acked := message_ack (Some client_id) m in
  ViewerDashboard.showPopup
    (ViewerDashboard.handleAck (fulfilled acked.2) st) = false ∧
  CurrentOnlyDashboard.showPopup
    (CurrentOnlyDashboard.handleAck (fulfilled acked.2) st') = false ∧
  ∃ reply,
    message_get client_id acked.1 = Json reply ∧
    ViewerDashboard.showPopup
      (ViewerDashboard.fetchMessage (fulfilled (Some reply)) st) = false ∧
    CurrentOnlyDashboard.showPopup
      (CurrentOnlyDashboard.fetchMessage (fulfilled (Some reply)) st')
      = false.
Proof.
  intros Hreach Hne Htrim.
  assert (∀ m0 reply, Spec.message_reachable m0 →
            message_get client_id m0 = Json reply →
            active reply && Js.truthy (text reply)
            = observed_active client_id m0) as Hshow.
  { intros m0 reply Hm0 Hget.
    destruct (message_get_Json client_id m0) as (r & Hr & Htext & Hact).
    rewrite Hget in Hr. injection Hr as <-. rewrite Hact, Htext.
    destruct (observed_active client_id m0) eqn:Hobs; [|done].
    apply observed_active_spec in Hobs as [Hobs _].
    by rewrite (proj2 (truthy_true _) (message_reachable_text m0 Hm0 Hobs)). }
  split_and!; [|done..|].
  - destruct (message_get_Json client_id m) as (reply & Hget & _).
    exists reply. split_and!; [done|by apply Hshow..].
  - assert (Js.trim client_id ≠ "") as Hcid by by rewrite Htrim.
    intros acked. subst acked. rewrite message_ack_Some by done.
    cbn [fst snd]. split_and!; [done|done|].
    set (m2 := if Js.includes _ _ then _ else _).
    assert (Spec.message_reachable m2) as Hreach2.
    { replace m2 with (message_ack (Some client_id) m).1
        by by rewrite message_ack_Some.
      by apply Spec.message_acked. }
    assert (observed_active client_id m2 = false) as Hhidden.
    { destruct (observed_active client_id m2) eqn:Hobs; [|done].
      apply observed_active_spec in Hobs as [_ Hobs]. destruct Hobs.
      split; [done|]. subst m2.
      destruct (Js.includes _ _) eqn:Hinc; rewrite Htrim in *.
      - by apply includes_elem_of.
      - simpl. apply elem_of_app. right. apply list_elem_of_here. }
    destruct (message_get_Json client_id m2) as (reply & Hget & _).
    exists reply. split_and!; [done|..]; simpl;
      by rewrite (Hshow m2 reply Hreach2 Hget).
Qed.

Lemma popup_follows_the_server_witness :
  let m := (message_post 1 1 (Some "Pause") defaultMessage).1 in
  let st :=
    ViewerDashboard.fetchMessage (fulfilled (Some m)) Sample.viewer_page in
  ViewerDashboard.showPopup st = true ∧
  ViewerDashboard.showPopup
    (ViewerDashboard.handleAck (fulfilled (message_ack (Some "X") m).2) st)
    = false.
Proof.
  intros m st.
  assert (Spec.message_reachable m) as Hreach
    by apply Spec.message_posted, Spec.message_init.
  assert (Js.trim "X" = "X") as Htrim by reflexivity.
  assert ("X" ≠ "") as Hne by done.
  destruct (popup_follows_the_server m "X" st
              {| CurrentOnlyDashboard.schedule := [];
                 CurrentOnlyDashboard.phases := [];
                 CurrentOnlyDashboard.countdown := zero;
                 CurrentOnlyDashboard.currentTime := 0;
                 CurrentOnlyDashboard.message := None;
                 CurrentOnlyDashboard.showPopup := false |}
              Hreach Hne Htrim)
    as (_ & _ & _ & _ & _ & Hack & _).
  split; [reflexivity|exact Hack].
Defined.

(** *** Client ids *)

Lemma pretty_N_char_not_space (d : N) :
  Ascii.is_space (pretty_N_char d) = false ∧
  (N_of_ascii (pretty_N_char d) < 128)%N.
Proof. unfold pretty_N_char. by repeat case_match. Qed.

Lemma pretty_N_go_prefix (x : N) (s : string) :
  ∃ p, pretty_N_go x s = p +:+ s.
Proof.
  revert s. induction (N.lt_wf_0 x) as [x _ IH]; intros s.
  destruct (decide (0 < x)%N) as [Hx|Hx].
  - rewrite pretty_N_go_step by done.
    destruct (IH (x `div` 10)%N (N.div_lt x 10 Hx eq_refl)
                (String (pretty_N_char (x `mod` 10)) s)) as [p ->].
    exists (p +:+ String (pretty_N_char (x `mod` 10)) "").
    by rewrite append_assoc.
  - assert (x = 0%N) as -> by lia. rewrite pretty_N_go_0. by exists "".
Qed.

(** The decimal rendering of a number ends with a digit. *)
Lemma pretty_N_snoc (n : N) :
  ∃ p d, pretty n = p +:+ String (pretty_N_char d) "".
Proof.
  unfold pretty, pretty_N. destruct (decide (n = 0%N)) as [->|Hn].
  - by exists "", 0%N.
  - rewrite pretty_N_go_step by lia.
    destruct (pretty_N_go_prefix (n `div` 10)
                (String (pretty_N_char (n `mod` 10)) "")) as [p ->].
    by exists p, (n `mod` 10)%N.
Qed.

(** The id a page generates is not empty and survives the trimming of the
    [ack] route. *)
Lemma generated_id_trimmed (a : ascii) (prefix rnd : string) (now : N) :
  Ascii.is_space a = false → (N_of_ascii a < 128)%N →
  let v := String a prefix +:+ rnd +:+ "_" +:+ pretty now in
  v ≠ "" ∧ Js.trim v = v.
Proof.
  intros Ha Ha' v. split; [done|]. subst v.
  destruct (pretty_N_snoc now) as (p & d & ->).
  rewrite <-!append_assoc, append_cons.
  rewrite <-append_cons.
  apply trim_id; [done|done|apply pretty_N_char_not_space..].
Qed.

Lemma storage_lookup_insert_ne (storage : Client.Storage) (k k' v : string) :
  k' ≠ k → <[k := v]> storage !! k' = storage !! k'.
Proof. intros H. by apply lookup_insert_ne. Qed.

(** X16. [getClientId] generates an id once: the id it returns is not
    empty and is stored under the page's key, no other key of the storage
    changes, and every later call returns the same id and leaves the
    storage alone, whatever the clock and the random source give. The
    current-only page shares the key, and hence the id, of the viewer
    page; the crew page keeps an id of its own. A generated id is
    accepted by the [ack] route and recorded as it is. *)
Theorem client_id_is_generated_once (rnd : string) (now : N)
    (storage : Client.Storage) :
  let v := (ViewerDashboard.getClientId rnd now storage).1 in
  let storage' := (ViewerDashboard.getClientId rnd now storage).2 in
  let w := (CrewDashboard.getClientId rnd now storage).1 in
  let storage'' := (CrewDashboard.getClientId rnd now storage).2 in
  v ≠ "" ∧ storage' !! "viewer_client_id" = Some v ∧
  (∀ k, k ≠ "viewer_client_id" → storage' !! k = storage !! k) ∧
  (∀ rnd' now',
     ViewerDashboard.getClientId rnd' now' storage' = (v, storage') ∧
     CurrentOnlyDashboard.getClientId rnd' now' storage' = (v, storage')) ∧
  CurrentOnlyDashboard.getClientId rnd now storage = (v, storage') ∧
  w ≠ "" ∧ storage'' !! "crew_client_id" = Some w ∧
  (∀ k, k ≠ "crew_client_id" → storage'' !! k = storage !! k) ∧
  (∀ rnd' now',
     CrewDashboard.getClientId rnd' now' storage'' = (w, storage'')) ∧
  (default "" (storage !! "viewer_client_id") = "" →
     ∀ m, message_ack (Some v) m = message_ack (Some (Js.trim v)) m ∧
          (message_ack (Some v) m).2 = Json true ∧
          v ∈ acked_by (message_ack (Some v) m).1) ∧
  (default "" (storage !! "crew_client_id") = "" →
     ∀ m, (message_ack (Some w) m).2 = Json true ∧
          w ∈ acked_by (message_ack (Some w) m).1).
Proof.
  intros v storage' w storage''.
  assert (∀ u m, u ≠ "" → Js.trim u = u →
            (message_ack (Some u) m).2 = Json true ∧
            u ∈ acked_by (message_ack (Some u) m).1) as Hack.
  { intros u m Hu Htrim.
    assert (Js.trim u ≠ "") as Hcid by by rewrite Htrim.
    split; [by rewrite message_ack_Some|].
    apply message_ack_acked_by; [done|]. by right. }
  subst v storage' w storage''.
  unfold ViewerDashboard.getClientId, CurrentOnlyDashboard.getClientId,
    CrewDashboard.getClientId.
  destruct (generated_id_trimmed "c" "lient_" rnd now eq_refl eq_refl)
    as [Hv Hvt].
  destruct (generated_id_trimmed "c" "rew_" rnd now eq_refl eq_refl)
    as [Hw Hwt].
  cbv zeta in Hv, Hvt, Hw, Hwt.
  change (String "c" "lient_") with "client_" in Hv, Hvt.
  change (String "c" "rew_") with "crew_" in Hw, Hwt.
  split_and!.
  - destruct (Js.truthy (default "" (storage !! "viewer_client_id")))
      eqn:Ht; cbn [fst]; [by apply truthy_true|done].
  - destruct (storage !! "viewer_client_id") as [u|] eqn:Hu;
      cbn [from_option Datatypes.id].
    + destruct (Js.truthy u) eqn:Ht; cbn [fst snd];
        [done|by rewrite lookup_insert_eq].
    + cbn [Js.truthy fst snd]. by rewrite lookup_insert_eq.
  - intros k Hk.
    destruct (Js.truthy (default "" (storage !! "viewer_client_id")));
      cbn [snd]; [done|by apply storage_lookup_insert_ne].
  - intros rnd' now'.
    destruct (Js.truthy (default "" (storage !! "viewer_client_id")))
      eqn:Ht; cbn [fst snd].
    + by rewrite Ht.
    + rewrite lookup_insert_eq. cbn [from_option Datatypes.id].
      by rewrite (proj2 (truthy_true _) Hv).
  - by destruct (Js.truthy _).
  - destruct (Js.truthy (default "" (storage !! "crew_client_id")))
      eqn:Ht; cbn [fst]; [by apply truthy_true|done].
  - destruct (storage !! "crew_client_id") as [u|] eqn:Hu;
      cbn [from_option Datatypes.id].
    + destruct (Js.truthy u) eqn:Ht; cbn [fst snd];
        [done|by rewrite lookup_insert_eq].
    + cbn [Js.truthy fst snd]. by rewrite lookup_insert_eq.
  - intros k Hk.
    destruct (Js.truthy (default "" (storage !! "crew_client_id")));
      cbn [snd]; [done|by apply storage_lookup_insert_ne].
  - intros rnd' now'.
    destruct (Js.truthy (default "" (storage !! "crew_client_id")))
      eqn:Ht; cbn [fst snd].
    + by rewrite Ht.
    + rewrite lookup_insert_eq. cbn [from_option Datatypes.id].
      by rewrite (proj2 (truthy_true _) Hw).
  - intros Hnone m. rewrite Hnone. cbn [Js.truthy fst].
    rewrite Hvt. split; [done|by apply Hack].
  - intros Hnone m. rewrite Hnone. cbn [Js.truthy fst]. by apply Hack.
Qed.

(** *** Dismissal of the popup on the crew page *)

Lemma append_inj_length (s1 s2 t1 t2 : string) :
  String.length s1 = String.length s2 →
  s1 +:+ t1 = s2 +:+ t2 → s1 = s2 ∧ t1 = t2.
Proof.
  revert s2. induction s1 as [|a s1 IH]; intros [|b s2] Hlen; try done.
  rewrite !append_cons. intros [= -> Heq].
  destruct (IH s2) as [-> ->]; [by injection Hlen|done|done].
Qed.

Lemma truthy_append_cons (s : string) (a : ascii) (t u : string) :
  Js.truthy (s +:+ String a t +:+ u) = true.
Proof. by destruct s. Qed.

Lemma getDismissKey_Some (iso : N → string) (m : Message) :
  CrewDashboard.getDismissKey iso (Some m)
  = from_option iso "" (created m) +:+ "__" +:+ text m.
Proof.
  unfold CrewDashboard.getDismissKey. rewrite or_else_empty.
  destruct (created m); [by rewrite or_else_empty|done].
Qed.

Lemma crew_shouldShow (iso : N → string) (clientId : string)
    (storage : Client.Storage) (st : CrewDashboard.State) (m : Message)
    (dismissed : string) :
  storage !! CrewDashboard.getDismissStoreKey clientId = Some dismissed →
  CrewDashboard.showPopup
    (CrewDashboard.fetchMessage iso clientId (fulfilled (Some m)) storage st)
  = active m && Js.truthy (text m)
    && negb (String.eqb (CrewDashboard.getDismissKey iso (Some m))
               dismissed).
Proof.
  intros Hd. unfold CrewDashboard.fetchMessage.
  cbn [CrewDashboard.showPopup]. rewrite Hd, getDismissKey_Some.
  by rewrite truthy_append_cons, andb_true_r.
Qed.

(** X17. When the popup of the crew page is acknowledged, the page
    closes it, marks its copy of the message inactive and stores the
    dismissal under a key of the client, before and whatever the server
    answers. A later poll that brings the same message (same creation
    time and text) keeps the popup closed, even if the server still
    reports the message as active; an active message with another text,
    or with another creation time (rendered with the same length, as ISO
    times are), opens it again. The dismissal of one client id does not
    affect the polls of another. *)
Theorem crew_dismissal_survives_polling (iso : N → string)
    (clientId : string) (storage : Client.Storage)
    (st : CrewDashboard.State) (msg : Message) :
  CrewDashboard.message st = Some msg →
  let st' := (CrewDashboard.handleAck iso clientId storage st).1 in
  let storage' := (CrewDashboard.handleAck iso clientId storage st).2 in
  let poll := λ msg' st0,
    CrewDashboard.showPopup
      (CrewDashboard.fetchMessage iso clientId (fulfilled (Some msg'))
         storage' st0) in
  CrewDashboard.showPopup st' = false ∧
  CrewDashboard.message st' = Some (with_active msg false) ∧
  (∀ k, k ≠ CrewDashboard.getDismissStoreKey clientId →
        storage' !! k = storage !! k) ∧
  (∀ msg' st0,
     created msg' = created msg → text msg' = text msg →
     poll msg' st0 = false) ∧
  (∀ msg' st0,
     active msg' = true → text msg' ≠ "" →
     created msg' = created msg → text msg' ≠ text msg →
     poll msg' st0 = true) ∧
  (∀ msg' st0 t t',
     active msg' = true → text msg' ≠ "" →
     created msg = Some t → created msg' = Some t' →
     String.length (iso t') = String.length (iso t) → iso t' ≠ iso t →
     poll msg' st0 = true) ∧
  (∀ other msg' st0,
     other ≠ clientId →
     CrewDashboard.fetchMessage iso other (fulfilled (Some msg')) storage' st0
     = CrewDashboard.fetchMessage iso other (fulfilled (Some msg')) storage
         st0).
Proof.
  intros Hmsg st' storage' poll. subst st' storage' poll.
  unfold CrewDashboard.handleAck. cbn [fst snd]. rewrite Hmsg.
  split_and!; [done|done|..].
  - intros k Hk. by apply storage_lookup_insert_ne.
  - intros msg' st0 Hcreated Htext.
    rewrite (crew_shouldShow _ _ _ _ _ _ (lookup_insert_eq _ _ _)).
    rewrite !getDismissKey_Some, Hcreated, Htext, String.eqb_refl.
    by rewrite andb_false_r.
  - intros msg' st0 Hact Hne Hcreated Htext.
    rewrite (crew_shouldShow _ _ _ _ _ _ (lookup_insert_eq _ _ _)).
    rewrite Hact, (proj2 (truthy_true _) Hne). cbn [andb].
    apply negb_true_iff, String.eqb_neq.
    rewrite !getDismissKey_Some, Hcreated. intros Heq.
    by apply (inj (append _)), (inj (append _)) in Heq.
  - intros msg' st0 t t' Hact Hne Ht Ht' Hlen Hiso.
    rewrite (crew_shouldShow _ _ _ _ _ _ (lookup_insert_eq _ _ _)).
    rewrite Hact, (proj2 (truthy_true _) Hne). cbn [andb].
    apply negb_true_iff, String.eqb_neq.
    rewrite !getDismissKey_Some, Ht, Ht'. cbn [from_option]. intros Heq.
    by apply append_inj_length in Heq as [? _].
  - intros other msg' st0 Hother. unfold CrewDashboard.fetchMessage.
    rewrite storage_lookup_insert_ne; [done|].
    unfold CrewDashboard.getDismissStoreKey. intros Heq.
    by apply (inj (append _)) in Heq.
Qed.

Lemma crew_dismissal_survives_polling_witness :
  let iso := λ t : N, "T" +:+ pretty t in
  let m := (message_post 1 1 (Some "Pause") defaultMessage).1 in
  let m' := (message_post 2 2 (Some "Pause") m).1 in
  let st :=
    CrewDashboard.fetchMessage iso "c1" (fulfilled (Some m)) ∅
      Sample.crew_page in
  let acked := CrewDashboard.handleAck iso "c1" ∅ st in
  CrewDashboard.showPopup st = true ∧
  CrewDashboard.showPopup acked.1 = false ∧
  CrewDashboard.showPopup
    (CrewDashboard.fetchMessage iso "c1" (fulfilled (Some m)) acked.2
       acked.1) = false ∧
  CrewDashboard.showPopup
    (CrewDashboard.fetchMessage iso "c1" (fulfilled (Some m')) acked.2
       acked.1) = true.
Proof.
  intros iso m m' st acked.
  assert (CrewDashboard.message st = Some m) as Hmsg by reflexivity.
  destruct (crew_dismissal_survives_polling iso "c1" ∅ st m Hmsg)
    as (Hclosed & _ & _ & Hsame & _ & Hnew & _).
  split_and!; [reflexivity|exact Hclosed| |].
  - by apply Hsame.
  - apply (Hnew m' _ 1%N 2%N); [done|done|done|done|reflexivity|].
    decide_by_computation.
Defined.

(** *** The digits of the countdown *)

Lemma length_fill (k : nat) (c : ascii) (s : string) :
  String.length (Js.fill k c s) = (k + String.length s)%nat.
Proof. induction k as [|k IH]; simpl; [done|by rewrite IH]. Qed.

Lemma length_padStart (n : nat) (c : ascii) (s : string) :
  String.length (Js.padStart n c s) = (n `max` String.length s)%nat.
Proof. unfold Js.padStart. rewrite length_fill. lia. Qed.

Lemma is_nat_not_space (a : ascii) (d : nat) :
  Ascii.is_nat a = Some d →
  Ascii.is_space a = false ∧ (N_of_ascii a < 128)%N.
Proof. by destruct a as [[] [] [] [] [] [] [] []]. Qed.

Lemma is_nat_pretty_N_char (d : N) :
  (d < 10)%N → Ascii.is_nat (pretty_N_char d) = Some (N.to_nat d).
Proof.
  intros Hd.
  assert (d ∈ N.of_nat <$> seq 0 10) as Hin.
  { apply list_elem_of_fmap. exists (N.to_nat d).
    split; [lia|apply list_elem_of_In, in_seq; lia]. }
  clear Hd. simpl in Hin.
  repeat (apply elem_of_cons in Hin as [->|Hin]; [reflexivity|]).
  by apply not_elem_of_nil in Hin.
Qed.

Lemma digits_go_is_Some (acc acc' : Z) (s : string) :
  is_Some (Js.digits_go acc s) → is_Some (Js.digits_go acc' s).
Proof.
  revert acc acc'. induction s as [|a s IH]; intros acc acc'; simpl;
    [by eauto|].
  destruct (Ascii.is_nat a); [apply IH|done].
Qed.

Lemma digits_go_afterSpace (acc : Z) (fromEnd : bool) (s : string) :
  is_Some (Js.digits_go acc s) → Js.afterSpace fromEnd s = None.
Proof.
  destruct s as [|a s]; [done|]. simpl.
  destruct (Ascii.is_nat a) as [d|] eqn:Ha; [|by intros [? ?]].
  intros _. destruct (is_nat_not_space a d Ha). by apply afterSpace_plain.
Qed.

Lemma digits_go_rev_app (acc : Z) (s t : string) :
  is_Some (Js.digits_go acc s) → is_Some (Js.digits_go acc t) →
  is_Some (Js.digits_go acc (String.rev_app s t)).
Proof.
  revert t. induction s as [|a s IH]; intros t; simpl; [done|].
  destruct (Ascii.is_nat a) as [d|] eqn:Ha; [|by intros [? ?]].
  intros Hs Ht. apply IH.
  - by apply (digits_go_is_Some (10 * acc + Z.of_nat d)).
  - simpl. rewrite Ha. by apply (digits_go_is_Some acc).
Qed.

(** A string of digits is its own trimming. *)
Lemma trim_digits (acc : Z) (s : string) :
  is_Some (Js.digits_go acc s) → Js.trim s = s.
Proof.
  intros Hs. apply trim_fixed.
  - by apply (digits_go_afterSpace acc).
  - apply (digits_go_afterSpace acc).
    apply digits_go_rev_app; [done|by eexists].
Qed.

Lemma digits_go_pretty_N_go (x : N) (s : string) :
  Js.digits_go 0 (pretty_N_go x s) = Js.digits_go (Z.of_N x) s.
Proof.
  revert s. induction (N.lt_wf_0 x) as [x _ IH]; intros s.
  destruct (decide (0 < x)%N) as [Hx|Hx].
  - rewrite pretty_N_go_step by done.
    rewrite (IH (x `div` 10)%N (N.div_lt x 10 Hx eq_refl)). simpl.
    rewrite is_nat_pretty_N_char by (apply N.mod_lt; lia).
    f_equal. pose proof (N.div_mod x 10 ltac:(lia)). lia.
  - assert (x = 0%N) as -> by lia. by rewrite pretty_N_go_0.
Qed.

Lemma digits_go_pretty (n : Z) :
  0 ≤ n → Js.digits_go 0 (pretty n) = Some n.
Proof.
  intros Hn. destruct n as [|p|p]; [done| |lia].
  change (pretty (Z.pos p)) with (pretty_N_go (N.pos p) "").
  by rewrite digits_go_pretty_N_go.
Qed.

Lemma digits_go_fill (k : nat) (s : string) :
  Js.digits_go 0 (Js.fill k "0" s) = Js.digits_go 0 s.
Proof. induction k as [|k IH]; [done|]. simpl. apply IH. Qed.

(** Reading a printed number back gives the number. *)
Lemma Number_padStart_pretty (n : Z) (k : nat) :
  0 ≤ n → Js.Number (Js.padStart k "0" (pretty n)) = Js.Num n.
Proof.
  intros Hn. unfold Js.Number, Js.padStart.
  assert (Js.digits_go 0 (Js.fill (k - String.length (pretty n)) "0"
                            (pretty n)) = Some n) as Hd
    by by rewrite digits_go_fill, digits_go_pretty.
  rewrite (trim_digits 0); [by rewrite Hd|by rewrite Hd].
Qed.

Lemma length_pretty_below_100 (n : Z) :
  0 ≤ n < 100 → (String.length (pretty n) ≤ 2)%nat.
Proof.
  intros Hn.
  assert (n ∈ Z.of_nat <$> seq 0 100) as Hin.
  { apply list_elem_of_fmap. exists (Z.to_nat n).
    split; [lia|apply list_elem_of_In, in_seq; lia]. }
  revert Hin. generalize n. apply Forall_forall.
  decide_by_computation.
Qed.

Lemma countdown_bounds (tz : Js.Zone) (now now' : Z)
    (schedule : list ScheduleItem) (is_paused : bool) :
  let c := ViewerDashboard.calculateCountdown tz now now' schedule is_paused in
  0 ≤ hours c ∧ 0 ≤ minutes c < 60 ∧ 0 ≤ seconds c < 60.
Proof.
  intros c. subst c. unfold ViewerDashboard.calculateCountdown.
  destruct (Js.find _ _); [|by simpl; lia].
  destruct is_paused; [by simpl; lia|]. cbv zeta.
  destruct (Js.setHours _ _ _ _) as [e|]; [|by simpl; lia].
  destruct (Z.ltb_spec 0 (e - now)) as [Hpos|Hneg]; [|by simpl; lia].
  cbn [hours minutes seconds].
  change (1000 * 60 * 60) with 3600000. change (1000 * 60) with 60000.
  revert Hpos. generalize (e - now). intros d Hpos.
  Z.div_mod_to_equations. lia.
Qed.

(** X18. Whatever the schedule, the end time and the clock: the
    countdown a page computes has hours that are not negative and minutes
    and seconds between 0 and 59, so [formatTime] prints minutes and
    seconds with exactly two characters and hours with at least two; and
    what is printed reads back as the number it stands for. The four
    pages print alike. *)
Theorem countdown_prints_two_digits (tz : Js.Zone) (now now' : Z)
    (schedule : list ScheduleItem) (is_paused : bool) :
  let c := ViewerDashboard.calculateCountdown tz now now' schedule is_paused in
  (0 ≤ hours c ∧ 0 ≤ minutes c < 60 ∧ 0 ≤ seconds c < 60) ∧
  (2 ≤ String.length (ViewerDashboard.formatTime (hours c)))%nat ∧
  String.length (ViewerDashboard.formatTime (minutes c)) = 2%nat ∧
  String.length (ViewerDashboard.formatTime (seconds c)) = 2%nat ∧
  Js.Number (ViewerDashboard.formatTime (hours c)) = Js.Num (hours c) ∧
  Js.Number (ViewerDashboard.formatTime (minutes c)) = Js.Num (minutes c) ∧
  Js.Number (ViewerDashboard.formatTime (seconds c)) = Js.Num (seconds c) ∧
  (∀ n, CrewDashboard.formatTime n = ViewerDashboard.formatTime n ∧
        CurrentOnlyDashboard.formatTime n = ViewerDashboard.formatTime n ∧
        AdminOverview.formatTime n = ViewerDashboard.formatTime n) ∧
  CrewDashboard.calculateCountdown tz now now' schedule is_paused = c ∧
  CurrentOnlyDashboard.calculateCountdown tz now now' schedule is_paused
    = c ∧
  AdminOverview.calculateCountdown tz now now' schedule is_paused = c.
Proof.
  intros c.
  pose proof (countdown_bounds tz now now' schedule is_paused)
    as (Hh & Hm & Hs). fold c in Hh, Hm, Hs.
  assert (∀ n, 0 ≤ n < 60 →
            String.length (ViewerDashboard.formatTime n) = 2%nat) as Htwo.
  { intros n Hn. unfold ViewerDashboard.formatTime.
    rewrite length_padStart.
    pose proof (length_pretty_below_100 n ltac:(lia)). lia. }
  split; [done|].
  split_and!;
    [ |by apply Htwo|by apply Htwo
    |apply Number_padStart_pretty; lia|apply Number_padStart_pretty; lia
    |apply Number_padStart_pretty; lia|done..].
  unfold ViewerDashboard.formatTime. rewrite length_padStart. lia.
Qed.

(** *** The session of the admin pages *)

Lemma auth_reachable_inv (c : AuthContext.State * Client.Storage) :
  Spec.auth_reachable c →
  AuthContext.loading c.1 = false ∧
  (AuthContext.isAuthenticated c.1 = true ↔ is_Some (AuthContext.token c.1)) ∧
  (∀ t, AuthContext.token c.1 = Some t → t ≠ "" ∧ c.2 !! "token" = Some t) ∧
  (AuthContext.token c.1 = None → default "" (c.2 !! "token") = "").
Proof.
  induction 1 as [storage|e [st storage] _ (Hl & Ha & Ht & Hn)].
  - unfold AuthContext.mount. cbn [fst snd].
    destruct (Js.truthy (default "" (storage !! "token"))) eqn:Hs; simpl.
    + apply truthy_true in Hs.
      split_and!; [done|by split; eauto| |done].
      intros t [= <-]. split; [done|].
      by destruct (storage !! "token").
    + split_and!; [done|by split; [|intros [? ?]]|done|].
      intros _. by destruct (default "" (storage !! "token")).
  - cbn [fst snd] in *. destruct e as [[newToken|]|]; simpl.
    + destruct (Js.truthy (default "" newToken)) eqn:Hs; simpl; [|done].
      apply truthy_true in Hs.
      split_and!; [done|by split; eauto| |done].
      intros t [= <-]. split; [done|]. by rewrite lookup_insert_eq.
    + done.
    + split_and!; [done|by split; [|intros [? ?]]|done|].
      intros _. by rewrite lookup_delete_eq.
Qed.

(** X19. In every state a mounted [AuthProvider] reaches, loading is
    over; the provider is authenticated exactly when it holds a token;
    the token it holds is not empty and is the one in the storage, so a
    reload of the page (a new mount on the same storage) restores the
    session; a login that fails changes neither state nor storage; and
    after a logout the provider holds no token, the storage has none, and
    the header it builds is [Bearer null]. *)
Theorem auth_state_mirrors_the_storage
    (c : AuthContext.State * Client.Storage) :
  Spec.auth_reachable c →
  AuthContext.loading c.1 = false ∧
  (AuthContext.isAuthenticated c.1 = true ↔ is_Some (AuthContext.token c.1)) ∧
  (∀ t, AuthContext.token c.1 = Some t → t ≠ "" ∧ c.2 !! "token" = Some t) ∧
  AuthContext.token (AuthContext.mount c.2 AuthContext.initial)
    = AuthContext.token c.1 ∧
  AuthContext.isAuthenticated (AuthContext.mount c.2 AuthContext.initial)
    = AuthContext.isAuthenticated c.1 ∧
  (∀ res, (AuthContext.login res c.2 c.1).2 = false →
          (AuthContext.login res c.2 c.1).1 = c) ∧
  (∀ res, (AuthContext.login res c.2 c.1).2 = true →
          ∃ t, res = fulfilled (Some t) ∧ t ≠ "" ∧
               AuthContext.getAuthHeader (AuthContext.login res c.2 c.1).1.1
               = "Bearer " +:+ t) ∧
  (let out := AuthContext.logout c.2 c.1 in
   AuthContext.token out.1 = None ∧
   AuthContext.isAuthenticated out.1 = false ∧
   out.2 !! "token" = None ∧
   AuthContext.getAuthHeader out.1 = "Bearer null" ∧
   AuthContext.isAuthenticated (AuthContext.mount out.2 AuthContext.initial)
     = false).
Proof.
  intros (Hl & Ha & Ht & Hn)%auth_reachable_inv.
  destruct c as [st storage]. cbn [fst snd] in *.
  do 3 (split; [done|]). split; [|split; [|split; [|split]]].
  - unfold AuthContext.mount.
    destruct (AuthContext.token st) as [t|] eqn:Htok.
    + destruct (Ht t eq_refl) as [Hne ->]. cbn [from_option Datatypes.id].
      by rewrite (proj2 (truthy_true _) Hne).
    + by rewrite (Hn eq_refl).
  - unfold AuthContext.mount.
    destruct (AuthContext.token st) as [t|] eqn:Htok.
    + destruct (Ht t eq_refl) as [Hne ->]. cbn [from_option Datatypes.id].
      rewrite (proj2 (truthy_true _) Hne). simpl. symmetry. apply Ha. eauto.
    + rewrite (Hn eq_refl). simpl.
      destruct (AuthContext.isAuthenticated st); [|done].
      by destruct (proj1 Ha eq_refl).
  - intros [newToken|]; simpl; [|done].
    by destruct (Js.truthy (default "" newToken)).
  - intros [newToken|]; simpl; [|done].
    destruct (Js.truthy (default "" newToken)) eqn:Hs; simpl; [|done].
    intros _. apply truthy_true in Hs.
    destruct newToken as [t|]; [|done]. by exists t.
  - simpl. split_and!; [done|done|by rewrite lookup_delete_eq|done|].
    unfold AuthContext.mount. by rewrite lookup_delete_eq.
Qed.

Lemma auth_state_mirrors_the_storage_witness :
  let c := AuthContext.step (AuthContext.Login (fulfilled (Some "t0k3n")))
             (AuthContext.mount ∅ AuthContext.initial, ∅) in
  AuthContext.isAuthenticated c.1 = true ∧
  AuthContext.token (AuthContext.mount c.2 AuthContext.initial)
    = Some "t0k3n".
Proof.
  intros c.
  assert (Spec.auth_reachable c) as Hreach
    by apply Spec.auth_step, Spec.auth_mounted.
  destruct (auth_state_mirrors_the_storage c Hreach)
    as (_ & _ & _ & Hreload & _).
  split; [reflexivity|]. rewrite Hreload. reflexivity.
Defined.

(** *** Toggles of the people and groups pages *)

Lemma toggle_list_spec (l : list string) (p : string) :
  let l' := if Js.includes l p then filter (λ x, x ≠ p) l else l ++ [p] in
  (p ∈ l' ↔ p ∉ l) ∧
  (∀ x, x ≠ p → x ∈ l' ↔ x ∈ l) ∧
  (NoDup l → NoDup l') ∧
  (p ∉ l → filter (λ x, x ≠ p) l' = l).
Proof.
  intros l'. subst l'.
  destruct (Js.includes l p) eqn:Hinc.
  - apply includes_elem_of in Hinc. split_and!.
    + rewrite list_elem_of_filter. split; [by intros [? _]|done].
    + intros x Hx. rewrite list_elem_of_filter.
      split; [by intros [_ ?]|done].
    + apply NoDup_filter.
    + done.
  - apply includes_false in Hinc. split_and!.
    + rewrite elem_of_app, list_elem_of_singleton. split; [done|by right].
    + intros x Hx. rewrite elem_of_app, list_elem_of_singleton.
      split; [by intros [?|?]|by left].
    + intros Hnd. apply NoDup_app. split_and!; [done| |apply NoDup_singleton].
      by intros x Hx ->%list_elem_of_singleton.
    + intros _. rewrite filter_app, filter_cons_False, filter_nil, app_nil_r
        by (by intros []).
      apply filter_all. apply Forall_forall. by intros x Hx ->.
Qed.

(** X20. A toggle flips the membership of the person and of nobody
    else: on the groups page ([togglePerson]) and in the group form of the
    people page ([toggleMember]) the toggled id is a member afterwards
    exactly when it was not before, every other id keeps its membership, a
    list without repetitions stays without, and toggling an id in and out
    again gives the list back. [toggleExpanded] does the same to the set
    of expanded groups, where toggling twice changes nothing. *)
Theorem toggle_flips_one_membership (member_ids : list string)
    (expanded : gset string) (p : string) :
  let toggled := AdminGroups.togglePerson member_ids p in
  (p ∈ toggled ↔ p ∉ member_ids) ∧
  (∀ x, x ≠ p → x ∈ toggled ↔ x ∈ member_ids) ∧
  (NoDup member_ids → NoDup toggled) ∧
  (p ∉ member_ids → AdminGroups.togglePerson toggled p = member_ids) ∧
  AdminPeople.toggleMember p member_ids = toggled ∧
  (p ∈ AdminPeople.toggleExpanded p expanded ↔ p ∉ expanded) ∧
  (∀ x, x ≠ p → x ∈ AdminPeople.toggleExpanded p expanded ↔ x ∈ expanded) ∧
  AdminPeople.toggleExpanded p (AdminPeople.toggleExpanded p expanded)
    = expanded.
Proof.
  intros toggled.
  pose proof (toggle_list_spec member_ids p) as (Hp & Hx & Hnd & Hback).
  split_and!; [done|done|done| |done|..].
  - intros Hnot. subst toggled. unfold AdminGroups.togglePerson.
    rewrite (proj2 (includes_elem_of _ _) (proj2 Hp Hnot)). by apply Hback.
  all: clear Hp Hx Hnd Hback; clear toggled member_ids.
  - unfold AdminPeople.toggleExpanded. case_bool_decide as Hin;
      rewrite ?elem_of_union, ?elem_of_difference, elem_of_singleton;
      intuition congruence.
  - intros x Hne. unfold AdminPeople.toggleExpanded.
    case_bool_decide as Hin;
      rewrite ?elem_of_union, ?elem_of_difference, elem_of_singleton;
      intuition congruence.
  - apply set_eq. intros x. unfold AdminPeople.toggleExpanded.
    destruct (decide (p ∈ expanded)) as [Hin|Hin].
    + rewrite (bool_decide_eq_true_2 _ Hin).
      rewrite bool_decide_eq_false_2
        by (rewrite elem_of_difference, elem_of_singleton; intuition).
      rewrite elem_of_union, elem_of_difference, elem_of_singleton.
      destruct (decide (x = p)) as [->|Hne]; intuition.
    + rewrite (bool_decide_eq_false_2 _ Hin).
      rewrite bool_decide_eq_true_2
        by (rewrite elem_of_union, elem_of_singleton; intuition).
      rewrite elem_of_difference, elem_of_union, elem_of_singleton.
      destruct (decide (x = p)) as [->|Hne]; intuition.
Qed.

(** *** Names on the crew page *)

Lemma setFrom_elem_of (seen arr : list string) (x : string) :
  x ∈ Js.setFrom seen arr ↔ x ∈ arr ∧ x ∉ seen.
Proof.
  revert seen. induction arr as [|y arr IH]; intros seen; simpl.
  { split; [by intros ?%not_elem_of_nil|by intros [?%not_elem_of_nil _]]. }
  destruct (Js.includes seen y) eqn:Hinc.
  - apply includes_elem_of in Hinc. rewrite IH, elem_of_cons.
    split; [by intros [? ?]; split; [right|]|].
    intros [[->|?] ?]; done.
  - apply includes_false in Hinc. rewrite !elem_of_cons, IH, elem_of_cons.
    split.
    + intros [->|[? ?]]; [by split; [left|]|]. split; [by right|]. tauto.
    + intros [[->|?] ?]; [by left|].
      destruct (decide (x = y)) as [->|?]; [by left|right]. tauto.
Qed.




Lemma uniq_elem_of (arr : list string) (x : string) :
  x ∈ CrewDashboard.uniq arr ↔ x ∈ arr ∧ x ≠ "".
Proof.
  unfold CrewDashboard.uniq. rewrite setFrom_elem_of, list_elem_of_filter.
  rewrite Is_true_true, truthy_true. split.
  - by intros [[? ?] _].
  - intros [? ?]. split; [done|apply not_elem_of_nil].
Qed.

Lemma join_cons_nonempty (sep x : string) (l : list string) :
  x ≠ "" → Js.join sep (x :: l) ≠ "".
Proof. intros Hx. simpl. destruct l; [done|]. by destruct x. Qed.

Lemma joinNice_nonempty (arr : list string) (x : string) :
  x ∈ arr → x ≠ "" → CrewDashboard.joinNice arr ≠ "".
Proof.
  intros Hx Hne. unfold CrewDashboard.joinNice.
  destruct (CrewDashboard.uniq arr) as [|y l] eqn:Hu.
  - assert (x ∈ CrewDashboard.uniq arr) as Hin by by apply uniq_elem_of.
    rewrite Hu in Hin. by apply not_elem_of_nil in Hin.
  - apply join_cons_nonempty.
    assert (y ∈ CrewDashboard.uniq arr) as Hin
      by (rewrite Hu; apply list_elem_of_here).
    by apply uniq_elem_of in Hin as [_ ?].
Qed.


Lemma filter_none {A} (P : A → Prop) `{∀ x, Decision (P x)} (l : list A) :
  Forall (λ x, ¬ P x) l → filter P l = [].
Proof.
  induction 1 as [|x l Hx _ IH]; [done|]. by rewrite filter_cons_False.
Qed.

Lemma resolve_spec {A} (get_id get_name : A → string) (xs : list A)
    (ids : list string) :
  let names :=
    filter (λ n, Is_true (Js.truthy n))
      (get_name <$> filter (λ p, Is_true (Js.includes ids (get_id p))) xs) in
  let r :=
    if bool_decide (names = []) && negb (bool_decide (ids = [])) then ids
    else names in
  (r = [] ↔ ids = []) ∧
  (∀ x, x ∈ xs → get_id x ∈ ids → get_name x ≠ "" →
        get_name x ∈ r ∧ r = names) ∧
  (∀ n, n ∈ r →
        r = ids ∨
        n ≠ "" ∧ ∃ x, x ∈ xs ∧ get_id x ∈ ids ∧ get_name x = n) ∧
  ((∃ i, i ∈ ids ∧ i ≠ "") → CrewDashboard.joinNice r ≠ "").
Proof.
  intros names r.
  assert (∀ n, n ∈ names ↔
            n ≠ "" ∧ ∃ x, x ∈ xs ∧ get_id x ∈ ids ∧ get_name x = n)
    as Hnames.
  { intros n. subst names.
    rewrite list_elem_of_filter, Is_true_true, truthy_true, list_elem_of_fmap.
    split.
    - intros [Hne (x & -> & [Hx Hin]%list_elem_of_filter)].
      apply Is_true_true, includes_elem_of in Hx. eauto.
    - intros [Hne (x & Hin & Hx & <-)]. split; [done|]. exists x.
      split; [done|]. apply list_elem_of_filter.
      split; [|done]. by apply Is_true_true, includes_elem_of. }
  assert (ids = [] → names = []) as Hempty.
  { intros ->. subst names. rewrite (filter_none _ xs); [done|].
    apply Forall_forall. by intros x _ []. }
  split_and!.
  - subst r. destruct (decide (names = [])) as [Hn|Hn];
      destruct (decide (ids = [])) as [Hi|Hi].
    + by rewrite (bool_decide_eq_true_2 _ Hn), (bool_decide_eq_true_2 _ Hi).
    + by rewrite (bool_decide_eq_true_2 _ Hn), (bool_decide_eq_false_2 _ Hi).
    + by destruct (Hn (Hempty Hi)).
    + by rewrite (bool_decide_eq_false_2 _ Hn).
  - intros x Hx Hid Hname.
    assert (get_name x ∈ names) as Hin by (apply Hnames; eauto).
    assert (names ≠ []) as Hn by (intros E; rewrite E in Hin;
                                  by apply not_elem_of_nil in Hin).
    subst r. by rewrite (bool_decide_eq_false_2 _ Hn).
  - intros n Hn. subst r. destruct (_ && _); [by left|right].
    by apply Hnames.
  - intros (i & Hi & Hne). subst r.
    destruct (_ && _) eqn:Hc; [by apply (joinNice_nonempty ids i)|].
    destruct names as [|n names'] eqn:Hn.
    + rewrite bool_decide_eq_true_2 in Hc by done. simpl in Hc.
      apply negb_false_iff, bool_decide_eq_true_1 in Hc. subst ids.
      by apply not_elem_of_nil in Hi.
    + apply (joinNice_nonempty _ n); [apply list_elem_of_here|].
      apply (Hnames n). apply list_elem_of_here.
Qed.

(** X22. Of the people and groups of an entry the crew page always
    shows something: the resolved list is empty only when the entry names
    no ids. Every person (group) of the collection whose id the entry
    names and whose name is not empty appears by name; what appears is
    such a name, unless no id resolves, in which case the ids themselves
    are shown. When the entry names an id that is not empty the text
    [joinNice] makes of the list is not empty. *)
Theorem crew_names_fall_back_to_ids (people : list Person.t)
    (groups : list Group.t) (ids : list string) :
  let shown := CrewDashboard.resolvePeopleNames people ids in
  let shown' := CrewDashboard.resolveGroupNames groups ids in
  (shown = [] ↔ ids = []) ∧ (shown' = [] ↔ ids = []) ∧
  (∀ p, p ∈ people → Person.id p ∈ ids → Person.name p ≠ "" →
        Person.name p ∈ shown) ∧
  (∀ g, g ∈ groups → Group.id g ∈ ids → Group.name g ≠ "" →
        Group.name g ∈ shown') ∧
  (∀ n, n ∈ shown →
        shown = ids ∨
        n ≠ "" ∧ ∃ p, p ∈ people ∧ Person.id p ∈ ids ∧ Person.name p = n) ∧
  (∀ n, n ∈ shown' →
        shown' = ids ∨
        n ≠ "" ∧ ∃ g, g ∈ groups ∧ Group.id g ∈ ids ∧ Group.name g = n) ∧
  ((∃ i, i ∈ ids ∧ i ≠ "") →
     CrewDashboard.joinNice shown ≠ "" ∧ CrewDashboard.joinNice shown' ≠ "").
Proof.
  intros shown shown'.
  pose proof (resolve_spec Person.id Person.name people ids)
    as (He & Hin & Hout & Hj).
  pose proof (resolve_spec Group.id Group.name groups ids)
    as (He' & Hin' & Hout' & Hj').
  split_and!; [done|done| | |done|done|by split; [apply Hj|apply Hj']].
  - intros p Hp Hid Hname. by apply Hin.
  - intros g Hg Hid Hname. by apply Hin'.
Qed.

(** *** Drag and drop on the schedule page *)

Lemma findIndex_id (schedule : list ScheduleItem) (i : nat)
    (x : ScheduleItem) :
  NoDup (id <$> schedule) → schedule !! i = Some x →
  Js.findIndex (λ it, String.eqb (id it) (id x)) schedule = Z.of_nat i.
Proof.
  intros Hnd Hx. apply findIndex_Some.
  - by eapply lookup_lt_Some.
  - intros x' Hx'. rewrite Hx in Hx'. injection Hx' as <-.
    apply String.eqb_refl.
  - intros j y Hj Hy. apply String.eqb_neq. intros Heq.
    assert (j = i); [|lia].
    apply (NoDup_lookup (id <$> schedule) j i (id x) Hnd).
    + by rewrite list_lookup_fmap, Hy, <-Heq.
    + by rewrite list_lookup_fmap, Hx.
Qed.

Lemma spliceStart_nat (len k : nat) :
  (k ≤ len)%nat → Js.spliceStart len (Z.of_nat k) = k.
Proof.
  intros Hk. unfold Js.spliceStart.
  destruct (Z.ltb_spec (Z.of_nat k) 0); lia.
Qed.

(** [arrayMove] on two positions of the array: the element at [i] is
    taken out and put in again at [j]. *)
Lemma arrayMove_positions {A} (array : list A) (i j : nat) (x : A) :
  array !! i = Some x → (j < length array)%nat →
  AdminSchedule.arrayMove array (Z.of_nat i) (Z.of_nat j)
  = Some <$> (take j (delete i array) ++ x :: drop j (delete i array)).
Proof.
  intros Hx Hj. pose proof (lookup_lt_Some _ _ _ Hx) as Hi.
  unfold AdminSchedule.arrayMove, Js.splice_remove, Js.splice_insert.
  rewrite length_fmap, (spliceStart_nat _ i) by lia.
  destruct (Z.ltb_spec (Z.of_nat j) 0) as [?|_]; [lia|].
  rewrite <-delete_take_drop.
  assert (length (delete i (Some <$> array)) = (length array - 1)%nat)
    as Hlen.
  { rewrite length_delete; [by rewrite length_fmap|].
    rewrite list_lookup_fmap, Hx. by eexists. }
  rewrite Hlen, (spliceStart_nat _ j) by lia.
  rewrite (drop_S _ (Some x) i) by by rewrite list_lookup_fmap, Hx.
  cbn [take head mjoin option_join].
  by rewrite fmap_app, fmap_cons, fmap_take, fmap_drop, list_fmap_delete.
Qed.

(** X23. Dragging an entry onto another one puts it at the position of
    the other: with pairwise distinct ids, the dragged entry of position
    [i] is at position [j] in the array the page shows and in the ids it
    submits, and the other entries keep their relative order. Dropping an
    entry on itself, or outside the list, changes nothing and sends
    nothing. The backend serves the request [PUT /schedule/reorder] by the
    route [/api/schedule/:id]: unless an entry has the id [reorder], the
    reply is 404 and the stored order stays. *)
Theorem drag_puts_entry_at_target (schedule : list ScheduleItem)
    (i j : nat) (x y : ScheduleItem) :
  NoDup (id <$> schedule) →
  schedule !! i = Some x → schedule !! j = Some y → i ≠ j →
  let moved := take j (delete i schedule) ++ x :: drop j (delete i schedule) in
  AdminSchedule.handleDragEnd (id x) (Some (id y)) schedule
    = Some (Some <$> moved, Some (id <$> moved)) ∧
  moved !! j = Some x ∧
  delete j moved = delete i schedule ∧
  length moved = length schedule ∧
  AdminSchedule.handleDragEnd (id x) (Some (id x)) schedule = None ∧
  AdminSchedule.handleDragEnd (id x) None schedule = None ∧
  ("reorder" ∉ id <$> schedule →
     ∀ body, schedule_put "reorder" body schedule = (schedule, NotFound)).
Proof.
  intros Hnd Hx Hy Hij moved.
  pose proof (lookup_lt_Some _ _ _ Hx) as Hi.
  pose proof (lookup_lt_Some _ _ _ Hy) as Hj.
  assert (length (delete i schedule) = (length schedule - 1)%nat) as Hlen
    by (apply length_delete; by eexists).
  assert (length (take j (delete i schedule)) = j) as Htake
    by (rewrite length_take; lia).
  split_and!.
  - unfold AdminSchedule.handleDragEnd.
    assert (id x ≠ id y) as Hne.
    { intros Heq. apply Hij.
      apply (NoDup_lookup (id <$> schedule) i j (id x) Hnd).
      - by rewrite list_lookup_fmap, Hx.
      - by rewrite list_lookup_fmap, Hy, Heq. }
    rewrite (proj2 (String.eqb_neq _ _) Hne).
    rewrite (findIndex_id schedule i x Hnd Hx).
    rewrite (findIndex_id schedule j y Hnd Hy).
    rewrite (arrayMove_positions schedule i j x Hx Hj).
    by rewrite mapM_fmap_Some_all.
  - subst moved. by apply list_lookup_middle.
  - subst moved. rewrite <-Htake at 1. rewrite delete_middle.
    apply take_drop.
  - subst moved. rewrite length_app, Htake. simpl. rewrite length_drop. lia.
  - unfold AdminSchedule.handleDragEnd. by rewrite String.eqb_refl.
  - done.
  - intros Hnone body. by apply schedule_put_reorder.
Qed.

Lemma drag_puts_entry_at_target_witness :
  AdminSchedule.handleDragEnd "A" (Some "C") Sample.abc
    = Some (Some <$> [Sample.entry "B" "11:30" false;
                      Sample.entry "C" "12:45" false;
                      Sample.entry "A" "10:00" false],
            Some ["B"; "C"; "A"]).
Proof.
  assert (NoDup (id <$> Sample.abc)) as Hnd by decide_by_computation.
  destruct (drag_puts_entry_at_target Sample.abc 0 2
              (Sample.entry "A" "10:00" false)
              (Sample.entry "C" "12:45" false) Hnd
              eq_refl eq_refl ltac:(done)) as (Hdrag & _).
  exact Hdrag.
Defined.

(** *** The controls of the overview page *)

Lemma count_current_step (m : Mutation) (schedule : list ScheduleItem) :
  (0 < length schedule)%nat → Spec.is_step m →
  count_current (apply m schedule) = 1%nat.
Proof.
  intros Hlen Hm.
  assert (count_current (apply m schedule) ≤ 1)%nat as Hle
    by (destruct Hm as [-> | ->]; apply count_current_mark).
  assert (count_current (apply m schedule) ≠ 0%nat) as Hne; [|lia].
  intros Hzero%count_current_zero.
  assert (getCurrentIndex (apply m schedule) = -1) as Hidx
    by by apply findIndex_None.
  rewrite getCurrentIndex_apply_step in Hidx by done.
  pose proof (getCurrentIndex_bounds schedule) as Hb.
  destruct Hm as [-> | ->]; simpl in Hidx;
    destruct (Z.ltb_spec (getCurrentIndex schedule) 0); lia.
Qed.

(** X24. A control of the overview page shows what the server made of
    it. When the request and the fetches that follow succeed, the page
    holds the served schedule and settings and reports success: after
    [next] or [previous] on a schedule that is not empty exactly one entry
    is current on the page, the one the stepped index names, and after
    [clear-current] none is. When the control request fails, with an
    error status or without an answer, page and theme stay as they are and
    an error is reported; the fetches are not consulted. *)
Theorem overview_controls_show_the_served_state
    (schedule : list ScheduleItem) (settings : Settings)
    (phases : Payload Phase.t) (st : AdminOverview.State)
    (theme : ThemeContext.State) :
  (0 < length schedule)%nat →
  let page := λ served : list ScheduleItem * Reply bool,
    AdminOverview.handleControl (fulfilled served.2)
      (fulfilled (Some served.1)) (fulfilled phases) (fulfilled settings)
      st theme in
  let shown := λ served, AdminOverview.schedule (page served).1.1 in
  let n := Z.of_nat (length schedule) in
  (∀ served, served.2 = Json true →
     shown served = served.1 ∧
     ThemeContext.settings (page served).1.2 = settings ∧
     (page served).2 = toast_success "Steuerung aktualisiert") ∧
  count_current (shown (control_next schedule)) = 1%nat ∧
  getCurrentIndex (shown (control_next schedule))
    = Spec.index_step n (getCurrentIndex schedule) Next ∧
  count_current (shown (control_previous schedule)) = 1%nat ∧
  getCurrentIndex (shown (control_previous schedule))
    = Spec.index_step n (getCurrentIndex schedule) Previous ∧
  count_current (shown (control_clear_current schedule)) = 0%nat ∧
  (∀ reply scheduleRes phasesRes settingsRes,
     reply = rejected ∨ (∃ status text, reply = fulfilled (Status status text)) →
     AdminOverview.handleControl reply scheduleRes phasesRes settingsRes
       st theme
     = (st, theme, toast_error "Fehler bei der Steuerung")).
Proof.
  intros Hlen page shown n. subst page shown n. cbn beta.
  split_and!.
  - intros [served reply] Hreply. simpl in Hreply. subst reply. done.
  - apply (count_current_step Next); [done|by left].
  - apply (getCurrentIndex_apply_step Next); [done|by left].
  - apply (count_current_step Previous); [done|by right].
  - apply (getCurrentIndex_apply_step Previous); [done|by right].
  - apply count_current_cleared.
  - intros reply ? ? ? [->|(status & text & ->)]; done.
Qed.

Lemma overview_controls_show_the_served_state_witness :
  let out :=
    AdminOverview.handleControl (fulfilled (control_next Sample.abc_live).2)
      (fulfilled (Some (control_next Sample.abc_live).1)) (fulfilled None)
      (fulfilled defaultSettings)
      {| AdminOverview.schedule := Sample.abc_live;
         AdminOverview.phases := []; AdminOverview.countdown := zero |}
      {| ThemeContext.settings := defaultSettings;
         ThemeContext.loading := false |} in
  getCurrentIndex (AdminOverview.schedule out.1.1) = 2 ∧
  count_current (AdminOverview.schedule out.1.1) = 1%nat.
Proof.
  intros out.
  destruct (overview_controls_show_the_served_state Sample.abc_live
              defaultSettings None
              {| AdminOverview.schedule := Sample.abc_live;
                 AdminOverview.phases := [];
                 AdminOverview.countdown := zero |}
              {| ThemeContext.settings := defaultSettings;
                 ThemeContext.loading := false |}
              ltac:(simpl; lia)) as (_ & Hone & _).
  split; [reflexivity|exact Hone].
Defined.

(** *** The reorder request as the backend serves it *)

Lemma merge_empty_body (x : ScheduleItem) : merge x empty_body = x.
Proof. by destruct x. Qed.

(** The request changes no record but, at most, [is_current] flags. *)
Lemma put_schedule_reorder_unflagged (order : list string)
    (schedule : list ScheduleItem) :
  Spec.unflagged (put_schedule_reorder order schedule).1
  = Spec.unflagged schedule.
Proof.
  unfold put_schedule_reorder, schedule_put.
  destruct (list_find _ schedule) as [[i cur]|] eqn:Hfind; [|done].
  apply list_find_Some in Hfind as (Hcur & _ & _).
  rewrite merge_empty_body. destruct (is_current cur); cbn [fst].
  - apply unflagged_fmap_flag.
  - by rewrite list_insert_id.
Qed.

(** An id the backend generates is a run of digits, never [reorder]. *)
Lemma new_id_not_reorder (now : N) : new_id now ≠ "reorder".
Proof.
  unfold new_id. intros Heq.
  assert (Js.digits_go 0 (pretty now) = Some (Z.of_N now)) as Hdigits.
  { replace (pretty now) with (pretty (Z.of_N now)) by by destruct now.
    apply digits_go_pretty. lia. }
  by rewrite Heq in Hdigits.
Qed.

Lemma generated_ids_not_reorder (schedule : list ScheduleItem) :
  (∀ sid, sid ∈ id <$> schedule → ∃ now, sid = new_id now) →
  "reorder" ∉ id <$> schedule.
Proof.
  intros Hgen Hin. destruct (Hgen _ Hin) as [now Hnow].
  by destruct (new_id_not_reorder now).
Qed.

(** The reply is the 404 of the route or an entry, never another error. *)
Lemma put_schedule_reorder_reply (order : list string)
    (schedule : list ScheduleItem) :
  (put_schedule_reorder order schedule).2 = NotFound ∨
  ∃ x, (put_schedule_reorder order schedule).2 = Json x.
Proof.
  unfold put_schedule_reorder, schedule_put.
  destruct (list_find _ schedule) as [[i cur]|]; [|by left].
  destruct (is_current _); right; by eexists.
Qed.

(** A drag of the entry at position [i] onto the entry at position [j]
    submits an order that differs from the stored one at position [j]. *)
Lemma handleDragEnd_moves (schedule : list ScheduleItem) (i j : nat)
    (x y : ScheduleItem) newOrder order :
  NoDup (id <$> schedule) →
  schedule !! i = Some x → schedule !! j = Some y → i ≠ j →
  AdminSchedule.handleDragEnd (id x) (Some (id y)) schedule
    = Some (newOrder, Some order) →
  order !! j = Some (id x) ∧ order ≠ id <$> schedule.
Proof.
  intros Hnd Hx Hy Hij. unfold AdminSchedule.handleDragEnd.
  assert (id x ≠ id y) as Hne.
  { intros Heq. apply Hij.
    apply (NoDup_lookup (id <$> schedule) i j (id x) Hnd).
    - by rewrite list_lookup_fmap, Hx.
    - by rewrite list_lookup_fmap, Hy, Heq. }
  rewrite (proj2 (String.eqb_neq _ _) Hne).
  rewrite (findIndex_id schedule i x Hnd Hx).
  rewrite (findIndex_id schedule j y Hnd Hy).
  rewrite (arrayMove_positions schedule i j x Hx (lookup_lt_Some _ _ _ Hy)).
  rewrite mapM_fmap_Some_all. intros [= _ <-].
  assert ((id <$> take j (delete i schedule)
                   ++ x :: drop j (delete i schedule)) !! j = Some (id x))
    as Hj.
  { rewrite list_lookup_fmap, (list_lookup_middle _ _ _ j); [done|].
    rewrite length_take, length_delete by by eexists.
    pose proof (lookup_lt_Some _ _ _ Hy). lia. }
  split; [done|]. intros Heq. rewrite Heq, list_lookup_fmap, Hy in Hj.
  by injection Hj as Hj.
Qed.

(** C6. Of what the claim says, the part on the page holds: the id list
    [handleDragEnd] submits is a permutation of the ids of the schedule
    the page holds, the array it shows holds the same records, each with
    its [is_current] flag, and a drag of an entry onto another one
    submits an order that differs from the one before. The part on the
    backend fails: the request is [PUT /api/schedule/reorder], which the
    route [/api/schedule/:id] serves with the id [reorder]. The stored
    schedule keeps its ids in the order they had, and every entry its
    title, description, times, phase, notes, people and groups; when no
    entry has the id [reorder], as in every schedule whose ids the
    backend generated, the reply is 404 and the stored schedule is the
    one before. The order the page submitted is therefore not the stored
    one, unless it was the stored one before. *)
Theorem dragged_order_is_not_stored (active : string) (over : option string)
    (schedule : list ScheduleItem) (newOrder : list (option ScheduleItem))
    (order : list string) :
  AdminSchedule.handleDragEnd active over schedule
    = Some (newOrder, Some order) →
  let served := put_schedule_reorder order schedule in
  order ≡ₚ id <$> schedule ∧
  (∃ l, newOrder = Some <$> l ∧ l ≡ₚ schedule ∧ order = id <$> l) ∧
  (∀ i j x y,
     NoDup (id <$> schedule) →
     schedule !! i = Some x → schedule !! j = Some y → i ≠ j →
     active = id x → over = Some (id y) →
     order !! j = Some (id x) ∧ order ≠ id <$> schedule) ∧
  id <$> served.1 = id <$> schedule ∧
  Spec.unflagged served.1 = Spec.unflagged schedule ∧
  ("reorder" ∉ id <$> schedule → served = (schedule, NotFound)) ∧
  ((∀ sid, sid ∈ id <$> schedule → ∃ now, sid = new_id now) →
     served = (schedule, NotFound)) ∧
  (order ≠ id <$> schedule → id <$> served.1 ≠ order).
Proof.
  intros Hdrag served.
  assert (id <$> served.1 = id <$> schedule) as Hids
    by apply unflagged_ids, put_schedule_reorder_unflagged.
  destruct (handleDragEnd_Permutation _ _ _ _ _ Hdrag)
    as (l & Hshown & Hperm & Horder).
  split_and!.
  - by rewrite Horder, Hperm.
  - by exists l.
  - intros i j x y Hnd Hx Hy Hij -> ->.
    by apply (handleDragEnd_moves schedule i j x y newOrder).
  - done.
  - apply put_schedule_reorder_unflagged.
  - intros Hnone. by apply schedule_put_reorder.
  - intros Hgen. by apply schedule_put_reorder, generated_ids_not_reorder.
  - intros Hne. by rewrite Hids.
Qed.

(** Three entries are created and the first is made current; the page
    shows them and the first is dragged onto the third. The page shows and
    submits the order [2, 3, 1]; the backend answers 404 and the stored
    order is [1, 2, 3] as before. *)
Lemma dragged_order_is_not_stored_witness :
  let schedule := (control_next Sample.created).1 in
  ∃ newOrder,
    id <$> schedule = ["1"; "2"; "3"] ∧
    AdminSchedule.handleDragEnd "1" (Some "3") schedule
      = Some (newOrder, Some ["2"; "3"; "1"]) ∧
    put_schedule_reorder ["2"; "3"; "1"] schedule = (schedule, NotFound) ∧
    id <$> (put_schedule_reorder ["2"; "3"; "1"] schedule).1
      ≠ ["2"; "3"; "1"].
Proof.
  intros schedule.
  destruct (AdminSchedule.handleDragEnd "1" (Some "3") schedule)
    as [[newOrder order]|] eqn:Hdrag; [|by vm_compute in Hdrag].
  assert (order = Some ["2"; "3"; "1"]) as ->
    by (vm_compute in Hdrag; by injection Hdrag as _ <-).
  exists newOrder.
  destruct (dragged_order_is_not_stored "1" (Some "3") schedule newOrder
              ["2"; "3"; "1"] Hdrag)
    as (_ & _ & _ & _ & _ & Hreply & _ & Hdiff).
  split_and!; [reflexivity|reflexivity| |].
  - apply Hreply. decide_by_computation.
  - apply Hdiff. by vm_compute.
Defined.

(** C7, as stated, fails: a list that leaves an id out is answered with
    the 404 of the route [/api/schedule/:id], whose error is [Not found];
    no reply of the backend names [InvalidOrder]. *)
Lemma mismatched_order_is_not_invalid_order :
  (∃ sid, sid ∈ id <$> Sample.created ∧ sid ∉ ["2"; "1"]) ∧
  put_schedule_reorder ["2"; "1"] Sample.created
    = (Sample.created, Status 404 "Not found") ∧
  (∀ code,
     (put_schedule_reorder ["2"; "1"] Sample.created).2
       ≠ Status code "InvalidOrder").
Proof.
  split_and!.
  - exists "3". split; decide_by_computation.
  - reflexivity.
  - intros code. by vm_compute.
Qed.

(** C7, amended. The backend compares no id sets. A reorder request with
    an id list that does not match the stored ids is answered with the
    404 of the route [/api/schedule/:id] or with an entry, never with
    another error, and drops nothing: the stored schedule keeps all ids
    and their order, and every entry its title, description, times,
    phase, notes, people and groups. When no entry has the id [reorder],
    as in every schedule whose ids the backend generated, the reply is
    404 and the stored schedule is the one before. *)
Theorem mismatched_order_drops_nothing (order : list string)
    (schedule : list ScheduleItem) :
  (∃ sid, (sid ∈ order ∧ sid ∉ id <$> schedule) ∨
          ((sid ∉ order) ∧ sid ∈ id <$> schedule)) →
  let served := put_schedule_reorder order schedule in
  (served.2 = NotFound ∨ ∃ x, served.2 = Json x) ∧
  id <$> served.1 = id <$> schedule ∧
  length served.1 = length schedule ∧
  Spec.unflagged served.1 = Spec.unflagged schedule ∧
  ("reorder" ∉ id <$> schedule → served = (schedule, NotFound)) ∧
  ((∀ sid, sid ∈ id <$> schedule → ∃ now, sid = new_id now) →
     served = (schedule, NotFound)).
Proof.
  intros _ served.
  pose proof (put_schedule_reorder_unflagged order schedule) as Hsame.
  fold served in Hsame.
  split_and!.
  - apply put_schedule_reorder_reply.
  - by apply unflagged_ids.
  - apply (f_equal length) in Hsame. unfold Spec.unflagged in Hsame.
    by rewrite !length_fmap in Hsame.
  - done.
  - intros Hnone. by apply schedule_put_reorder.
  - intros Hgen. by apply schedule_put_reorder, generated_ids_not_reorder.
Qed.

(** A partial list, which leaves [3] out, and a list with the foreign id
    [4] are answered 404 and leave the three entries stored. *)
Lemma mismatched_order_drops_nothing_witness :
  put_schedule_reorder ["2"; "1"] Sample.created
    = (Sample.created, NotFound) ∧
  put_schedule_reorder ["2"; "1"; "3"; "4"] Sample.created
    = (Sample.created, NotFound).
Proof.
  split.
  - destruct (mismatched_order_drops_nothing ["2"; "1"] Sample.created)
      as (_ & _ & _ & _ & Hreply & _).
    + exists "3". right. split; decide_by_computation.
    + apply Hreply. decide_by_computation.
  - destruct (mismatched_order_drops_nothing ["2"; "1"; "3"; "4"]
                Sample.created) as (_ & _ & _ & _ & Hreply & _).
    + exists "4". left. split; decide_by_computation.
    + apply Hreply. decide_by_computation.
Defined.
